(** * Growth chart: resident-identifier parsing, reference-table parsing,
      chart geometry and visit deltas.

    Shallow embedding of the TypeScript sources
    - [src/app/page.tsx]: [normalizeResidentId], [parseDateInput],
      [getAgeMonths], [getSexKey], [parseResidentId], [formatAge],
      [maskResidentId], [diffDays], [historyVisits], [heightCurves],
      [weightCurves], [injectionEvents], [setVisitStateFromRows];
    - [src/unnamed/part_002], the route handler of [/api/growth-table]:
      [parseCsvLine], [parseGrowthCsv], [GET] and its cache;
    - [src/unnamed/part_003], the component [MetricChart];
    followed by the properties stated about them. *)

From Stdlib Require Import String Ascii.
From Stdlib Require Import ZArith NArith List Bool Lia.
From Stdlib Require Import Permutation Sorted.
From Stdlib Require Import Floats DecimalString DecimalPos DecimalZ.
Import ListNotations.

Local Open Scope Z_scope.

(* ================================================================== *)
(** ** JavaScript strings and the built-ins the sources call *)
(* ================================================================== *)

Module JS.

(** A JavaScript string is a sequence of UTF-16 code units. *)
Definition code_unit := N.
Definition jsstring := list code_unit.

(** ASCII literals, for readable examples. *)
Definition str (s : string) : jsstring :=
  map N_of_ascii (list_ascii_of_string s).

Definition jsstring_eqb (a b : jsstring) : bool :=
  if list_eq_dec N.eq_dec a b then true else false.

(** [\d] and its complement [\D] (no unicode flag: ASCII digits only). *)
Definition isDigit (c : code_unit) : bool := ((48 <=? c) && (c <=? 57))%N.

Definition digit_value (c : code_unit) : N := (c - 48)%N.

(** WhiteSpace and LineTerminator code points, as [String.prototype.trim]
    and the numeric parsers skip them. *)
Definition isWhiteSpace (c : code_unit) : bool :=
  ((c =? 9) || (c =? 10) || (c =? 11) || (c =? 12) || (c =? 13) || (c =? 32)
   || (c =? 160) || (c =? 5760) || ((8192 <=? c) && (c <=? 8202))
   || (c =? 8232) || (c =? 8233) || (c =? 8239) || (c =? 8287)
   || (c =? 12288) || (c =? 65279))%N.

Fixpoint trimStart (s : jsstring) : jsstring :=
  match s with
  | c :: r => if isWhiteSpace c then trimStart r else s
  | [] => []
  end.

Definition trimEnd (s : jsstring) : jsstring := rev (trimStart (rev s)).

Definition trim (s : jsstring) : jsstring := trimEnd (trimStart s).

(** [s.slice(a, b)] for [0 <= a <= b]. *)
Definition slice (a b : nat) (s : jsstring) : jsstring :=
  firstn (b - a) (skipn a s).

(** The longest prefix of decimal digits, read as a number. *)
Fixpoint digits_prefix (acc : option N) (s : jsstring) : option N :=
  match s with
  | c :: r =>
      if isDigit c
      then digits_prefix
             (Some (10 * match acc with Some a => a | None => 0 end
                    + digit_value c)%N) r
      else acc
  | [] => acc
  end.

(** [Number.parseInt(s, 10)] up to the conversion of the mathematical
    integer to a Number: leading white space is skipped, one sign is
    read, then the longest run of digits; [None] stands for NaN.  The
    result is (negative?, magnitude).  An [undefined] argument is first
    converted to the string "undefined", which has no digits. *)
Definition parseInt_lit (s : option jsstring) : option (bool * N) :=
  match s with
  | None => None
  | Some s =>
      let s := trimStart s in
      let neg := match s with c :: _ => (c =? 45)%N | [] => false end in
      let body :=
        match s with
        | c :: r => if ((c =? 43) || (c =? 45))%N then r else s
        | [] => s
        end in
      match digits_prefix None body with
      | Some m => Some (neg, m)
      | None => None
      end
  end.

Definition int_value (l : bool * N) : Z :=
  if fst l then - Z.of_N (snd l) else Z.of_N (snd l).

(** [Number.parseInt(s, 10)] where the digits are few enough for the
    result to be an exact integer. *)
Definition parseInt (s : jsstring) : option Z :=
  option_map int_value (parseInt_lit (Some s)).

Fixpoint mapi_from {A B} (i : nat) (f : A -> nat -> B) (l : list A) : list B :=
  match l with
  | a :: r => f a i :: mapi_from (S i) f r
  | [] => []
  end.

(** [array.map((value, index) => ...)] *)
Definition mapi {A B} (f : A -> nat -> B) (l : list A) : list B :=
  mapi_from 0 f l.

Fixpoint findIndex_from {A} (i : nat) (p : A -> bool) (l : list A) : option nat :=
  match l with
  | a :: r => if p a then Some i else findIndex_from (S i) p r
  | [] => None
  end.

(** [array.findIndex(p)]; [None] is the source's -1. *)
Definition findIndex {A} (p : A -> bool) (l : list A) : option nat :=
  findIndex_from 0 p l.

(** Numbers are IEEE 754 binary64 values.  The Number value of a
    mathematical integer: round to nearest, ties to even; infinite beyond
    the range of binary64. *)
Definition Number_of_Z (z : Z) : float :=
  SF2Prim (binary_normalize prec emax z 0 false).

(** [Number.isFinite(x)]; [undefined] is not finite. *)
Definition Number_isFinite (x : float) : bool := is_finite x.

Definition isFinite_opt (x : option float) : bool :=
  match x with
  | Some x => Number_isFinite x
  | None => false
  end.

(** One step of [Math.min] and of [Math.max] (ECMA-262 21.3.2.24/25):
    NaN is contagious and -0 is below +0. *)
Definition is_neg_zero (x : float) : bool :=
  match classify x with NZero => true | _ => false end.

Definition is_pos_zero (x : float) : bool :=
  match classify x with PZero => true | _ => false end.

Fixpoint Math_min_from (lowest : float) (l : list float) : float :=
  match l with
  | number :: r =>
      if is_nan number then nan
      else if is_neg_zero number && is_pos_zero lowest
           then Math_min_from number r
      else if (number <? lowest)%float then Math_min_from number r
      else Math_min_from lowest r
  | [] => lowest
  end.

Fixpoint Math_max_from (highest : float) (l : list float) : float :=
  match l with
  | number :: r =>
      if is_nan number then nan
      else if is_pos_zero number && is_neg_zero highest
           then Math_max_from number r
      else if (highest <? number)%float then Math_max_from number r
      else Math_max_from highest r
  | [] => highest
  end.

(** [Math.min(...l)] and [Math.max(...l)] *)
Definition Math_min (l : list float) : float := Math_min_from infinity l.
Definition Math_max (l : list float) : float := Math_max_from neg_infinity l.

End JS.

Import JS.

(* ================================================================== *)
(** ** Dates: the day-number arithmetic of ECMA-262 (21.4.1) *)
(* ================================================================== *)

Module DateTime.

(** A valid [Date] is modelled by the number of its local calendar day,
    counted from 1970-01-01.  The time of day and the zone offset play no
    part in [getFullYear], [getMonth] and [getDate] of a date built from
    local year, month and day, in a zone that skips no calendar day. *)
Definition Date := Z.

Definition DaysInYear (y : Z) : Z :=
  if negb (y mod 4 =? 0) then 365
  else if negb (y mod 100 =? 0) then 366
  else if negb (y mod 400 =? 0) then 365
  else 366.

Definition InLeapYear_of_year (y : Z) : Z :=
  if DaysInYear y =? 366 then 1 else 0.

Definition DayFromYear (y : Z) : Z :=
  365 * (y - 1970) + (y - 1969) / 4 - (y - 1901) / 100 + (y - 1601) / 400.

(** The largest year whose first day is not after day [d]. *)
Definition YearFromDay (d : Z) : Z :=
  let y := 1970 + (400 * d) / 146097 in
  if DayFromYear (y + 1) <=? d then y + 1
  else if DayFromYear y <=? d then y
  else y - 1.

Definition DayWithinYear (d : Z) : Z := d - DayFromYear (YearFromDay d).

Definition InLeapYear (d : Z) : Z := InLeapYear_of_year (YearFromDay d).

(** First day-within-year of each month, for leap flag [L]. *)
Definition month_starts (L : Z) : list Z :=
  [0; 31; 59 + L; 90 + L; 120 + L; 151 + L; 181 + L; 212 + L; 243 + L;
   273 + L; 304 + L; 334 + L].

Definition month_start (L : Z) (m : Z) : Z :=
  nth (Z.to_nat m) (month_starts L) (365 + L).

(** The month (0..11) in which day-within-year [w] falls. *)
Definition month_of_yearday (L w : Z) : Z :=
  Z.of_nat (length (filter (fun s => s <=? w) (month_starts L))) - 1.

(** [MonthFromTime]: the month (0..11) of a day. *)
Definition MonthFromDay (d : Z) : Z :=
  month_of_yearday (InLeapYear d) (DayWithinYear d).

(** [DateFromTime]: the day of the month (1..31). *)
Definition DateFromDay (d : Z) : Z :=
  DayWithinYear d - month_start (InLeapYear d) (MonthFromDay d) + 1.

(** [MakeDay(year, month, date)]. *)
Definition MakeDay (year month date : Z) : Z :=
  let ym := year + month / 12 in
  let mn := month mod 12 in
  DayFromYear ym + month_start (InLeapYear_of_year ym) mn + date - 1.

(** [new Date(year, month, date)] for a four-digit year. *)
Definition newDate (year month date : Z) : Date := MakeDay year month date.

Definition getFullYear (t : Date) : Z := YearFromDay t.
Definition getMonth (t : Date) : Z := MonthFromDay t.
Definition getDate (t : Date) : Z := DateFromDay t.

(** The Gregorian calendar, stated on its own. *)
Definition is_leap (y : Z) : bool :=
  ((y mod 4 =? 0) && negb (y mod 100 =? 0)) || (y mod 400 =? 0).

Definition days_in_month (y m : Z) : Z :=
  if m =? 2 then (if is_leap y then 29 else 28)
  else if (m =? 4) || (m =? 6) || (m =? 9) || (m =? 11) then 30
  else 31.

Definition real_date (y m d : Z) : Prop :=
  1 <= m <= 12 /\ 1 <= d <= days_in_month y m.

End DateTime.

Import DateTime.

(* ================================================================== *)
(** ** src/app/page.tsx: resident identifier and age *)
(* ================================================================== *)

Module ResidentId.

Record AgeInfo := { birth : Date; ageMonths : Z }.

(** [centuryMap]: an object keyed by the one-character strings "1".."8". *)
Definition centuryMap : list (jsstring * Z) :=
  [ (str "1", 1900); (str "2", 1900); (str "3", 2000); (str "4", 2000);
    (str "5", 1900); (str "6", 1900); (str "7", 2000); (str "8", 2000) ].

Fixpoint lookup {A} (k : jsstring) (o : list (jsstring * A)) : option A :=
  match o with
  | (k', v) :: r => if jsstring_eqb k k' then Some v else lookup k r
  | [] => None
  end.

(** [value.replace(/\D/g, "")] *)
Definition normalizeResidentId (value : jsstring) : jsstring :=
  filter isDigit value.

Definition getAgeMonths (birth onDate : Date) : Z :=
  let months :=
    (getFullYear onDate - getFullYear birth) * 12
    + (getMonth onDate - getMonth birth) in
  if getDate onDate <? getDate birth then months - 1 else months.

(** [parseResidentId]; [None] is the source's [null].  A NaN field (which
    thirteen digits cannot produce) passes the range tests, yields an
    invalid date, and is rejected by the comparison of the years. *)
Definition parseResidentId (value : jsstring) (referenceDate : Date)
  : option AgeInfo :=
  let digits := normalizeResidentId value in
  if negb (Nat.eqb (length digits) 13) then None
  else
    let yy := parseInt (slice 0 2 digits) in
    let mm := parseInt (slice 2 4 digits) in
    let dd := parseInt (slice 4 6 digits) in
    let genderCode := slice 6 7 digits in   (* digits[6] *)
    let century := lookup genderCode centuryMap in
    match century, yy, mm, dd with
    | Some century, Some yy, Some mm, Some dd =>
        if (century =? 0) || (mm <? 1) || (mm >? 12) || (dd <? 1) || (dd >? 31)
        then None
        else
          let year := century + yy in
          let birth := newDate year (mm - 1) dd in
          if negb (getFullYear birth =? year)
             || negb (getMonth birth =? mm - 1)
             || negb (getDate birth =? dd)
          then None
          else
            let ageMonths := getAgeMonths birth referenceDate in
            if ageMonths <? 0 then None
            else Some {| birth := birth; ageMonths := ageMonths |}
    | _, _, _, _ => None
    end.

End ResidentId.

Import ResidentId.


(* ================================================================== *)
(** ** src/unnamed/part_002 (route of /api/growth-table): the
       reference-table parser *)
(* ================================================================== *)

Module GrowthTable.

(** Exceptions: the only run-time error the parser could raise is a
    TypeError on reading a property of [undefined]. *)
Inductive Result (A : Type) : Type :=
| Ok (a : A)
| Throw_TypeError.
Arguments Ok {A} a.
Arguments Throw_TypeError {A}.

Definition bind {A B} (r : Result A) (k : A -> Result B) : Result B :=
  match r with
  | Ok a => k a
  | Throw_TypeError => Throw_TypeError
  end.

Notation "'do' x <- r ; k" := (bind r (fun x => k))
  (at level 10, x name, r at level 100, k at level 200).

Record GrowthCurve := {
  ages : list float;
  percentiles : list (jsstring * list float)
}.

Record GrowthTable := {
  table_percentiles : list jsstring;
  bySex : list (jsstring * GrowthCurve)
}.

Definition empty_table : GrowthTable :=
  {| table_percentiles := []; bySex := [] |}.

(** Objects and [Map]s keyed by strings: association lists without
    repeated keys, in insertion order. *)
Fixpoint get {A} (k : jsstring) (o : list (jsstring * A)) : option A :=
  match o with
  | (k', v) :: r => if jsstring_eqb k k' then Some v else get k r
  | [] => None
  end.

Fixpoint set {A} (k : jsstring) (v : A) (o : list (jsstring * A))
  : list (jsstring * A) :=
  match o with
  | (k', v') :: r =>
      if jsstring_eqb k k' then (k', v) :: r else (k', v') :: set k v r
  | [] => [(k, v)]
  end.

(** [Object.fromEntries]: a later entry overwrites an earlier one with
    the same key.  (The enumeration order of integer-like keys is not
    modelled; only [get] observes the object.) *)
Definition Object_fromEntries {A} (entries : list (jsstring * A))
  : list (jsstring * A) :=
  fold_left (fun o e => set (fst e) (snd e) o) entries [].

Fixpoint startsWith (needle hay : jsstring) : bool :=
  match needle, hay with
  | [], _ => true
  | n :: needle', h :: hay' => (n =? h)%N && startsWith needle' hay'
  | _ :: _, [] => false
  end.

(** [hay.includes(needle)] *)
Fixpoint includes (needle hay : jsstring) : bool :=
  startsWith needle hay
  || match hay with
     | _ :: hay' => includes needle hay'
     | [] => false
     end.

(** [content.split(/\r?\n/)] *)
Fixpoint split_lines (content current : jsstring) : list jsstring :=
  match content with
  | [] => [rev current]
  | c :: rest =>
      if (c =? 10)%N then rev current :: split_lines rest []
      else
        match rest with
        | d :: rest' =>
            if ((c =? 13) && (d =? 10))%N
            then rev current :: split_lines rest' []
            else split_lines rest (c :: current)
        | [] => split_lines rest (c :: current)
        end
  end.

(** The loop of [parseCsvLine]; [line] is what lies at index [i] and
    beyond. *)
Fixpoint parseCsvLine_loop (line current : jsstring) (inQuotes : bool)
    (values : list jsstring) : list jsstring :=
  match line with
  | [] => values ++ [trim current]
  | char :: rest =>
      if (char =? 34)%N then
        match rest with
        | next :: rest' =>
            if inQuotes && (next =? 34)%N
            then parseCsvLine_loop rest' (current ++ [34%N]) inQuotes values
            else parseCsvLine_loop rest current (negb inQuotes) values
        | [] => parseCsvLine_loop rest current (negb inQuotes) values
        end
      else if (char =? 44)%N && negb inQuotes then
        parseCsvLine_loop rest [] inQuotes (values ++ [trim current])
      else parseCsvLine_loop rest (current ++ [char]) inQuotes values
  end.

Definition parseCsvLine (line : jsstring) : list jsstring :=
  parseCsvLine_loop line [] false [].

(** [/^\d+(st|nd|rd|th)$/i]: without the unicode flag a letter of the
    pattern matches exactly its two ASCII cases. *)
Definition letter_matches (pattern c : code_unit) : bool :=
  ((c =? pattern) || (c =? pattern - 32))%N.
Arguments letter_matches (pattern c)%_N.

Fixpoint skip_digits (s : jsstring) : jsstring :=
  match s with
  | c :: r => if isDigit c then skip_digits r else s
  | [] => []
  end.

Definition ordinal_suffix (s : jsstring) : bool :=
  match s with
  | [a; b] =>
      (letter_matches 115 a && letter_matches 116 b)       (* st *)
      || (letter_matches 110 a && letter_matches 100 b)    (* nd *)
      || (letter_matches 114 a && letter_matches 100 b)    (* rd *)
      || (letter_matches 116 a && letter_matches 104 b)    (* th *)
  | _ => false
  end.

Definition percentilePattern_matches (s : jsstring) : bool :=
  match s with
  | c :: _ => isDigit c && ordinal_suffix (skip_digits s)
  | [] => false
  end.

(** The state of the module that the parser can reach:
    [percentilePattern] is a RegExp object, and [RegExp.prototype.test]
    reads and writes its [lastIndex] when the pattern has the global or
    the sticky flag.  (The [cache] of the module is read and written by
    the request handler only.) *)
Record RegExpFlags := { global : bool; ignoreCase : bool; sticky : bool }.

Definition percentilePattern_flags : RegExpFlags :=
  {| global := false; ignoreCase := true; sticky := false |}.

Record ModuleState := { percentilePattern_lastIndex : nat }.

(** [percentilePattern.test(s)]: the pattern starts with [^], so a match
    can only begin at index 0. *)
Definition percentilePattern_test (s : jsstring) (st : ModuleState)
  : bool * ModuleState :=
  let stateful :=
    global percentilePattern_flags || sticky percentilePattern_flags in
  let start := if stateful then percentilePattern_lastIndex st else 0%nat in
  let found :=
    Nat.leb start (length s) && Nat.eqb start 0 && percentilePattern_matches s in
  (found,
   if stateful
   then {| percentilePattern_lastIndex := if found then length s else 0%nat |}
   else st).

Record Column := { name : jsstring; index : nat }.

Fixpoint filter_percentile (cols : list Column) (st : ModuleState)
  : list Column * ModuleState :=
  match cols with
  | c :: r =>
      let (keep, st1) := percentilePattern_test (name c) st in
      let (r', st2) := filter_percentile r st1 in
      (if keep then c :: r' else r', st2)
  | [] => ([], st)
  end.

(** "성별" *)
Definition sex_marker : jsstring := [49457; 48324]%N.
(** "만나이(개월" *)
Definition month_marker : jsstring := [47564; 45208; 51060; 40; 44060; 50900]%N.

(** [Number.parseInt(s, 10)] as a Number. *)
Definition Number_parseInt (s : option jsstring) : float :=
  match parseInt_lit s with
  | Some (neg, m) =>
      let f := Number_of_Z (Z.of_N m) in if neg then (- f)%float else f
  | None => nan
  end.

Section Parser.

(** [String(n)] and [Number.parseFloat], left to the engine. *)
Variable Number_toString : float -> jsstring.
Variable Number_parseFloat : option jsstring -> float.

(** [lines.filter((line) => line.trim().length > 0)] after the split. *)
Definition content_lines (content : jsstring) : list jsstring :=
  filter (fun line => negb (Nat.eqb (length (trim line)) 0))
         (split_lines content []).

(** [headerTop]: a leading U+FEFF is removed from the first cell. *)
Definition header_top (line0 : jsstring) : list jsstring :=
  mapi (fun value index =>
          if Nat.eqb index 0
          then match value with
               | c :: r => if (c =? 65279)%N then r else value
               | [] => value
               end
          else value)
       (parseCsvLine line0).

(** [columns]: the second header row where it is not empty, else the
    first. *)
Definition columns_of (headerTop headerBottom : list jsstring) : list jsstring :=
  mapi (fun value index =>
          match option_map trim (nth_error headerBottom index) with
          | Some ((_ :: _) as bottom) => bottom
          | _ => trim value
          end)
       headerTop.

(** [entry.percentiles[column.name].push(...)] for every percentile
    column of one row. *)
Fixpoint push_percentiles (cells : list jsstring) (cols : list Column)
    (pcts : list (jsstring * list float))
  : Result (list (jsstring * list float)) :=
  match cols with
  | column :: r =>
      let rawValue := nth_error cells (index column) in
      let parsed := Number_parseFloat rawValue in
      match get (name column) pcts with
      | Some values =>
          push_percentiles cells r
            (set (name column)
                 (values ++ [if Number_isFinite parsed then parsed else nan])
                 pcts)
      | None => Throw_TypeError
      end
  | [] => Ok pcts
  end.

(** The body of [lines.slice(2).forEach]: [bySex] is the [Map]; the entry
    it holds is one shared object, updated in place. *)
Definition parse_row (sexIndex monthIndex : nat) (percentileColumns : list Column)
    (bySex : list (jsstring * GrowthCurve)) (line : jsstring)
  : Result (list (jsstring * GrowthCurve)) :=
  let cells := parseCsvLine line in
  let sexValue := Number_parseInt (nth_error cells sexIndex) in
  let monthValue := Number_parseInt (nth_error cells monthIndex) in
  if negb (Number_isFinite sexValue) || negb (Number_isFinite monthValue)
  then Ok bySex
  else
    let key := Number_toString sexValue in
    let entry :=
      match get key bySex with
      | Some entry => entry
      | None =>
          {| ages := [];
             percentiles :=
               Object_fromEntries
                 (map (fun column => (name column, [])) percentileColumns) |}
      end in
    do pcts <- push_percentiles cells percentileColumns (percentiles entry);
    Ok (set key {| ages := ages entry ++ [monthValue]; percentiles := pcts |}
            bySex).

Fixpoint parse_rows (sexIndex monthIndex : nat) (percentileColumns : list Column)
    (bySex : list (jsstring * GrowthCurve)) (lines : list jsstring)
  : Result (list (jsstring * GrowthCurve)) :=
  match lines with
  | line :: r =>
      do bySex' <- parse_row sexIndex monthIndex percentileColumns bySex line;
      parse_rows sexIndex monthIndex percentileColumns bySex' r
  | [] => Ok bySex
  end.

Definition parseGrowthCsv (content : jsstring) (st : ModuleState)
  : Result GrowthTable * ModuleState :=
  let lines := content_lines content in
  if Nat.ltb (length lines) 3 then (Ok empty_table, st)
  else
    match lines with
    | line0 :: line1 :: rows =>
        let headerTop := header_top line0 in
        let headerBottom := parseCsvLine line1 in
        let columns := columns_of headerTop headerBottom in
        let sexIndex := findIndex (fun name => jsstring_eqb name sex_marker) columns in
        let monthIndex := findIndex (fun name => includes month_marker name) columns in
        match sexIndex, monthIndex with
        | Some sexIndex, Some monthIndex =>
            let (percentileColumns, st') :=
              filter_percentile
                (mapi (fun name index => {| name := trim name; index := index |})
                      columns) st in
            (do bySex <- parse_rows sexIndex monthIndex percentileColumns [] rows;
             Ok {| table_percentiles := map name percentileColumns;
                   bySex := Object_fromEntries bySex |},
             st')
        | _, _ => (Ok empty_table, st)
        end
    | _ => (Throw_TypeError, st)
    end.

(** The effective column headers of a text (none when a header row is
    missing). *)
Definition effective_columns (content : jsstring) : list jsstring :=
  match content_lines content with
  | line0 :: line1 :: _ => columns_of (header_top line0) (parseCsvLine line1)
  | _ => []
  end.

End Parser.

End GrowthTable.

(** [String(n)] and [Number.parseFloat] on integers, for running the
    parser on tables whose cells hold integer literals: an integer-valued
    Number below 2^53 prints as its decimal digits, and a cell made of an
    optional sign and digits parses to that integer.  Other numbers and
    other cells are outside this instance. *)
Module IntegerCells.

Definition integer_of_Number (x : float) : option Z :=
  match Prim2SF x with
  | S754_zero _ => Some 0
  | S754_finite s m e =>
      let scale := 2 ^ (- e) in
      let magnitude :=
        if 0 <=? e then Zpos m * 2 ^ e else Zpos m / scale in
      if (0 <=? e) || (Zpos m mod scale =? 0)
      then Some (if s then - magnitude else magnitude)
      else None
  | _ => None
  end.

Definition Number_toString (x : float) : jsstring :=
  match integer_of_Number x with
  | Some z => str (NilZero.string_of_int (Z.to_int z))
  | None => str "NaN"
  end.

Definition Number_parseFloat (s : option jsstring) : float :=
  GrowthTable.Number_parseInt s.

Definition parseGrowthCsv :=
  GrowthTable.parseGrowthCsv Number_toString Number_parseFloat.

(** A table with two distinct percentile columns ...
    <<
    group,,percentile,
    성별,만나이(개월),3rd,50th
    1,0,46,50
    1,1,50,54
    2,0,45,49
    >> *)
Definition sample_table : jsstring :=
  str "group,,percentile," ++ [10%N]
  ++ GrowthTable.sex_marker ++ str "," ++ GrowthTable.month_marker
  ++ str "),3rd,50th" ++ [10%N]
  ++ str "1,0,46,50" ++ [13; 10]%N
  ++ str "1,1,50,54" ++ [10%N]
  ++ str "2,0,45,49" ++ [10%N].

(** ... and one in which two columns carry the same label.
    <<
    group,,percentile,
    성별,만나이(개월),3rd,3rd
    1,0,5,6
    >> *)
Definition repeated_label_table : jsstring :=
  str "group,,percentile," ++ [10%N]
  ++ GrowthTable.sex_marker ++ str "," ++ GrowthTable.month_marker
  ++ str "),3rd,3rd" ++ [10%N]
  ++ str "1,0,5,6".

(** No column for the sex. *)
Definition headless_table : jsstring :=
  str "a,b,c" ++ [10%N] ++ str "x,y,3rd" ++ [10%N] ++ str "1,0,5".

Definition initial_state : GrowthTable.ModuleState :=
  {| GrowthTable.percentilePattern_lastIndex := 0 |}.

End IntegerCells.

(* ================================================================== *)
(** ** src/unnamed/part_003 (components/MetricChart): chart geometry *)
(* ================================================================== *)

Module Chart.

Local Open Scope float_scope.

Record Point := { x : float; y : float }.

Record ReferenceCurve := { key : jsstring; points : list Point }.

Inductive EventType := growth | suppression.

Record ChartEvent := {
  event_x : float;
  label : jsstring;
  type : EventType;
  offset : option float
}.

Inductive Metric := metric_height | metric_weight.

Record Range := { range_min : float; range_max : float }.

Record MetricChartProps := {
  metric : Metric;
  values : list float;
  labels : list jsstring;
  xValues : option (list float);
  xRange : option Range;
  referenceCurves : option (list ReferenceCurve);
  highlightPoint : option Point;
  events : option (list ChartEvent);
  xLabelFormatter : option (float -> jsstring);
  className : option jsstring
}.

Definition width : float := 600.
Definition height : float := 240.
Definition padding_top : float := 18.
Definition padding_right : float := 24.
Definition padding_bottom : float := 36.
Definition padding_left : float := 52.

(** What the component draws. *)
Inductive PathCommand := M | L.

Record PathStep := { command : PathCommand; step_x : float; step_y : float }.

Record GridRow := { grid_value : float; grid_y : float }.

Record CurvePath := { curve_key : jsstring; d : list PathStep }.

Record CurveElement := {
  element_key : jsstring;
  element_d : list PathStep;
  curveClass : jsstring
}.

Record Circle := { cx : float; cy : float; r : float }.

Record EventMarker := {
  marker_x : float;
  polygon : list (float * float);
  labelY : float;
  marker_label : jsstring;
  marker_class : jsstring
}.

Record Scene := {
  scene_grid : list GridRow;
  scene_curves : list CurveElement;
  scene_axisY : float;
  scene_line : option (list PathStep * jsstring);
  scene_dots : list Circle;
  scene_current : option Circle;
  scene_events : list EventMarker;
  scene_xLabels : option (option jsstring * option jsstring)
}.

Inductive Rendered :=
| EmptyState (className : option jsstring)   (* "기록이 없습니다." *)
| Svg (className : option jsstring) (scene : Scene).

(** [values.map(...).filter(...)]: the visit points with finite
    coordinates. *)
Definition visit_points (values : list float) (xValues : option (list float))
  : list Point :=
  flat_map
    (fun p : option float * float =>
       match fst p with
       | Some px =>
           if Number_isFinite px && Number_isFinite (snd p)
           then [ {| x := px; y := snd p |} ] else []
       | None => []
       end)
    (mapi
       (fun value index =>
          (match xValues with
           | Some xs => nth_error xs index
           | None => Some (Number_of_Z (Z.of_nat index))
           end, value))
       values).

Definition reference_points (referenceCurves : option (list ReferenceCurve))
  : list Point :=
  flat_map points (match referenceCurves with Some cs => cs | None => [] end).

Definition hasHighlight (highlightPoint : option Point) : bool :=
  match highlightPoint with
  | Some p => Number_isFinite (x p) && Number_isFinite (y p)
  | None => false
  end.

Definition hasRenderableData (props : MetricChartProps) : bool :=
  negb (Nat.eqb (length (visit_points (values props) (xValues props))) 0)
  || negb (Nat.eqb (length (reference_points (referenceCurves props))) 0)
  || hasHighlight (highlightPoint props).

Definition finite_values (l : list (option float)) : list float :=
  flat_map (fun v => match v with
                     | Some v => if Number_isFinite v then [v] else []
                     | None => []
                     end) l.

Definition event_list (props : MetricChartProps) : list ChartEvent :=
  match events props with Some es => es | None => [] end.

Definition allX (props : MetricChartProps) : list float :=
  finite_values
    (map (fun p => Some (x p)) (visit_points (values props) (xValues props))
     ++ map (fun p => Some (x p)) (reference_points (referenceCurves props))
     ++ [option_map x (highlightPoint props)]
     ++ map (fun e => Some (event_x e)) (event_list props)).

Definition allY (props : MetricChartProps) : list float :=
  finite_values
    (map (fun p => Some (y p)) (visit_points (values props) (xValues props))
     ++ map (fun p => Some (y p)) (reference_points (referenceCurves props))
     ++ [option_map y (highlightPoint props)]).

(** The x-domain after the widening of an empty interval. *)
Definition xMin (props : MetricChartProps) : float :=
  match xRange props with
  | Some range => range_min range
  | None => Math_min (allX props)
  end.

Definition xMax (props : MetricChartProps) : float :=
  let xMax := match xRange props with
              | Some range => range_max range
              | None => Math_max (allX props)
              end in
  if xMax =? xMin props then xMin props + 1 else xMax.

(** The y-domain: [range], [pad], and the padded [min] and [max]. *)
Definition y_range (props : MetricChartProps) : float :=
  let range := Math_max (allY props) - Math_min (allY props) in
  if range =? 0 then 1 else range.

(** The literal [0.18], i.e. the binary64 value nearest to 18/100. *)
Definition pad_ratio : float := 0x1.70a3d70a3d70ap-3.

Definition pad (props : MetricChartProps) : float := y_range props * pad_ratio.

Definition yMin (props : MetricChartProps) : float :=
  Math_min (allY props) - pad props.

Definition yMax (props : MetricChartProps) : float :=
  Math_max (allY props) + pad props.

Definition plotWidth : float := width - padding_left - padding_right.
Definition plotHeight : float := height - padding_top - padding_bottom.

Definition xFor (props : MetricChartProps) (value : float) : float :=
  padding_left + ((value - xMin props) / (xMax props - xMin props)) * plotWidth.

Definition yFor (props : MetricChartProps) (value : float) : float :=
  padding_top
  + plotHeight * (1 - (value - yMin props) / (yMax props - yMin props)).

Definition grid (props : MetricChartProps) : list GridRow :=
  map (fun index : Z =>
         let value :=
           yMin props + ((yMax props - yMin props) * Number_of_Z index) / 4 in
         {| grid_value := value; grid_y := yFor props value |})
      [0; 1; 2; 3; 4]%Z.

(** A path: "M x y" for the first point, "L x y" for the others. *)
Definition path_of (props : MetricChartProps) (pts : list Point)
  : list PathStep :=
  mapi
    (fun point index =>
       {| command := if Nat.eqb index 0 then M else L;
          step_x := xFor props (x point);
          step_y := yFor props (y point) |})
    pts.

Definition curvePaths (props : MetricChartProps) : list CurvePath :=
  flat_map
    (fun curve =>
       let filtered :=
         filter (fun point =>
                   (xMin props <=? x point) && (x point <=? xMax props)
                   && Number_isFinite (y point))
                (points curve) in
       match filtered with
       | [] => []
       | _ => [ {| curve_key := key curve; d := path_of props filtered |} ]
       end)
    (match referenceCurves props with Some cs => cs | None => [] end).

Definition axisY : float := height - padding_bottom.

(** The class of a reference curve, from its key. *)
Definition curveClass_of (key : jsstring) : jsstring :=
  if jsstring_eqb key (str "50th") then str "chart-percentile major"
  else if jsstring_eqb key (str "3rd") || jsstring_eqb key (str "97th")
  then str "chart-percentile mid"
  else str "chart-percentile".

Definition curve_element (curve : CurvePath) : CurveElement :=
  {| element_key := curve_key curve;
     element_d := d curve;
     curveClass := curveClass_of (curve_key curve) |}.

Definition event_marker (props : MetricChartProps) (event : ChartEvent)
  : EventMarker :=
  let arrowSize := 6 in
  let x := xFor props (event_x event)
           + match offset event with Some o => o | None => 0 end in
  let baseY := axisY - 6 in
  {| marker_x := x;
     polygon :=
       match type event with
       | growth =>
           [ (x, baseY - arrowSize); (x - arrowSize, baseY + arrowSize);
             (x + arrowSize, baseY + arrowSize) ]
       | suppression =>
           [ (x, baseY + arrowSize); (x - arrowSize, baseY - arrowSize);
             (x + arrowSize, baseY - arrowSize) ]
       end;
     labelY := baseY - arrowSize - 6;
     marker_label := label event;
     marker_class :=
       match type event with
       | growth => str "chart-event-growth"
       | suppression => str "chart-event-suppression"
       end |}.

Definition scene_of (props : MetricChartProps) : Scene :=
  let pts := visit_points (values props) (xValues props) in
  {| scene_grid := grid props;
     scene_curves := map curve_element (curvePaths props);
     scene_axisY := axisY;
     scene_line :=
       match pts with
       | [] => None
       | _ => Some (path_of props pts,
                    match metric props with
                    | metric_weight => str "chart-line weight"
                    | metric_height => str "chart-line "
                    end)
       end;
     scene_dots :=
       map (fun point => {| cx := xFor props (x point);
                            cy := yFor props (y point); r := 4 |}) pts;
     scene_current :=
       option_map (fun p => {| cx := xFor props (x p);
                               cy := yFor props (y p);
                               r := 0x1.4cccccccccccdp+2 (* 5.2 *) |})
                  (highlightPoint props);
     scene_events := map (event_marker props) (event_list props);
     scene_xLabels :=
       match xLabelFormatter props with
       | Some format =>
           Some (Some (format (xMin props)), Some (format (xMax props)))
       | None =>
           if Nat.leb 2 (length (labels props))
           then Some (nth_error (labels props) 0,
                      nth_error (labels props) (length (labels props) - 1))
           else None
       end |}.

Definition MetricChart (props : MetricChartProps) : Rendered :=
  if negb (hasRenderableData props) then EmptyState (className props)
  else Svg (className props) (scene_of props).

End Chart.

(* ================================================================== *)
(** ** Binary64 arithmetic on integers: difference, quotient and
       [Math.round] *)
(* ================================================================== *)

(** Numbers are binary64: an operation returns the Number nearest to its
    exact result, a tie going to the even mantissa.  The operations below
    are those that [diffDays] applies to time values, which are integers
    of at most 8.64e15 in magnitude, so exactly representable.  Overflow
    and subnormal Numbers cannot occur there and are left out. *)
Module Binary64.

(** [num / den] rounded to the nearest integer, a tie going to the even
    one, for [0 <= num] and [0 < den]. *)
Definition nearest_even (num den : Z) : Z :=
  let q := num / den in
  let r := num mod den in
  if (den <? 2 * r) || ((2 * r =? den) && Z.odd q) then q + 1 else q.

(** The Number nearest to the integer [z], an integer itself: 53
    significant bits are kept.  This is [x - y] for integer Numbers [x]
    and [y] with [z = x - y]. *)
Definition of_integer (z : Z) : Z :=
  let e := Z.max 0 (Z.log2 (Z.abs z) - 52) in
  Z.sgn z * (nearest_even (Z.abs z) (2 ^ e) * 2 ^ e).

(** A finite Number, [mantissa * 2 ^ exponent]. *)
Record Number := { mantissa : Z; exponent : Z }.

(** [n / d] for an integer Number [n] and an integer Number [d > 0]: the
    quotient with 53 significant bits, [E] being the exponent of its
    leading bit. *)
Definition div (n d : Z) : Number :=
  if n =? 0 then {| mantissa := 0; exponent := 0 |}
  else
    let a := Z.abs n in
    let L := Z.log2 a - Z.log2 d in
    let E := if d * 2 ^ Z.max 0 L <=? a * 2 ^ Z.max 0 (- L) then L else L - 1 in
    let e := E - 52 in
    {| mantissa :=
         Z.sgn n * nearest_even (a * 2 ^ Z.max 0 (- e)) (d * 2 ^ Z.max 0 e);
       exponent := e |}.

(** [Math.round]: the nearest integer, a tie going up. *)
Definition Math_round (x : Number) : Z :=
  if 0 <=? exponent x then mantissa x * 2 ^ exponent x
  else (2 * mantissa x + 2 ^ (- exponent x)) / (2 * 2 ^ (- exponent x)).

End Binary64.

(* ================================================================== *)
(** ** src/app/page.tsx: visits, elapsed days and injection events *)
(* ================================================================== *)

Module Visits.

Record Visit := {
  id : jsstring;
  date : jsstring;
  height : float;
  weight : float;
  bmi : float;
  ageMonths : float;
  growthInjection : bool;
  suppressionInjection : bool
}.

(** [1000 * 60 * 60 * 24] *)
Definition msPerDay : Z := 1000 * 60 * 60 * 24.

(** [diffDays], on the time values [new Date(from).getTime()] and
    [new Date(to).getTime()]: an integer of milliseconds for a valid
    date, NaN ([None]) for an invalid one.  The difference, the quotient
    and [Math.round] are those of binary64; NaN passes through each of
    them and through [Math.max]. *)
Definition diffDays (start finish : option Z) : option Z :=
  match start, finish with
  | Some start, Some finish =>
      Some (Z.max 1
              (Binary64.Math_round
                 (Binary64.div (Binary64.of_integer (finish - start))
                    msPerDay)))
  | _, _ => None
  end.

(** "성장주사" and "억제주사" *)
Definition growth_label : jsstring := [49457; 51109; 51452; 49324]%N.
Definition suppression_label : jsstring := [50613; 51228; 51452; 49324]%N.

Definition set_offset (o : float) (e : Chart.ChartEvent) : Chart.ChartEvent :=
  {| Chart.event_x := Chart.event_x e; Chart.label := Chart.label e;
     Chart.type := Chart.type e; Chart.offset := Some o |}.

(** The callback of [visits.flatMap] in [injectionEvents]. *)
Definition visit_events (visit : Visit) : list Chart.ChartEvent :=
  let events := [] in
  let events :=
    if growthInjection visit
    then events ++ [ {| Chart.event_x := ageMonths visit;
                        Chart.label := growth_label;
                        Chart.type := Chart.growth;
                        Chart.offset := None |} ]
    else events in
  let events :=
    if suppressionInjection visit
    then events ++ [ {| Chart.event_x := ageMonths visit;
                        Chart.label := suppression_label;
                        Chart.type := Chart.suppression;
                        Chart.offset := None |} ]
    else events in
  match events with
  | [e0; e1] => [set_offset (-8)%float e0; set_offset 8%float e1]
  | _ => events
  end.

Definition injectionEvents (visits : list Visit) : list Chart.ChartEvent :=
  flat_map visit_events visits.

End Visits.

(* ================================================================== *)
(** ** src/app/page.tsx: sex key, masking, date input, age labels and
       the visit state *)
(* ================================================================== *)

Module Identifier.

(** [getSexKey]; [None] is the source's [null]. *)
Definition getSexKey (value : jsstring) : option jsstring :=
  let digits := normalizeResidentId value in
  if Nat.ltb (length digits) 7 then None
  else
    let genderCode := slice 6 7 digits in   (* digits[6] *)
    if existsb (jsstring_eqb genderCode) [str "1"; str "3"; str "5"; str "7"]
    then Some (str "1")
    else if existsb (jsstring_eqb genderCode)
                    [str "2"; str "4"; str "6"; str "8"]
    then Some (str "2")
    else None.

(** [maskResidentId] *)
Definition maskResidentId (value : jsstring) : jsstring :=
  let digits := normalizeResidentId value in
  if Nat.ltb (length digits) 7 then value
  else slice 0 6 digits ++ str "-" ++ slice 6 7 digits ++ str "******".

End Identifier.

Module DateInput.

(** [s.split(sep)] for a separator of one code unit. *)
Fixpoint split_on (sep : code_unit) (s current : jsstring) : list jsstring :=
  match s with
  | [] => [rev current]
  | c :: rest =>
      if (c =? sep)%N then rev current :: split_on sep rest []
      else split_on sep rest (c :: current)
  end.

(** A Date object: its time value is NaN (an invalid date) or a day. *)
Inductive DateObject :=
| InvalidDate
| ValidDate (t : Date).

(** The year of [new Date(year, month, date)]: 0..99 stand for
    1900..1999. *)
Definition MakeFullYear (year : Z) : Z :=
  if (0 <=? year) && (year <=? 99) then 1900 + year else year.

(** [new Date(year, month, date)] on integers; the time value is clipped
    at 100,000,000 days from the epoch (the zone offset, which is under a
    day, is left out of the bound). *)
Definition Date_of_fields (year month date : Z) : DateObject :=
  let day := MakeDay (MakeFullYear year) month date in
  if Z.abs day <=? 100000000 then ValidDate day else InvalidDate.

(** The numbers of [value.split("-").map((part) => Number.parseInt(part,
    10))]; [None] is [undefined] or NaN. *)
Definition date_field (value : jsstring) (i : nat) : option Z :=
  match nth_error (map parseInt (split_on 45%N value [])) i with
  | Some n => n
  | None => None
  end.

(** [parseDateInput]; [None] is the source's [null].  A number is falsy
    when it is NaN or zero. *)
Definition parseDateInput (value : jsstring) : option DateObject :=
  if Nat.eqb (length value) 0 then None
  else
    let year := date_field value 0 in
    let month := date_field value 1 in
    let day := date_field value 2 in
    match year, month, day with
    | Some year, Some month, Some day =>
        if (year =? 0) || (month =? 0) || (day =? 0) then None
        else Some (Date_of_fields year (month - 1) day)
    | _, _, _ => None
    end.

End DateInput.

Module Labels.

(** [String(n)] for an integer [n] (below 10^21 in magnitude): its
    decimal digits, with a minus sign for a negative number. *)
Definition String_of_integer (n : Z) : jsstring :=
  str (NilZero.string_of_int (Z.to_int n)).

(** "개월" and "년" *)
Definition months_suffix : jsstring := [44060; 50900]%N.
Definition years_suffix : jsstring := [45380]%N.

(** [formatAge] on a whole number of months: [Math.floor(ageMonths / 12)]
    and [ageMonths % 12] are taken on integers. *)
Definition formatAge (ageMonths : Z) : jsstring :=
  if ageMonths <? 24 then String_of_integer ageMonths ++ months_suffix
  else
    let years := ageMonths / 12 in
    let months := Z.rem ageMonths 12 in
    if months =? 0 then String_of_integer years ++ years_suffix
    else String_of_integer years ++ years_suffix ++ str " "
         ++ String_of_integer months ++ months_suffix.

End Labels.

Module VisitState.

Import Visits.

(** [array.sort(compareFn)]: the sort is stable; insertion from the right
    gives the stable order for a consistent comparator. *)
Fixpoint sort_insert {A} (compareFn : A -> A -> Z) (v : A) (sorted : list A)
  : list A :=
  match sorted with
  | [] => [v]
  | w :: r =>
      if compareFn v w <=? 0 then v :: w :: r
      else w :: sort_insert compareFn v r
  end.

Definition Array_sort {A} (compareFn : A -> A -> Z) (l : list A) : list A :=
  fold_right (sort_insert compareFn) [] l.

(** The state that [setVisitStateFromRows] sets: [visits],
    [currentVisit] and [previousVisit]. *)
Record VisitView := {
  view_visits : list Visit;
  currentVisit : option Visit;
  previousVisit : option Visit
}.

Section Times.

(** [new Date(s).getTime()]; [None] is NaN, for a text that is no date. *)
Variable getTime : jsstring -> option Z.

(** [(a, b) => new Date(a.date).getTime() - new Date(b.date).getTime()],
    as the sort reads it: NaN counts as +0. *)
Definition by_date (a b : Visit) : Z :=
  match getTime (date a), getTime (date b) with
  | Some ta, Some tb => ta - tb
  | _, _ => 0
  end.

Definition by_date_descending (a b : Visit) : Z := by_date b a.

(** [setVisitStateFromRows], from the visits that [mapVisitRows] returns;
    an absent or empty [focusId] is falsy. *)
Definition setVisitStateFromRows (mappedVisits : list Visit)
    (focusId : option jsstring) : VisitView :=
  match mappedVisits with
  | [] => {| view_visits := []; currentVisit := None; previousVisit := None |}
  | _ =>
      let sorted := Array_sort by_date mappedVisits in
      let last := (length sorted - 1)%nat in
      let index :=
        match focusId with
        | Some ((_ :: _) as focusId) =>
            match findIndex (fun visit => jsstring_eqb (id visit) focusId)
                            sorted with
            | Some i => i
            | None => last
            end
        | _ => last
        end in
      {| view_visits := sorted;
         currentVisit := nth_error sorted index;
         previousVisit :=
           if Nat.ltb 0 index then nth_error sorted (index - 1) else None |}
  end.

(** [historyVisits]: the five latest visits, the latest first. *)
Definition historyVisits (visits : list Visit) : list Visit :=
  firstn 5 (Array_sort by_date_descending visits).

End Times.

End VisitState.

(* ================================================================== *)
(** ** src/unnamed/part_002 (route of /api/growth-table): the request
       handler and its cache *)
(* ================================================================== *)

Module Route.

Import GrowthTable.

(** [FILES] *)
Definition FILES : list (jsstring * jsstring) :=
  [ (str "height", str "korea-growth-table_height.csv");
    (str "weight", str "korea-growth-table_weight.csv") ].

Record GrowthTableResponse := {
  metric : jsstring;
  response_percentiles : list jsstring;
  response_bySex : list (jsstring * GrowthCurve)
}.

(** [NextResponse.json(body, { status })] *)
Inductive Body :=
| Error_body (error : jsstring)
| Table_body (table : GrowthTableResponse).

Record Response := { status : Z; body : Body }.

(** The module: the pattern object and [cache], a [Map] that is empty
    when the module is loaded. *)
Record ServerState := {
  pattern : ModuleState;
  cache : list (jsstring * GrowthTableResponse)
}.

Definition loaded : ServerState :=
  {| pattern := {| percentilePattern_lastIndex := 0 |}; cache := [] |}.

(** [GET] is asynchronous: it runs up to [await fs.readFile(...)], and
    resumes when the read has settled; other requests run in between. *)
Inductive Started :=
| Responded (response : Response)
| Reading (metric file : jsstring)
| Thrown.

Inductive Settled :=
| Fulfilled (response : Response)
| Rejected.

(** The handler up to the [await]; [metric] is
    [searchParams.get("metric")], [None] for [null], and the file is
    named relative to [process.cwd()].  The module is not written
    here. *)
Definition GET_start (metric : option jsstring) (st : ServerState) : Started :=
  match metric with
  | Some metric =>
      if negb (jsstring_eqb metric (str "height"))
         && negb (jsstring_eqb metric (str "weight"))
      then Responded {| status := 400;
                        body := Error_body (str "Invalid metric") |}
      else
        match get metric (cache st) with
        | Some cached =>
            Responded {| status := 200; body := Table_body cached |}
        | None =>
            match get metric FILES with
            | Some file => Reading metric file
            | None => Thrown
            end
        end
  | None => Responded {| status := 400;
                         body := Error_body (str "Invalid metric") |}
  end.

Section Handler.

Variable Number_toString : float -> jsstring.
Variable Number_parseFloat : option jsstring -> float.

(** The handler after the [await]; [content] is [None] when the read
    failed. *)
Definition GET_resume (metric : jsstring) (content : option jsstring)
    (st : ServerState) : Settled * ServerState :=
  match content with
  | Some content =>
      let (parsed, pattern') :=
        parseGrowthCsv Number_toString Number_parseFloat content (pattern st) in
      match parsed with
      | Ok parsed =>
          let response :=
            {| metric := metric;
               response_percentiles := table_percentiles parsed;
               response_bySex := bySex parsed |} in
          (Fulfilled {| status := 200; body := Table_body response |},
           {| pattern := pattern'; cache := set metric response (cache st) |})
      | Throw_TypeError =>
          (Rejected, {| pattern := pattern'; cache := cache st |})
      end
  | None => (Rejected, st)
  end.

End Handler.

End Route.

(* ================================================================== *)
(** ** src/app/page.tsx: the reference curves of the charts *)
(* ================================================================== *)

Module Curves.

Import GrowthTable.

(** [table.ages.map((age, index) => ({ x: age, y:
    table.percentiles[key]?.[index] })).filter((point) =>
    Number.isFinite(point.y))]; a [null] that the response carries in
    place of NaN is not finite either. *)
Definition curve_points (table : GrowthCurve) (key : jsstring)
  : list Chart.Point :=
  flat_map
    (fun point : float * option float =>
       match snd point with
       | Some y =>
           if Number_isFinite y
           then [ {| Chart.x := fst point; Chart.y := y |} ] else []
       | None => []
       end)
    (mapi
       (fun age index =>
          (age,
           match get key (percentiles table) with
           | Some values => nth_error values index
           | None => None
           end))
       (ages table)).

(** The body shared by [heightCurves] and [weightCurves]; a missing
    table, and a missing or empty [sexKey], are falsy. *)
Definition referenceCurves (table : option Route.GrowthTableResponse)
    (sexKey : option jsstring) : list Chart.ReferenceCurve :=
  match table, sexKey with
  | Some growthTable, Some ((_ :: _) as sexKey) =>
      match get sexKey (Route.response_bySex growthTable) with
      | Some table =>
          map (fun key => {| Chart.key := key;
                             Chart.points := curve_points table key |})
              (Route.response_percentiles growthTable)
      | None => []
      end
  | _, _ => []
  end.

Definition heightCurves (heightTable : option Route.GrowthTableResponse)
    (sexKey : option jsstring) : list Chart.ReferenceCurve :=
  referenceCurves heightTable sexKey.

Definition weightCurves (weightTable : option Route.GrowthTableResponse)
    (sexKey : option jsstring) : list Chart.ReferenceCurve :=
  referenceCurves weightTable sexKey.

End Curves.

(* ================================================================== *)
(** * Vocabulary of the properties *)
(* ================================================================== *)

Module ResidentIdSpec.

(** The fields of an identifier, read off its digits. *)
Definition digit_at (digits : jsstring) (i : nat) : Z :=
  Z.of_N (digit_value (nth i digits 48%N)).

Definition two_digits (digits : jsstring) (i : nat) : Z :=
  10 * digit_at digits i + digit_at digits (S i).

Definition YY (digits : jsstring) : Z := two_digits digits 0.
Definition MM (digits : jsstring) : Z := two_digits digits 2.
Definition DD (digits : jsstring) : Z := two_digits digits 4.
Definition code (digits : jsstring) : Z := digit_at digits 6.

(** Century lookup: codes 1, 2, 5, 6 give 1900; 3, 4, 7, 8 give 2000. *)
Definition century_of (code : Z) : option Z :=
  if (code =? 1) || (code =? 2) || (code =? 5) || (code =? 6) then Some 1900
  else if (code =? 3) || (code =? 4) || (code =? 7) || (code =? 8) then Some 2000
  else None.

(** Age in completed months of a person born on [year]-[mm]-[dd]. *)
Definition age_in_months (year mm dd : Z) (ref : Date) : Z :=
  (getFullYear ref - year) * 12 + (getMonth ref + 1 - mm)
  - (if getDate ref <? dd then 1 else 0).

Definition real_dateb (y m d : Z) : bool :=
  (1 <=? m) && (m <=? 12) && (1 <=? d) && (d <=? days_in_month y m).

(** Days of month [m] (1..12) for leap flag [L]. *)
Definition month_length (L m : Z) : Z :=
  if m =? 2 then 28 + L
  else if (m =? 4) || (m =? 6) || (m =? 9) || (m =? 11) then 30
  else 31.

Definition range (lo : Z) (n : nat) : list Z :=
  map (fun i => lo + Z.of_nat i) (seq 0 n).

(** Within one year: day [d] of month [m] stays inside the year, and
    reads back as ([m], [d]) exactly when the month has that many days. *)
Definition yearday_check (L m d : Z) : bool :=
  let w := month_start L (m - 1) + d - 1 in
  (0 <=? w) && (w <? 365 + L)
  && Bool.eqb ((month_of_yearday L w =? m - 1)
               && (w - month_start L (month_of_yearday L w) + 1 =? d))
              (d <=? month_length L m).

End ResidentIdSpec.

Module VisitsSpec.

Import Visits.

(** [r] is [n / d] rounded to the nearest integer, a tie going up:
    [r - 1/2 <= n / d < r + 1/2]. *)
Definition nearest_integer (n d r : Z) : Prop :=
  (2 * r - 1) * d <= 2 * n < (2 * r + 1) * d.

(** The exact quotient [n / d] rounded to the nearest integer, a tie
    going up. *)
Definition round_half_up (n d : Z) : Z := (2 * n + d) / (2 * d).

(** [r] is the Number [x] rounded to the nearest integer, a tie going
    up. *)
Definition rounds_to (x : Binary64.Number) (r : Z) : Prop :=
  if 0 <=? Binary64.exponent x
  then r = Binary64.mantissa x * 2 ^ Binary64.exponent x
  else nearest_integer (Binary64.mantissa x) (2 ^ (- Binary64.exponent x)) r.

(** Two time values fall on the same calendar day of a zone that is
    [offset] milliseconds ahead of UTC; a day has 86,400,000
    milliseconds. *)
Definition same_calendar_day (offset t1 t2 : Z) : Prop :=
  (t1 + offset) / 86400000 = (t2 + offset) / 86400000.

(** The binary64 value of a Number of the model, for comparison with the
    primitive floats. *)
Definition to_float (x : Binary64.Number) : float :=
  SF2Prim (binary_normalize prec emax (Binary64.mantissa x)
             (Binary64.exponent x) false).

(** The difference [n] and its quotient by the length of a day are the
    same Numbers in the model and in the primitive floats. *)
Definition agrees_with_floats (n : Z) : bool :=
  ((Number_of_Z (Binary64.of_integer n) =? Number_of_Z n)
   && (to_float (Binary64.div (Binary64.of_integer n) 86400000)
       =? Number_of_Z n / 86400000))%float.

(** Sample differences in milliseconds: the first few integers, the
    neighbours of the half days [(2 k + 1) * 43200000] for [k] spread up
    to 4e8, on either side of zero, and a stride that passes 2^53 and the
    greatest difference of two time values. *)
Definition sample_differences : list Z :=
  flat_map
    (fun k : Z =>
       let half := (2 * (k * 1048583) + 1) * 43200000 in
       [k; half - 1; half; half + 1; - half; - half - 1;
        k * 43200000 * 1000003 + 17])
    (map Z.of_nat (seq 0 400)).

(** The markers of one visit, from its two flags: the growth marker and
    the suppression marker, 8 units to the left and to the right when
    the visit has both. *)
Definition marker_of (visit : Visit) (type : Chart.EventType)
    (offset : option float) : Chart.ChartEvent :=
  {| Chart.event_x := ageMonths visit;
     Chart.label := match type with
                    | Chart.growth => growth_label
                    | Chart.suppression => suppression_label
                    end;
     Chart.type := type;
     Chart.offset := offset |}.

Definition markers_of_visit (visit : Visit) : list Chart.ChartEvent :=
  match growthInjection visit, suppressionInjection visit with
  | true, true => [ marker_of visit Chart.growth (Some (-8)%float);
                    marker_of visit Chart.suppression (Some 8%float) ]
  | true, false => [ marker_of visit Chart.growth None ]
  | false, true => [ marker_of visit Chart.suppression None ]
  | false, false => []
  end.

(** The offset that a marker of [visit] carries. *)
Definition offset_in_visit (visit : Visit) (e : Chart.ChartEvent)
  : option float :=
  if growthInjection visit && suppressionInjection visit
  then Some (match Chart.type e with
             | Chart.growth => (-8)%float
             | Chart.suppression => 8%float
             end)
  else None.

Definition effective_offset (e : Chart.ChartEvent) : float :=
  match Chart.offset e with Some o => o | None => 0%float end.

(** One marker is moved left and the other right by the same amount. *)
Definition deconflicted (e1 e2 : Chart.ChartEvent) : Prop :=
  let o1 := effective_offset e1 in
  let o2 := effective_offset e2 in
  (((o1 <? 0) && (0 <? o2)) || ((o2 <? 0) && (0 <? o1)))%float = true
  /\ abs o1 = abs o2.

(** The markers of [events] drawn at [x]. *)
Definition markers_at (x : float) (events : list Chart.ChartEvent)
  : list Chart.ChartEvent :=
  filter (fun e => (Chart.event_x e =? x)%float) events.

(** The statement as the specification words it: whenever exactly two
    markers share an x, they are de-conflicted. *)
Definition shared_x_always_deconflicted : Prop :=
  forall visits x e1 e2,
    markers_at x (injectionEvents visits) = [e1; e2] -> deconflicted e1 e2.

Definition visit_at (age : float) (growth suppression : bool) : Visit :=
  {| id := []; date := []; height := 100; weight := 20; bmi := 20;
     ageMonths := age; growthInjection := growth;
     suppressionInjection := suppression |}.

End VisitsSpec.

Module FloatSpec.

Local Open Scope float_scope.

Inductive SF_finite : spec_float -> Prop :=
| SF_finite_zero s : SF_finite (S754_zero s)
| SF_finite_num s m e : SF_finite (S754_finite s m e).

Definition all_finite (l : list float) : Prop :=
  Forall (fun v => is_finite v = true) l.

End FloatSpec.

Module ChartSpec.

Import Chart.

Local Open Scope float_scope.

Definition no_props : MetricChartProps :=
  {| metric := metric_height; values := []; labels := []; xValues := None;
     xRange := None; referenceCurves := None; highlightPoint := None;
     events := None; xLabelFormatter := None; className := None |}.

Definition with_events (props : MetricChartProps) (es : list ChartEvent)
  : MetricChartProps :=
  {| metric := metric props; values := values props; labels := labels props;
     xValues := xValues props; xRange := xRange props;
     referenceCurves := referenceCurves props;
     highlightPoint := highlightPoint props; events := Some es;
     xLabelFormatter := xLabelFormatter props; className := className props |}.

Definition one_visit (age value : float) : MetricChartProps :=
  {| metric := metric_height; values := [value]; labels := [];
     xValues := Some [age]; xRange := None; referenceCurves := None;
     highlightPoint := None; events := None; xLabelFormatter := None;
     className := None |}.

(** 18% of a range of 1: the Number 18 / 100. *)
Definition eighteen_percent : float := 18 / 100.

Definition marker (x : float) : ChartEvent :=
  {| event_x := x; label := Visits.growth_label; type := growth;
     offset := None |}.

Definition median_curve : ReferenceCurve :=
  {| key := str "50th"; points := [ {| x := 12; y := 75 |} ] |}.

Definition one_curve : MetricChartProps :=
  {| metric := metric_height; values := []; labels := []; xValues := None;
     xRange := None; referenceCurves := Some [median_curve];
     highlightPoint := None; events := None; xLabelFormatter := None;
     className := None |}.

End ChartSpec.

Module GrowthTableSpec.

Import GrowthTable.

(** The number of percentile columns that carry [label]. *)
Definition occurrences (label : jsstring) (names : list jsstring) : nat :=
  length (filter (jsstring_eqb label) names).

(** Every label has an array, whose length is [n] times the number of
    columns with that label. *)
Definition arrays_ok (names : list jsstring) (n : nat)
    (pcts : list (jsstring * list float)) : Prop :=
  forall label, In label names ->
    exists values, get label pcts = Some values
                   /\ length values = (occurrences label names * n)%nat.

Definition curve_ok (names : list jsstring) (curve : GrowthCurve) : Prop :=
  arrays_ok names (length (ages curve)) (percentiles curve).

Definition map_ok (names : list jsstring)
    (bySex : list (jsstring * GrowthCurve)) : Prop :=
  forall key curve, In (key, curve) bySex -> curve_ok names curve.

(** The tables the parser can return. *)
Definition table_ok (table : GrowthTable) : Prop :=
  forall key curve, get key (bySex table) = Some curve ->
                    curve_ok (table_percentiles table) curve.

(** The statement as the specification words it: every stored array is as
    long as the age array. *)
Definition arrays_always_parallel : Prop :=
  forall (Number_toString : float -> jsstring)
         (Number_parseFloat : option jsstring -> float)
         content st table key curve label values,
    fst (parseGrowthCsv Number_toString Number_parseFloat content st)
    = Ok table ->
    get key (bySex table) = Some curve ->
    In label (table_percentiles table) ->
    get label (percentiles curve) = Some values ->
    length values = length (ages curve).

Definition sample_curve_1 : GrowthCurve :=
  {| ages := [0; 1]%float;
     percentiles := [ (str "3rd", [46; 50]%float);
                      (str "50th", [50; 54]%float) ] |}.

End GrowthTableSpec.

Module DateSpec.

Import ResidentIdSpec.

(** One line of the table of months: month [m + 1] starts where month
    [m] ends, and has at least one day. *)
Definition month_table_check (L m : Z) : bool :=
  (month_start L (m + 1) =? month_start L m + month_length L (m + 1))
  && (1 <=? month_length L (m + 1)).

(** Day [w] of a year lies within its month. *)
Definition yearday_month_check (L w : Z) : bool :=
  (365 + L <=? w)
  || let m := month_of_yearday L w in
     (0 <=? m) && (m <=? 11) && (month_start L m <=? w)
     && (w <? month_start L (m + 1)).

(** The text "YYYY-MM-DD" of a date input. *)
Definition date_text (y1 y2 y3 y4 m1 m2 d1 d2 : code_unit) : jsstring :=
  [y1; y2; y3; y4; 45; m1; m2; 45; d1; d2]%N.

Definition dv (c : code_unit) : Z := Z.of_N (digit_value c).

End DateSpec.

Module VisitStateSpec.

Import Visits.

Section Times.

Variable getTime : jsstring -> option Z.

Definition time_of (v : Visit) : Z :=
  match getTime (date v) with Some t => t | None => 0 end.

Definition valid_dates (l : list Visit) : Prop :=
  forall v, In v l -> getTime (date v) <> None.

End Times.

(** Three visits and the time values of their dates. *)
Definition visit_on (id date : jsstring) : Visit :=
  {| id := id; date := date; height := 100; weight := 16; bmi := 16;
     ageMonths := 48; growthInjection := false;
     suppressionInjection := false |}.

Definition january : Visit :=
  visit_on (str "a") (str "2024-01-01T03:00:00.000Z").
Definition march : Visit :=
  visit_on (str "b") (str "2024-03-01T03:00:00.000Z").
Definition march_later : Visit :=
  visit_on (str "c") (str "2024-03-02T05:00:00.000Z").

Definition sample_getTime (s : jsstring) : option Z :=
  if jsstring_eqb s (date january) then Some 1704078000000
  else if jsstring_eqb s (date march) then Some 1709262000000
  else if jsstring_eqb s (date march_later) then Some 1709355600000
  else None.

End VisitStateSpec.

Module CsvSpec.

(** [cells.join(",")] *)
Fixpoint join_commas (cells : list jsstring) : jsstring :=
  match cells with
  | [] => []
  | [cell] => cell
  | cell :: rest => cell ++ 44%N :: join_commas rest
  end.

(** A field with no quotation mark and no comma. *)
Definition plain (field : jsstring) : Prop :=
  forall c, In c field -> c <> 34%N /\ c <> 44%N.

(** The field between quotation marks, its own quotation marks doubled. *)
Definition doubled (field : jsstring) : jsstring :=
  flat_map (fun c => if (c =? 34)%N then [34; 34]%N else [c]) field.

Definition quoted (field : jsstring) : jsstring :=
  34%N :: doubled field ++ [34%N].

(** A cell that writes a field: the field itself when it is plain, or the
    field quoted. *)
Definition writes (field cell : jsstring) : Prop :=
  cell = quoted field \/ (plain field /\ cell = field).

End CsvSpec.

Module NumbersSpec.

Import GrowthTable.

Definition finite_or_NaN (v : float) : Prop :=
  is_finite v = true \/ is_nan v = true.

Section Keys.

Variable Number_toString : float -> jsstring.

(** What the parser stores under one sex. *)
Definition curve_numbers_ok (key : jsstring) (curve : GrowthCurve) : Prop :=
  (exists sexValue, is_finite sexValue = true /\ key = Number_toString sexValue)
  /\ ages curve <> []
  /\ Forall (fun age => is_finite age = true) (ages curve)
  /\ forall label values,
       In (label, values) (percentiles curve) -> Forall finite_or_NaN values.

End Keys.

End NumbersSpec.

Module RouteSpec.

Import GrowthTable Route.

(** What happens to the module, in order: a request runs up to its
    [await], or the read of an earlier request settles and that request
    runs to its end. *)
Inductive Event :=
| Request (metric : option jsstring)
| ReadSettled (metric : jsstring) (content : option jsstring).

Definition ok (table : GrowthTableResponse) : Response :=
  {| status := 200; body := Table_body table |}.

Definition invalid_metric : Response :=
  {| status := 400; body := Error_body (str "Invalid metric") |}.

Definition valid_metric (metric : jsstring) : Prop :=
  metric = str "height" \/ metric = str "weight".

(** The text of the latest read of [metric]'s file that succeeded. *)
Fixpoint latest_read (metric : jsstring) (events : list Event)
    (earlier : option jsstring) : option jsstring :=
  match events with
  | [] => earlier
  | ReadSettled metric' (Some content) :: rest =>
      latest_read metric rest
        (if jsstring_eqb metric metric' then Some content else earlier)
  | _ :: rest => latest_read metric rest earlier
  end.

Section Handler.

Variable Number_toString : float -> jsstring.
Variable Number_parseFloat : option jsstring -> float.

Definition step (st : ServerState) (event : Event) : ServerState :=
  match event with
  | Request _ => st
  | ReadSettled metric content =>
      snd (GET_resume Number_toString Number_parseFloat metric content st)
  end.

(** The module after the events, from its load. *)
Definition run (events : list Event) : ServerState :=
  fold_left step events loaded.

Definition table_of (content : jsstring) : GrowthTable :=
  match fst (parseGrowthCsv Number_toString Number_parseFloat content
               (pattern loaded)) with
  | Ok table => table
  | Throw_TypeError => empty_table
  end.

Definition table_response (metric content : jsstring) : GrowthTableResponse :=
  {| metric := metric;
     response_percentiles := table_percentiles (table_of content);
     response_bySex := bySex (table_of content) |}.

End Handler.

End RouteSpec.

Module CurvesSpec.

Import GrowthTable.

(** The rows of one sex under one label: the ages paired with the values
    of the label, as far as both arrays go. *)
Definition rows_of (table : GrowthCurve) (key : jsstring)
  : list (float * float) :=
  match get key (percentiles table) with
  | Some values => combine (ages table) values
  | None => []
  end.

Definition point_of (row : float * float) : Chart.Point :=
  {| Chart.x := fst row; Chart.y := snd row |}.

End CurvesSpec.

Module PathSpec.

Import Chart.

Local Open Scope float_scope.

Definition step_to (command : PathCommand) (props : MetricChartProps)
    (point : Point) : PathStep :=
  {| command := command;
     step_x := xFor props (x point);
     step_y := yFor props (y point) |}.

(** A polyline through the points: a move to the first, a line to each
    of the others. *)
Definition polyline (props : MetricChartProps) (pts : list Point)
  : list PathStep :=
  match pts with
  | [] => []
  | first :: others => step_to M props first :: map (step_to L props) others
  end.

(** The points of a reference curve that are drawn. *)
Definition in_window (props : MetricChartProps) (point : Point) : bool :=
  (xMin props <=? x point) && (x point <=? xMax props)
  && is_finite (y point).

Definition reference_curves (props : MetricChartProps) : list ReferenceCurve :=
  match referenceCurves props with Some curves => curves | None => [] end.

(** The visit at [index]. *)
Definition visit_at_index (values : list float) (xValues : option (list float))
    (index : nat) (point : Point) : Prop :=
  nth_error values index = Some (y point)
  /\ match xValues with
     | Some xs => nth_error xs index = Some (x point)
     | None => x point = Number_of_Z (Z.of_nat index)
     end.

(** Three visits, the second without a value, over two reference
    curves. *)
Definition median_points : list Point :=
  [ {| x := 24; y := 11 |}; {| x := 30; y := 13 |}; {| x := 36; y := 15 |} ].

Definition two_curves : list ReferenceCurve :=
  [ {| key := str "50th"; points := median_points |};
    {| key := str "97th"; points := [ {| x := 48; y := 19 |} ] |} ].

Definition three_visits : MetricChartProps :=
  {| metric := metric_weight; values := [12; nan; 14]; labels := [];
     xValues := Some [30; 31; 36]; xRange := None;
     referenceCurves := Some two_curves;
     highlightPoint := None; events := None; xLabelFormatter := None;
     className := None |}.

End PathSpec.

(* ================================================================== *)
(** * Properties *)
(* ================================================================== *)

Module JSFacts.

Lemma jsstring_eqb_eq a b : jsstring_eqb a b = true <-> a = b.
Proof.
  unfold jsstring_eqb. destruct (list_eq_dec N.eq_dec a b); split; congruence.
Qed.

Example trim_spaces : trim (str "  ab c ") = str "ab c".
Proof. reflexivity. Qed.

Example trim_byte_order_mark : trim ([65279; 97; 160]%N) = str "a".
Proof. reflexivity. Qed.

Example parseInt_signed : parseInt (str "  -42px") = Some (-42).
Proof. reflexivity. Qed.

Example parseInt_leading_zero : parseInt (str "09") = Some 9.
Proof. reflexivity. Qed.

Example parseInt_no_digits : parseInt (str "px") = None.
Proof. reflexivity. Qed.

Example Math_min_signed_zero :
  (is_neg_zero (Math_min [0; -0]%float), is_pos_zero (Math_max [-0; 0]%float))
  = (true, true).
Proof. reflexivity. Qed.

Example Math_min_empty : (Math_min [], Math_max []) = (infinity, neg_infinity).
Proof. reflexivity. Qed.

Example Number_of_Z_rounds : Number_of_Z 9007199254740993 = 9007199254740992%float.
Proof. reflexivity. Qed.

End JSFacts.

Import JSFacts.

(** ** Resident identifier *)

Module ResidentIdProofs.

Import ResidentIdSpec.

Lemma real_dateb_spec y m d : real_dateb y m d = true <-> real_date y m d.
Proof. unfold real_dateb, real_date. rewrite !andb_true_iff, !Z.leb_le. tauto. Qed.

(** *** Digits *)

Lemma isDigit_cases c :
  isDigit c = true -> In c [48; 49; 50; 51; 52; 53; 54; 55; 56; 57]%N.
Proof.
  unfold isDigit. rewrite andb_true_iff, !N.leb_le. intros [Hlo Hhi].
  simpl. lia.
Qed.

Lemma normalize_all_digits value :
  Forall (fun c => isDigit c = true) (normalizeResidentId value).
Proof.
  unfold normalizeResidentId. apply Forall_forall. intros c Hc.
  apply filter_In in Hc. tauto.
Qed.

Lemma digit_not_space_or_sign c :
  isDigit c = true ->
  isWhiteSpace c = false /\ ((c =? 43) || (c =? 45))%N = false
  /\ (c =? 45)%N = false.
Proof.
  intros Hc. apply isDigit_cases in Hc. simpl in Hc.
  repeat (destruct Hc as [<- | Hc]; [repeat split; reflexivity |]).
  contradiction.
Qed.

Lemma parseInt_pair a b :
  isDigit a = true -> isDigit b = true ->
  parseInt [a; b] = Some (10 * Z.of_N (digit_value a) + Z.of_N (digit_value b)).
Proof.
  intros Ha Hb.
  destruct (digit_not_space_or_sign a Ha) as (Hs & Hsign & Hneg).
  unfold parseInt, parseInt_lit. cbn [trimStart]. rewrite Hs, Hsign, Hneg.
  cbn [digits_prefix]. rewrite Ha, Hb. cbn [option_map int_value fst snd].
  f_equal. lia.
Qed.

Lemma digit_value_range c : isDigit c = true -> 0 <= Z.of_N (digit_value c) <= 9.
Proof.
  unfold isDigit, digit_value. rewrite andb_true_iff, !N.leb_le. lia.
Qed.

Lemma lookup_century c :
  isDigit c = true ->
  lookup [c] centuryMap = century_of (Z.of_N (digit_value c)).
Proof.
  intros Hc. apply isDigit_cases in Hc. simpl in Hc.
  repeat (destruct Hc as [<- | Hc]; [reflexivity |]). contradiction.
Qed.

(** *** The calendar: a constructed date reads back as its inputs exactly
    when the inputs are a real date. *)

Lemma DayFromYear_step y : DayFromYear (y + 1) = DayFromYear y + DaysInYear y.
Proof.
  unfold DayFromYear, DaysInYear.
  destruct (Z.eqb_spec (y mod 4) 0); destruct (Z.eqb_spec (y mod 100) 0);
    destruct (Z.eqb_spec (y mod 400) 0); cbn [negb];
    Z.div_mod_to_equations; lia.
Qed.

Lemma DayFromYear_lt y1 y2 : y1 < y2 -> DayFromYear y1 < DayFromYear y2.
Proof. unfold DayFromYear. intros. Z.div_mod_to_equations. lia. Qed.

(** [YearFromDay d] is the year whose days contain [d]. *)
Lemma YearFromDay_spec d :
  DayFromYear (YearFromDay d) <= d < DayFromYear (YearFromDay d + 1).
Proof.
  unfold YearFromDay.
  set (y := 1970 + 400 * d / 146097).
  assert (Hlo : DayFromYear (y - 1) <= d).
  { unfold DayFromYear, y. Z.div_mod_to_equations. lia. }
  assert (Hhi : d < DayFromYear (y + 2)).
  { unfold DayFromYear, y. Z.div_mod_to_equations. lia. }
  destruct (Z.leb_spec (DayFromYear (y + 1)) d).
  - replace (y + 1 + 1) with (y + 2) by lia. lia.
  - destruct (Z.leb_spec (DayFromYear y) d).
    + lia.
    + replace (y - 1 + 1) with y by lia. lia.
Qed.

Lemma YearFromDay_unique y d :
  DayFromYear y <= d < DayFromYear (y + 1) -> YearFromDay d = y.
Proof.
  intros H. pose proof (YearFromDay_spec d) as S.
  destruct (Z.lt_trichotomy (YearFromDay d) y) as [Hlt | [Heq | Hgt]];
    [| exact Heq |].
  - assert (DayFromYear (YearFromDay d + 1) <= DayFromYear y).
    { destruct (Z.eq_dec (YearFromDay d + 1) y) as [-> | Hne]; [lia |].
      apply Z.lt_le_incl, DayFromYear_lt. lia. }
    lia.
  - assert (DayFromYear (y + 1) <= DayFromYear (YearFromDay d)).
    { destruct (Z.eq_dec (y + 1) (YearFromDay d)) as [-> | Hne]; [lia |].
      apply Z.lt_le_incl, DayFromYear_lt. lia. }
    lia.
Qed.

Lemma leap_flag y : InLeapYear_of_year y = if is_leap y then 1 else 0.
Proof.
  unfold InLeapYear_of_year, DaysInYear, is_leap.
  destruct (Z.eqb_spec (y mod 4) 0); destruct (Z.eqb_spec (y mod 100) 0);
    destruct (Z.eqb_spec (y mod 400) 0); cbn; try reflexivity;
    exfalso; Z.div_mod_to_equations; lia.
Qed.

Lemma DaysInYear_leap y : DaysInYear y = 365 + InLeapYear_of_year y.
Proof.
  unfold InLeapYear_of_year, DaysInYear.
  destruct (y mod 4 =? 0), (y mod 100 =? 0), (y mod 400 =? 0); reflexivity.
Qed.

Lemma in_range lo n z : lo <= z < lo + Z.of_nat n -> In z (range lo n).
Proof.
  intros Hz. unfold range. apply in_map_iff.
  exists (Z.to_nat (z - lo)). split; [lia |]. apply in_seq. lia.
Qed.

Lemma forallb_range (P : Z -> bool) lo n z :
  forallb P (range lo n) = true -> lo <= z < lo + Z.of_nat n -> P z = true.
Proof.
  intros H Hz. rewrite forallb_forall in H. apply H. apply in_range. exact Hz.
Qed.

Lemma yearday_table :
  forallb (fun L =>
    forallb (fun m => forallb (fun d => yearday_check L m d) (range 1 31))
            (range 1 12))
          (range 0 2) = true.
Proof. vm_compute. reflexivity. Qed.

Lemma readback_real_date y m d :
  1 <= m <= 12 -> 1 <= d <= 31 ->
  (getFullYear (newDate y (m - 1) d) =? y)
  && (getMonth (newDate y (m - 1) d) =? m - 1)
  && (getDate (newDate y (m - 1) d) =? d)
  = (d <=? days_in_month y m).
Proof.
  intros Hm Hd.
  set (L := InLeapYear_of_year y).
  assert (BL : 0 <= L < 0 + Z.of_nat 2)
    by (unfold L; rewrite leap_flag; destruct (is_leap y); lia).
  assert (Bm : 1 <= m < 1 + Z.of_nat 12) by lia.
  assert (Bd : 1 <= d < 1 + Z.of_nat 31) by lia.
  pose proof (forallb_range _ _ _ d (forallb_range _ _ _ m
                (forallb_range _ _ _ L yearday_table BL) Bm) Bd) as T.
  unfold yearday_check in T. rewrite !andb_true_iff in T.
  destruct T as [[Hw0 Hw1] T]. apply Z.leb_le in Hw0. apply Z.ltb_lt in Hw1.
  apply eqb_prop in T.
  assert (Hdim : month_length L m = days_in_month y m).
  { unfold month_length, days_in_month, L. rewrite leap_flag.
    destruct (m =? 2); [destruct (is_leap y); reflexivity | reflexivity]. }
  rewrite Hdim in T. rewrite <- T.
  set (w := month_start L (m - 1) + d - 1) in *.
  assert (Ht : newDate y (m - 1) d = DayFromYear y + w).
  { unfold newDate, MakeDay, w, L.
    rewrite (Z.div_small (m - 1) 12), (Z.mod_small (m - 1) 12) by lia.
    rewrite Z.add_0_r. lia. }
  assert (Hy : YearFromDay (DayFromYear y + w) = y).
  { apply YearFromDay_unique. rewrite DayFromYear_step, DaysInYear_leap.
    fold L. lia. }
  rewrite Ht.
  unfold getFullYear, getMonth, getDate, DateFromDay, MonthFromDay,
    InLeapYear, DayWithinYear.
  rewrite Hy. fold L. rewrite Z.eqb_refl.
  replace (DayFromYear y + w - DayFromYear y) with w by lia.
  reflexivity.
Qed.

Lemma days_in_month_le_31 y m : days_in_month y m <= 31.
Proof.
  unfold days_in_month.
  destruct (m =? 2); [destruct (is_leap y); lia |].
  destruct ((m =? 4) || (m =? 6) || (m =? 9) || (m =? 11)); lia.
Qed.

Lemma century_of_cases g base :
  century_of g = Some base ->
  (base = 1900 /\ In g [1; 2; 5; 6]) \/ (base = 2000 /\ In g [3; 4; 7; 8]).
Proof.
  unfold century_of.
  destruct ((g =? 1) || (g =? 2) || (g =? 5) || (g =? 6)) eqn:E1.
  - intros [= <-]. left. split; [reflexivity |].
    rewrite !orb_true_iff, !Z.eqb_eq in E1. simpl. lia.
  - destruct ((g =? 3) || (g =? 4) || (g =? 7) || (g =? 8)) eqn:E2; [| discriminate].
    intros [= <-]. right. split; [reflexivity |].
    rewrite !orb_true_iff, !Z.eqb_eq in E2. simpl. lia.
Qed.

(** *** What [parseResidentId] computes on thirteen digits *)

Lemma validated {A} (by_ bm bd ok : bool) (k k' : option A) :
  by_ && bm && bd = ok ->
  (ok = true -> k = k') ->
  (if negb by_ || negb bm || negb bd then None else k)
  = (if ok then k' else None).
Proof.
  intros <- Hk. destruct by_, bm, bd; cbn in *; auto.
Qed.

Lemma thirteen_digits (digits : jsstring) :
  length digits = 13%nat ->
  exists c0 c1 c2 c3 c4 c5 c6 rest,
    digits = c0 :: c1 :: c2 :: c3 :: c4 :: c5 :: c6 :: rest
    /\ length rest = 6%nat.
Proof.
  intros H.
  do 7 (destruct digits as [| ? digits]; [discriminate |]).
  do 7 eexists. exists digits. split; [reflexivity |]. simpl in H. lia.
Qed.

Lemma parseResidentId_digits value ref digits :
  normalizeResidentId value = digits ->
  length digits = 13%nat ->
  parseResidentId value ref =
    match century_of (code digits) with
    | Some base =>
        let year := base + YY digits in
        if real_dateb year (MM digits) (DD digits)
        then
          let a := age_in_months year (MM digits) (DD digits) ref in
          if a <? 0 then None
          else Some {| birth := newDate year (MM digits - 1) (DD digits);
                       ageMonths := a |}
        else None
    | None => None
    end.
Proof.
  intros Hn Hlen.
  pose proof (normalize_all_digits value) as Hall. rewrite Hn in Hall.
  unfold parseResidentId. rewrite Hn, Hlen. cbn [Nat.eqb negb].
  destruct (thirteen_digits digits Hlen) as
    (c0 & c1 & c2 & c3 & c4 & c5 & c6 & rest & -> & Hrest).
  repeat match goal with
         | H : Forall _ (_ :: _) |- _ => inversion_clear H
         end.
  unfold code, YY, MM, DD, two_digits, digit_at. cbn [nth slice Nat.sub firstn skipn].
  rewrite !parseInt_pair by assumption.
  rewrite lookup_century by assumption.
  repeat match goal with
         | H : isDigit ?c = true |- _ =>
             apply digit_value_range in H
         end.
  remember (Z.of_N (digit_value c0)) as y1 eqn:E0.
  remember (Z.of_N (digit_value c1)) as y2 eqn:E1.
  remember (Z.of_N (digit_value c2)) as m1 eqn:E2.
  remember (Z.of_N (digit_value c3)) as m2 eqn:E3.
  remember (Z.of_N (digit_value c4)) as d1 eqn:E4.
  remember (Z.of_N (digit_value c5)) as d2 eqn:E5.
  remember (Z.of_N (digit_value c6)) as g eqn:E6.
  clear E0 E1 E2 E3 E4 E5 E6 Hrest Hlen Hn.
  destruct (century_of g) as [base |] eqn:Hc; [| reflexivity].
  assert (Hbase : base = 1900 \/ base = 2000)
    by (apply century_of_cases in Hc; tauto).
  assert (Hmm : 0 <= 10 * m1 + m2 <= 99) by lia.
  assert (Hdd : 0 <= 10 * d1 + d2 <= 99) by lia.
  remember (base + (10 * y1 + y2)) as year eqn:Ey.
  remember (10 * m1 + m2) as mm eqn:Em.
  remember (10 * d1 + d2) as dd eqn:Ed.
  clear Ey Em Ed.
  replace (base =? 0) with false by (symmetry; apply Z.eqb_neq; lia).
  cbn [orb]. unfold real_dateb.
  pose proof (days_in_month_le_31 year mm) as H31.
  destruct (mm <? 1) eqn:E1.
  { apply Z.ltb_lt in E1. replace (1 <=? mm) with false by (symmetry; apply Z.leb_gt; lia).
    reflexivity. }
  destruct (mm >? 12) eqn:E2.
  { rewrite Z.gtb_ltb in E2. apply Z.ltb_lt in E2.
    replace (mm <=? 12) with false by (symmetry; apply Z.leb_gt; lia).
    rewrite andb_false_r. reflexivity. }
  destruct (dd <? 1) eqn:E3.
  { apply Z.ltb_lt in E3. replace (1 <=? dd) with false by (symmetry; apply Z.leb_gt; lia).
    rewrite !andb_false_r. reflexivity. }
  destruct (dd >? 31) eqn:E4.
  { rewrite Z.gtb_ltb in E4. apply Z.ltb_lt in E4.
    replace (dd <=? days_in_month year mm) with false by (symmetry; apply Z.leb_gt; lia).
    rewrite !andb_false_r. reflexivity. }
  apply Z.ltb_ge in E1, E3. rewrite Z.gtb_ltb in E2, E4. apply Z.ltb_ge in E2, E4.
  replace (1 <=? mm) with true by (symmetry; apply Z.leb_le; lia).
  replace (mm <=? 12) with true by (symmetry; apply Z.leb_le; lia).
  replace (1 <=? dd) with true by (symmetry; apply Z.leb_le; lia).
  cbn [andb orb].
  pose proof (readback_real_date year mm dd ltac:(lia) ltac:(lia)) as Hrb.
  apply validated with (1 := Hrb). intros Ereal. rewrite Ereal in Hrb.
  rewrite !andb_true_iff, !Z.eqb_eq in Hrb. destruct Hrb as [[Hy Hm] Hd].
  unfold getAgeMonths, age_in_months. rewrite Hy, Hm, Hd.
  replace ((getFullYear ref - year) * 12 + (getMonth ref - (mm - 1)))
    with ((getFullYear ref - year) * 12 + (getMonth ref + 1 - mm)) by lia.
  destruct (getDate ref <? dd); rewrite ?Z.sub_0_r; reflexivity.
Qed.

Lemma filter_all_true {A} (p : A -> bool) l :
  forallb p l = true -> filter p l = l.
Proof.
  induction l as [| a l IH]; [reflexivity |]. cbn.
  destruct (p a); [| discriminate]. cbn. intros H. rewrite IH by exact H.
  reflexivity.
Qed.

Example parse_990101 :
  parseResidentId (str "990101-1234567") (newDate 2024 5 15)
  = Some {| birth := newDate 1999 0 1; ageMonths := 305 |}.
Proof. vm_compute. reflexivity. Qed.

Example parse_before_birth :
  parseResidentId (str "240701-3234567") (newDate 2024 5 15) = None.
Proof. vm_compute. reflexivity. Qed.

Example parse_feb30 :
  parseResidentId (str "990230-1234567") (newDate 2024 5 15) = None.
Proof. vm_compute. reflexivity. Qed.

Example parse_code9 :
  parseResidentId (str "990101-9234567") (newDate 2024 5 15) = None.
Proof. vm_compute. reflexivity. Qed.

Example getters_2024_02_29 :
  let t := newDate 2024 1 29 in
  (getFullYear t, getMonth t, getDate t) = (2024, 1, 29).
Proof. vm_compute. reflexivity. Qed.

Example getters_2023_02_29 :
  let t := newDate 2023 1 29 in
  (getFullYear t, getMonth t, getDate t) = (2023, 2, 1).
Proof. vm_compute. reflexivity. Qed.

(** C1.  For every identifier that passes the thirteen-digit, century-code
    and calendar-date checks, and every reference date, [parseResidentId]
    returns the age in months (refYear - birthYear) * 12 + (refMonth -
    birthMonth), less one when the reference day of the month is before
    the birth day, and returns null when that number is negative.  In
    particular the digits 9901011 followed by any six digits, at the
    reference date 2024-06-15, give 305 months. *)
Theorem parseResidentId_age_in_months :
  (forall value ref digits base,
      normalizeResidentId value = digits ->
      length digits = 13%nat ->
      century_of (code digits) = Some base ->
      real_date (base + YY digits) (MM digits) (DD digits) ->
      let birthYear := base + YY digits in
      let refMonth := getMonth ref + 1 in
      let age := (getFullYear ref - birthYear) * 12 + (refMonth - MM digits)
                 - (if getDate ref <? DD digits then 1 else 0) in
      parseResidentId value ref =
        if age <? 0 then None
        else Some {| birth := newDate birthYear (MM digits - 1) (DD digits);
                     ageMonths := age |})
  /\ (forall tail,
         length tail = 6%nat -> forallb isDigit tail = true ->
         option_map ageMonths
           (parseResidentId (str "990101-1" ++ tail) (newDate 2024 5 15))
         = Some 305).
Proof.
  split.
  - intros value ref digits base Hn Hlen Hc Hreal. cbv zeta.
    rewrite (parseResidentId_digits value ref digits Hn Hlen), Hc. cbv zeta.
    apply real_dateb_spec in Hreal. rewrite Hreal. reflexivity.
  - intros tail Hlen Hdig.
    assert (Hn : normalizeResidentId (str "990101-1" ++ tail)
                 = str "9901011" ++ tail).
    { unfold normalizeResidentId. rewrite filter_app.
      rewrite (filter_all_true _ tail Hdig). reflexivity. }
    rewrite (parseResidentId_digits _ (newDate 2024 5 15) _ Hn)
      by (rewrite length_app, Hlen; reflexivity).
    reflexivity.
Qed.

Lemma parseResidentId_age_in_months_witness :
  normalizeResidentId (str "150320-4123456") = str "1503204123456"
  /\ length (str "1503204123456") = 13%nat
  /\ century_of (code (str "1503204123456")) = Some 2000
  /\ real_date 2015 3 20
  /\ parseResidentId (str "150320-4123456") (newDate 2024 5 15)
     = Some {| birth := newDate 2015 2 20; ageMonths := 110 |}.
Proof.
  assert (Hreal : real_date 2015 3 20) by (vm_compute; intuition discriminate).
  split; [reflexivity |]. split; [reflexivity |]. split; [reflexivity |].
  split; [exact Hreal |].
  exact (proj1 parseResidentId_age_in_months
           (str "150320-4123456") (newDate 2024 5 15) (str "1503204123456")
           2000 eq_refl eq_refl eq_refl Hreal).
Defined.

(** C2.  For every thirteen-digit identifier that [parseResidentId]
    accepts, the birth year is 1900 + YY when digit 6 is one of 1, 2, 5, 6
    and 2000 + YY when it is one of 3, 4, 7, 8; when digit 6 is any other
    value the result is null. *)
Theorem parseResidentId_century value ref digits :
  normalizeResidentId value = digits ->
  length digits = 13%nat ->
  (forall info,
      parseResidentId value ref = Some info ->
      (In (code digits) [1; 2; 5; 6] ->
       getFullYear (birth info) = 1900 + YY digits)
      /\ (In (code digits) [3; 4; 7; 8] ->
          getFullYear (birth info) = 2000 + YY digits)
      /\ In (code digits) [1; 2; 3; 4; 5; 6; 7; 8])
  /\ (~ In (code digits) [1; 2; 3; 4; 5; 6; 7; 8] ->
      parseResidentId value ref = None).
Proof.
  intros Hn Hlen.
  rewrite (parseResidentId_digits value ref digits Hn Hlen).
  destruct (century_of (code digits)) as [base |] eqn:Hc.
  - apply century_of_cases in Hc. cbv zeta. split.
    + intros info Hinfo.
      destruct (real_dateb (base + YY digits) (MM digits) (DD digits)) eqn:Hreal;
        [| discriminate].
      destruct (age_in_months (base + YY digits) (MM digits) (DD digits) ref <? 0);
        [discriminate |].
      injection Hinfo as <-. cbn [birth].
      apply real_dateb_spec in Hreal. destruct Hreal as [Hm Hd].
      pose proof (days_in_month_le_31 (base + YY digits) (MM digits)) as H31.
      pose proof (readback_real_date (base + YY digits) (MM digits) (DD digits)
                    Hm ltac:(lia)) as Hrb.
      replace (DD digits <=? days_in_month (base + YY digits) (MM digits))
        with true in Hrb by (symmetry; apply Z.leb_le; lia).
      rewrite !andb_true_iff, !Z.eqb_eq in Hrb. destruct Hrb as [[Hy _] _].
      rewrite Hy. cbn [In] in Hc |- *. split; [| split]; lia.
    + intros Hnot. exfalso. apply Hnot. cbn [In] in Hc |- *. lia.
  - split; [discriminate | reflexivity].
Qed.

Lemma parseResidentId_century_witness :
  normalizeResidentId (str "150320-4123456") = str "1503204123456"
  /\ length (str "1503204123456") = 13%nat
  /\ parseResidentId (str "150320-4123456") (newDate 2024 5 15)
     = Some {| birth := newDate 2015 2 20; ageMonths := 110 |}
  /\ In (code (str "1503204123456")) [3; 4; 7; 8]
  /\ getFullYear (newDate 2015 2 20) = 2000 + YY (str "1503204123456").
Proof.
  assert (Hin : In (code (str "1503204123456")) [3; 4; 7; 8])
    by (vm_compute; tauto).
  split; [reflexivity |]. split; [reflexivity |]. split; [reflexivity |].
  split; [exact Hin |].
  exact (proj1 (proj2 (proj1 (parseResidentId_century
           (str "150320-4123456") (newDate 2024 5 15) (str "1503204123456")
           eq_refl eq_refl)
           {| birth := newDate 2015 2 20; ageMonths := 110 |} eq_refl)) Hin).
Defined.

(** C3.  A thirteen-digit identifier whose month field is outside 1..12,
    whose day field is outside 1..31, or whose year, month and day do not
    denote a real calendar date (such as month 02, day 30) is rejected
    with null, whatever the century code.  Impossible dates are found by
    constructing the date and comparing its year, month and day with the
    inputs: for a month in 1..12 and a day in 1..31 the three agree
    exactly when the date is real. *)
Theorem parseResidentId_rejects_invalid_dates :
  (forall value ref digits,
      normalizeResidentId value = digits ->
      length digits = 13%nat ->
      (~ 1 <= MM digits <= 12) \/ (~ 1 <= DD digits <= 31)
      \/ (forall base, century_of (code digits) = Some base ->
                       ~ real_date (base + YY digits) (MM digits) (DD digits)) ->
      parseResidentId value ref = None)
  /\ (forall y m d,
         1 <= m <= 12 -> 1 <= d <= 31 ->
         (getFullYear (newDate y (m - 1) d) = y
          /\ getMonth (newDate y (m - 1) d) = m - 1
          /\ getDate (newDate y (m - 1) d) = d)
         <-> real_date y m d).
Proof.
  split.
  - intros value ref digits Hn Hlen Hbad.
    rewrite (parseResidentId_digits value ref digits Hn Hlen).
    destruct (century_of (code digits)) as [base |] eqn:Hc; [| reflexivity].
    cbv zeta.
    destruct (real_dateb (base + YY digits) (MM digits) (DD digits)) eqn:Hreal;
      [| reflexivity].
    exfalso. apply real_dateb_spec in Hreal.
    pose proof (days_in_month_le_31 (base + YY digits) (MM digits)) as H31.
    destruct Hbad as [Hbad | [Hbad | Hbad]].
    + apply Hbad. apply Hreal.
    + apply Hbad. destruct Hreal as [_ Hd]. lia.
    + exact (Hbad base eq_refl Hreal).
  - intros y m d Hm Hd.
    pose proof (readback_real_date y m d Hm Hd) as Hrb.
    unfold real_date. split.
    + intros (Hy & Hmo & Hda). rewrite Hy, Hmo, Hda, !Z.eqb_refl in Hrb.
      symmetry in Hrb. apply Z.leb_le in Hrb. lia.
    + intros [_ [_ Hle]]. apply Z.leb_le in Hle. rewrite Hle in Hrb.
      rewrite !andb_true_iff, !Z.eqb_eq in Hrb. tauto.
Qed.

Lemma parseResidentId_rejects_invalid_dates_witness :
  normalizeResidentId (str "990230-1234567") = str "9902301234567"
  /\ length (str "9902301234567") = 13%nat
  /\ ~ real_date 1999 2 30
  /\ parseResidentId (str "990230-1234567") (newDate 2024 5 15) = None.
Proof.
  assert (Hnot : ~ real_date 1999 2 30).
  { intros [_ [_ H]]. vm_compute in H. apply H. reflexivity. }
  split; [reflexivity |]. split; [reflexivity |]. split; [exact Hnot |].
  apply (proj1 parseResidentId_rejects_invalid_dates
           (str "990230-1234567") (newDate 2024 5 15) (str "9902301234567")
           eq_refl eq_refl).
  right. right. intros base Hbase.
  assert (Hb : base = 1900) by (vm_compute in Hbase; congruence).
  rewrite Hb. exact Hnot.
Defined.

End ResidentIdProofs.

(** ** Visit deltas and injection events *)

Module VisitsProofs.

Import Visits.

Import VisitsSpec.

Lemma round_half_up_nearest n d :
  0 < d -> nearest_integer n d (round_half_up n d).
Proof.
  intros Hd. unfold nearest_integer, round_half_up.
  pose proof (Z.div_mod (2 * n + d) (2 * d) ltac:(lia)) as E.
  pose proof (Z.mod_pos_bound (2 * n + d) (2 * d) ltac:(lia)) as B.
  nia.
Qed.

Lemma nearest_integer_unique n d r1 r2 :
  0 < d -> nearest_integer n d r1 -> nearest_integer n d r2 -> r1 = r2.
Proof. unfold nearest_integer. intros Hd H1 H2. nia. Qed.

(** *** Binary64 rounding *)

Lemma nearest_even_spec num den :
  0 <= num -> 0 < den ->
  0 <= Binary64.nearest_even num den
  /\ 2 * (Binary64.nearest_even num den * den) - 2 * num <= den
  /\ 2 * num - 2 * (Binary64.nearest_even num den * den) <= den.
Proof.
  intros Hn Hd. unfold Binary64.nearest_even.
  pose proof (Z.div_mod num den ltac:(lia)) as E.
  pose proof (Z.mod_pos_bound num den Hd) as B.
  pose proof (Z.div_pos num den Hn Hd) as Q.
  destruct ((den <? 2 * (num mod den))
            || ((2 * (num mod den) =? den) && Z.odd (num / den))) eqn:C.
  - apply orb_true_iff in C.
    rewrite Z.ltb_lt, andb_true_iff, Z.eqb_eq in C. nia.
  - apply orb_false_iff in C. rewrite Z.ltb_ge in C. nia.
Qed.

Lemma nearest_even_exact num : Binary64.nearest_even num 1 = num.
Proof.
  unfold Binary64.nearest_even. rewrite Z.div_1_r, Z.mod_1_r. reflexivity.
Qed.

(** An integer of at most 2^53 in magnitude is a Number. *)
Lemma of_integer_exact z :
  Z.abs z <= 2 ^ 53 -> Binary64.of_integer z = z.
Proof.
  intros Hz. unfold Binary64.of_integer.
  destruct (Z.eq_dec z 0) as [-> | Hne]; [reflexivity |].
  assert (Ha : 0 < Z.abs z) by lia.
  assert (Hlog : Z.log2 (Z.abs z) < 54).
  { apply Z.log2_lt_pow2; [exact Ha |].
    change (2 ^ 54) with (2 * 2 ^ 53). lia. }
  pose proof (Z.log2_nonneg (Z.abs z)) as H0.
  destruct (Z.eq_dec (Z.log2 (Z.abs z)) 53) as [E53 | N53].
  - assert (2 ^ 53 <= Z.abs z) by (apply Z.log2_le_pow2; lia).
    assert (Eabs : Z.abs z = 2 ^ 53) by lia.
    rewrite E53, Eabs.
    destruct (Z.abs_eq_or_opp z) as [E | E]; rewrite E in Eabs.
    + rewrite Eabs. reflexivity.
    + assert (z = - 2 ^ 53) by lia. subst z. reflexivity.
  - replace (Z.max 0 (Z.log2 (Z.abs z) - 52)) with 0 by lia.
    change (2 ^ 0) with 1. rewrite nearest_even_exact, Z.mul_1_r.
    rewrite Z.mul_comm. apply Z.abs_sgn.
Qed.

Lemma of_integer_sign z : z <= 0 -> Binary64.of_integer z <= 0.
Proof.
  intros Hz. unfold Binary64.of_integer.
  set (e := Z.max 0 _).
  assert (Hp : 0 < 2 ^ e) by (apply Z.pow_pos_nonneg; lia).
  destruct (nearest_even_spec (Z.abs z) (2 ^ e) ltac:(lia) Hp) as (Hm & _).
  destruct (Z.eq_dec z 0) as [-> | Hne]; [cbn; lia |].
  rewrite Z.sgn_neg by lia. nia.
Qed.

(** [Math.round] returns the nearest integer, a tie going up. *)
Lemma Math_round_rounds x : rounds_to x (Binary64.Math_round x).
Proof.
  unfold rounds_to, Binary64.Math_round.
  destruct (0 <=? Binary64.exponent x) eqn:E; [reflexivity |].
  apply Z.leb_gt in E.
  assert (Hp : 0 < 2 ^ (- Binary64.exponent x))
    by (apply Z.pow_pos_nonneg; lia).
  exact (round_half_up_nearest (Binary64.mantissa x) _ Hp).
Qed.

Lemma Math_round_div_sign n d :
  n <= 0 -> 0 < d -> Binary64.Math_round (Binary64.div n d) <= 0.
Proof.
  intros Hn Hd. unfold Binary64.div.
  destruct (Z.eqb_spec n 0) as [-> | Hne]; [cbn; lia |].
  set (e := _ - 52). cbv zeta.
  set (m := Binary64.nearest_even _ _).
  assert (Hm : 0 <= m).
  { unfold m. apply nearest_even_spec.
    - apply Z.mul_nonneg_nonneg; [lia | apply Z.pow_nonneg; lia].
    - apply Z.mul_pos_pos; [exact Hd | apply Z.pow_pos_nonneg; lia]. }
  unfold Binary64.Math_round. cbn [Binary64.mantissa Binary64.exponent].
  rewrite Z.sgn_neg by lia.
  destruct (Z.leb_spec 0 e) as [He | He].
  - assert (0 <= 2 ^ e) by (apply Z.pow_nonneg; lia). nia.
  - assert (Hp : 0 < 2 ^ (- e)) by (apply Z.pow_pos_nonneg; lia).
    assert ((2 * (-1 * m) + 2 ^ (- e)) / (2 * 2 ^ (- e)) < 1); [| lia].
    apply Z.div_lt_upper_bound; lia.
Qed.

(** Up to 2^53 milliseconds, the quotient by the length of a day, with
    its 53 bits, rounds to the same integer as the exact quotient: the
    exact quotient is at least 1/86400000 away from a half it does not
    hit, the Number at most 2^-27 away from the exact quotient, and the
    halves are Numbers. *)
Lemma Math_round_div_day n :
  0 < n <= 2 ^ 53 ->
  Binary64.Math_round (Binary64.div n 86400000) = round_half_up n 86400000.
Proof.
  intros Hn. unfold Binary64.div.
  destruct (Z.eqb_spec n 0) as [-> | _]; [lia |].
  rewrite (Z.abs_eq n), Z.sgn_pos by lia.
  change (Z.log2 86400000) with 26.
  assert (Hlog : Z.log2 n < 54).
  { apply Z.log2_lt_pow2; [lia |]. change (2 ^ 54) with (2 * 2 ^ 53). lia. }
  pose proof (Z.log2_nonneg n) as H0.
  set (L := Z.log2 n - 26).
  set (E := if 86400000 * 2 ^ Z.max 0 L <=? n * 2 ^ Z.max 0 (- L)
            then L else L - 1).
  assert (HE : E <= 26).
  { unfold E. destruct (Z.leb_spec (86400000 * 2 ^ Z.max 0 L)
                          (n * 2 ^ Z.max 0 (- L))) as [T | T]; [| lia].
    destruct (Z.eq_dec L 27) as [E27 | ]; [| lia].
    replace (Z.max 0 L) with 27 in T by lia.
    replace (Z.max 0 (- L)) with 0 in T by lia.
    change (2 ^ 27) with 134217728 in T. change (2 ^ 0) with 1 in T.
    change (2 ^ 53) with 9007199254740992 in Hn. lia. }
  cbv zeta. set (e := E - 52).
  replace (Z.max 0 e) with 0 by lia.
  replace (Z.max 0 (- e)) with (- e) by lia.
  change (2 ^ 0) with 1. rewrite Z.mul_1_r.
  assert (HP : 2 ^ (- e) = 67108864 * 2 ^ (- e - 26)).
  { change 67108864 with (2 ^ 26). rewrite <- Z.pow_add_r by lia.
    f_equal. lia. }
  assert (HS : 0 < 2 ^ (- e - 26)) by (apply Z.pow_pos_nonneg; lia).
  set (P := 2 ^ (- e)) in *. set (S := 2 ^ (- e - 26)) in *.
  assert (HnP : 0 <= n * P) by nia.
  destruct (nearest_even_spec (n * P) 86400000 HnP ltac:(lia))
    as (Hm & Hup & Hdown).
  set (m := Binary64.nearest_even (n * P) 86400000) in *.
  unfold Binary64.Math_round. cbn [Binary64.mantissa Binary64.exponent].
  replace (0 <=? e) with false by (symmetry; apply Z.leb_gt; lia).
  fold P. rewrite Z.mul_1_l. unfold round_half_up.
  set (k := (2 * n + 86400000) / (2 * 86400000)).
  assert (Hk : (2 * k - 1) * 86400000 <= 2 * n < (2 * k + 1) * 86400000).
  { unfold k.
    pose proof (Z.div_mod (2 * n + 86400000) (2 * 86400000) ltac:(lia)).
    pose proof (Z.mod_pos_bound (2 * n + 86400000) (2 * 86400000)
                  ltac:(lia)).
    lia. }
  clearbody k m P S. clear E HE e L Hlog H0.
  symmetry. apply (Z.div_unique _ _ k (2 * m + P - 2 * P * k)); [| lia].
  left. nia.
Qed.

(** The elapsed days of two time values at most 2^53 milliseconds
    apart. *)
Lemma diffDays_exact previous current :
  Z.abs (current - previous) <= 2 ^ 53 ->
  diffDays (Some previous) (Some current)
  = Some (Z.max 1 (round_half_up (current - previous) 86400000)).
Proof.
  intros Hb. unfold diffDays. rewrite (of_integer_exact _ Hb).
  change msPerDay with 86400000. f_equal.
  destruct (Z_lt_le_dec 0 (current - previous)) as [Hpos | Hneg].
  - rewrite Math_round_div_day by lia. reflexivity.
  - pose proof (Math_round_div_sign (current - previous) 86400000 Hneg
                  eq_refl) as Hs.
    assert (round_half_up (current - previous) 86400000 <= 0).
    { unfold round_half_up.
      assert ((2 * (current - previous) + 86400000) / (2 * 86400000) < 1);
        [| lia].
      apply Z.div_lt_upper_bound; lia. }
    lia.
Qed.

Lemma diffDays_not_later previous current :
  current <= previous -> diffDays (Some previous) (Some current) = Some 1.
Proof.
  intros Hle. unfold diffDays. f_equal.
  pose proof (of_integer_sign (current - previous) ltac:(lia)) as Hs.
  pose proof (Math_round_div_sign _ msPerDay Hs eq_refl). lia.
Qed.

(** The model and the primitive floats give the same difference and the
    same quotient on the sample differences. *)
Example binary64_agrees_with_floats :
  forallb agrees_with_floats sample_differences = true.
Proof. vm_compute. reflexivity. Qed.

Example diffDays_three_days :
  diffDays (Some 0) (Some (3 * 86400000 + 3600000)) = Some 3.
Proof. reflexivity. Qed.

Example diffDays_same_day :
  diffDays (Some 1000) (Some (1000 + 3600000)) = Some 1.
Proof. reflexivity. Qed.

Example diffDays_backwards : diffDays (Some (10 * 86400000)) (Some 0) = Some 1.
Proof. reflexivity. Qed.

Example diffDays_invalid_date : diffDays None (Some 0) = None.
Proof. reflexivity. Qed.

(** Beyond 2^53 milliseconds the difference itself is rounded: between
    the first valid time value and this one, 104250000.4999999884 days
    apart, the difference becomes 9007200043200000, the quotient
    104250000.5, and the elapsed days 104250001. *)
Example diffDays_beyond_2_53 :
  367200043199999 - -8640000000000000 = 2 ^ 53 + 788459007
  /\ round_half_up (367200043199999 - -8640000000000000) 86400000 = 104250000
  /\ diffDays (Some (-8640000000000000)) (Some 367200043199999)
     = Some 104250001.
Proof. repeat split; reflexivity. Qed.

(** C8.  For every pair of previous and current visit time values the
    elapsed days are max(1, round(difference in days)), the difference in
    days being the Number that the quotient by 86,400,000 gives; they are
    never below 1, they are 1 whenever the current visit is not later
    than the previous one, and two visits on the same calendar day give
    1.  For time values at most 2^53 milliseconds (some 285,000 years)
    apart, the elapsed days are max(1, r) for the integer r nearest to
    the exact quotient, a tie going up.  An invalid date gives NaN. *)
Theorem diffDays_max_one_round (previous current : Z) :
  (exists r,
      rounds_to
        (Binary64.div (Binary64.of_integer (current - previous)) 86400000) r
      /\ diffDays (Some previous) (Some current) = Some (Z.max 1 r))
  /\ (exists days,
         diffDays (Some previous) (Some current) = Some days /\ 1 <= days)
  /\ (current <= previous ->
      diffDays (Some previous) (Some current) = Some 1)
  /\ (Z.abs (current - previous) <= 2 ^ 53 ->
      (exists r, nearest_integer (current - previous) 86400000 r)
      /\ forall r, nearest_integer (current - previous) 86400000 r ->
                   diffDays (Some previous) (Some current)
                   = Some (Z.max 1 r))
  /\ (forall offset, same_calendar_day offset previous current ->
                     diffDays (Some previous) (Some current) = Some 1)
  /\ (forall time, diffDays None time = None /\ diffDays time None = None).
Proof.
  split; [| split; [| split; [| split; [| split]]]].
  - eexists. split; [apply Math_round_rounds | reflexivity].
  - eexists. split; [reflexivity | lia].
  - apply diffDays_not_later.
  - intros Hb.
    pose proof (round_half_up_nearest (current - previous) 86400000 eq_refl)
      as Hn.
    split; [eexists; exact Hn |]. intros r Hr.
    rewrite (diffDays_exact _ _ Hb).
    rewrite (nearest_integer_unique (current - previous) 86400000 _ _ eq_refl
               Hr Hn).
    reflexivity.
  - intros offset Hsame. unfold same_calendar_day in Hsame.
    assert (Hb : Z.abs (current - previous) < 86400000)
      by (Z.div_mod_to_equations; lia).
    rewrite diffDays_exact
      by (change (2 ^ 53) with 9007199254740992; lia).
    pose proof (round_half_up_nearest (current - previous) 86400000 eq_refl)
      as Hn.
    unfold nearest_integer in Hn. f_equal. lia.
  - intros [time |]; split; reflexivity.
Qed.

Lemma diffDays_max_one_round_witness :
  Z.abs (3 * 86400000 + 3600000 - 0) <= 2 ^ 53
  /\ nearest_integer (3 * 86400000 + 3600000 - 0) 86400000 3
  /\ diffDays (Some 0) (Some (3 * 86400000 + 3600000)) = Some (Z.max 1 3).
Proof.
  assert (Hb : Z.abs (3 * 86400000 + 3600000 - 0) <= 2 ^ 53)
    by (vm_compute; discriminate).
  assert (H : nearest_integer (3 * 86400000 + 3600000 - 0) 86400000 3)
    by (unfold nearest_integer; lia).
  split; [exact Hb |]. split; [exact H |].
  exact (proj2 (proj1 (proj2 (proj2 (proj2
           (diffDays_max_one_round 0 (3 * 86400000 + 3600000))))) Hb) 3 H).
Defined.

(** *** Injection events *)

(** Two visits in the same month of age, one injection each: the two
    markers share x = 100 and neither carries an offset. *)
Lemma two_visits_same_age_not_deconflicted : ~ shared_x_always_deconflicted.
Proof.
  intros H.
  specialize (H [visit_at 100 true false; visit_at 100 false true]
                100%float _ _ eq_refl).
  destruct H as [H _]. vm_compute in H. discriminate.
Qed.

Example two_visits_same_age_events :
  injectionEvents [visit_at 100 true false; visit_at 100 false true]
  = [ {| Chart.event_x := 100; Chart.label := growth_label;
         Chart.type := Chart.growth; Chart.offset := None |};
      {| Chart.event_x := 100; Chart.label := suppression_label;
         Chart.type := Chart.suppression; Chart.offset := None |} ].
Proof. reflexivity. Qed.

Lemma visit_events_markers visit :
  visit_events visit = markers_of_visit visit.
Proof.
  unfold visit_events, markers_of_visit.
  destruct (growthInjection visit), (suppressionInjection visit); reflexivity.
Qed.

Lemma injectionEvents_markers visits :
  injectionEvents visits = flat_map markers_of_visit visits.
Proof.
  unfold injectionEvents. induction visits as [| visit visits IH];
    [reflexivity |].
  cbn [flat_map]. rewrite visit_events_markers, IH. reflexivity.
Qed.

Example two_visits_with_both_injections :
  map Chart.offset
      (injectionEvents [visit_at 100 true true; visit_at 100 true true])
  = [Some (-8)%float; Some 8%float; Some (-8)%float; Some 8%float].
Proof. reflexivity. Qed.

(** C7 (amended).  The offsets are decided visit by visit, from the two
    flags of the visit alone.  A visit with both injections gives two
    markers at the visit's x, next to each other in the list, the growth
    marker with offset -8 and the suppression marker with offset +8:
    opposite sign and equal magnitude; the chart draws them 8 units to
    the left and to the right of the visit's position.  A visit with one
    injection gives one marker without offset, and a visit with none
    gives no marker.  Markers of different visits are not de-conflicted
    with each other, whatever their x: two visits with one injection each
    give two markers without offset, and two visits with both injections
    give the offsets -8, +8, -8, +8. *)
Theorem injectionEvents_offsets_within_visit (visits : list Visit) :
  injectionEvents visits = flat_map markers_of_visit visits
  /\ (forall visit,
         In visit visits ->
         growthInjection visit = true ->
         suppressionInjection visit = true ->
         exists e1 e2 before after,
           injectionEvents visits = before ++ [e1; e2] ++ after
           /\ Chart.event_x e1 = ageMonths visit
           /\ Chart.event_x e2 = ageMonths visit
           /\ Chart.type e1 = Chart.growth
           /\ Chart.type e2 = Chart.suppression
           /\ Chart.offset e1 = Some (-8)%float
           /\ Chart.offset e2 = Some 8%float
           /\ deconflicted e1 e2
           /\ forall props,
                Chart.marker_x (Chart.event_marker props e1)
                = (Chart.xFor props (ageMonths visit) + -8)%float
                /\ Chart.marker_x (Chart.event_marker props e2)
                   = (Chart.xFor props (ageMonths visit) + 8)%float)
  /\ (forall e,
         In e (injectionEvents visits) ->
         exists visit,
           In visit visits
           /\ In e (markers_of_visit visit)
           /\ Chart.event_x e = ageMonths visit
           /\ Chart.offset e = offset_in_visit visit e)
  /\ (forall v1 v2,
         growthInjection v1 = true -> suppressionInjection v1 = false ->
         growthInjection v2 = false -> suppressionInjection v2 = true ->
         map Chart.offset (injectionEvents [v1; v2]) = [None; None])
  /\ (forall v1 v2,
         growthInjection v1 = true -> suppressionInjection v1 = true ->
         growthInjection v2 = true -> suppressionInjection v2 = true ->
         map Chart.offset (injectionEvents [v1; v2])
         = [Some (-8)%float; Some 8%float; Some (-8)%float; Some 8%float]).
Proof.
  split; [apply injectionEvents_markers |].
  split; [| split; [| split]].
  - intros visit Hin Hg Hs.
    apply in_split in Hin. destruct Hin as (l1 & l2 & ->).
    exists (marker_of visit Chart.growth (Some (-8)%float)).
    exists (marker_of visit Chart.suppression (Some 8%float)).
    exists (injectionEvents l1), (injectionEvents l2).
    split.
    + unfold injectionEvents. rewrite flat_map_app. cbn [flat_map].
      unfold visit_events at 2. rewrite Hg, Hs. reflexivity.
    + repeat split; reflexivity.
  - intros e He. rewrite injectionEvents_markers in He.
    apply in_flat_map in He. destruct He as (visit & Hin & He).
    exists visit. split; [exact Hin |]. split; [exact He |].
    unfold markers_of_visit, offset_in_visit in *.
    destruct (growthInjection visit), (suppressionInjection visit);
      cbn [In andb] in *;
      repeat match goal with
             | H : _ \/ _ |- _ => destruct H as [<- | H]
             | H : False |- _ => contradiction
             end;
      split; reflexivity.
  - intros v1 v2 G1 S1 G2 S2. rewrite injectionEvents_markers.
    cbn [flat_map]. unfold markers_of_visit. rewrite G1, S1, G2, S2.
    reflexivity.
  - intros v1 v2 G1 S1 G2 S2. rewrite injectionEvents_markers.
    cbn [flat_map]. unfold markers_of_visit. rewrite G1, S1, G2, S2.
    reflexivity.
Qed.

Lemma injectionEvents_offsets_within_visit_witness :
  In (visit_at 100 true true) [visit_at 90 true false; visit_at 100 true true]
  /\ exists e1 e2 before after,
       injectionEvents [visit_at 90 true false; visit_at 100 true true]
       = before ++ [e1; e2] ++ after
       /\ Chart.offset e1 = Some (-8)%float /\ Chart.offset e2 = Some 8%float.
Proof.
  assert (Hin : In (visit_at 100 true true)
                   [visit_at 90 true false; visit_at 100 true true])
    by (right; left; reflexivity).
  split; [exact Hin |].
  destruct (proj1 (proj2 (injectionEvents_offsets_within_visit
                            [visit_at 90 true false; visit_at 100 true true]))
              _ Hin eq_refl eq_refl)
    as (e1 & e2 & before & after & H & _ & _ & _ & _ & H1 & H2 & _).
  exists e1, e2, before, after. repeat split; assumption.
Defined.

End VisitsProofs.

(** ** Facts on binary64 numbers *)

Module FloatProofs.

Local Open Scope float_scope.

Import FloatSpec.

Lemma is_finite_SF x : is_finite x = true -> SF_finite (Prim2SF x).
Proof.
  unfold is_finite, is_nan, is_infinity. rewrite !eqb_spec, abs_spec.
  destruct (Prim2SF x) as [s | s | | s m e]; try constructor.
  - destruct s; cbn; discriminate.
  - cbn. discriminate.
Qed.

Lemma finite_not_nan x : is_finite x = true -> is_nan x = false.
Proof.
  unfold is_finite. destruct (is_nan x); [discriminate | reflexivity].
Qed.

Lemma finite_not_eq_infinity x :
  is_finite x = true ->
  (x =? infinity) = false /\ (x =? neg_infinity) = false
  /\ (infinity =? x) = false /\ (neg_infinity =? x) = false.
Proof.
  intros H. apply is_finite_SF in H. rewrite !eqb_spec.
  inversion H as [s Hs | s m e Hs]; cbn; repeat split; try reflexivity;
    destruct s; reflexivity.
Qed.

(** Equal finite numbers have a zero difference (this covers +0 and -0,
    which [===] identifies). *)
Lemma sub_equal_finite x y :
  is_finite x = true -> is_finite y = true -> (x =? y) = true ->
  (x - y =? 0) = true.
Proof.
  intros Hx Hy. apply is_finite_SF in Hx, Hy.
  rewrite !eqb_spec, sub_spec.
  change (Prim2SF 0) with (S754_zero false).
  inversion Hx as [sx Ex | sx mx ex Ex]; inversion Hy as [sy Ey | sy my ey Ey].
  - intros _. destruct sx, sy; reflexivity.
  - destruct sy; discriminate.
  - destruct sx; discriminate.
  - unfold SFeqb, SFcompare. intros Heq.
    assert (Hsame : sx = sy /\ ex = ey /\ mx = my).
    { destruct sx, sy; try discriminate;
        destruct (Z.compare_spec ex ey) as [-> | |]; try discriminate;
        destruct (Pos.compare_cont Eq mx my) eqn:C; try discriminate;
        apply Pos.compare_eq in C; subst; auto. }
    destruct Hsame as (-> & -> & ->).
    unfold SF64sub, SFsub. rewrite Z.min_id, Z.sub_diag. reflexivity.
Qed.

Lemma Math_min_from_in lowest l :
  all_finite l ->
  Math_min_from lowest l = lowest \/ In (Math_min_from lowest l) l.
Proof.
  intros Hl. revert lowest.
  induction Hl as [| number r Hn _ IH]; intros lowest; [left; reflexivity |].
  cbn [Math_min_from]. rewrite (finite_not_nan number Hn).
  destruct (is_neg_zero number && is_pos_zero lowest);
    [| destruct (number <? lowest)].
  - destruct (IH number) as [-> | H]; right; [left; reflexivity | right; exact H].
  - destruct (IH number) as [-> | H]; right; [left; reflexivity | right; exact H].
  - destruct (IH lowest) as [-> | H]; [left; reflexivity | right; right; exact H].
Qed.

Lemma Math_max_from_in highest l :
  all_finite l ->
  Math_max_from highest l = highest \/ In (Math_max_from highest l) l.
Proof.
  intros Hl. revert highest.
  induction Hl as [| number r Hn _ IH]; intros highest; [left; reflexivity |].
  cbn [Math_max_from]. rewrite (finite_not_nan number Hn).
  destruct (is_pos_zero number && is_neg_zero highest);
    [| destruct (highest <? number)].
  - destruct (IH number) as [-> | H]; right; [left; reflexivity | right; exact H].
  - destruct (IH number) as [-> | H]; right; [left; reflexivity | right; exact H].
  - destruct (IH highest) as [-> | H]; [left; reflexivity | right; right; exact H].
Qed.

(** When the least and the greatest of finite values are equal, both are
    finite (the list is not empty) and their difference is zero. *)
Lemma min_max_coincide l :
  all_finite l ->
  (Math_max l =? Math_min l) = true ->
  (Math_max l - Math_min l =? 0) = true.
Proof.
  intros Hl Heq. unfold all_finite in Hl. rewrite Forall_forall in Hl.
  assert (Hl' : all_finite l) by (apply Forall_forall; exact Hl).
  unfold Math_max, Math_min in *.
  destruct (Math_max_from_in neg_infinity l Hl') as [Emax | Imax];
    destruct (Math_min_from_in infinity l Hl') as [Emin | Imin].
  - rewrite Emax, Emin in Heq. discriminate.
  - rewrite Emax in Heq.
    destruct (finite_not_eq_infinity _ (Hl _ Imin)) as (_ & _ & _ & H).
    rewrite H in Heq. discriminate.
  - rewrite Emin in Heq.
    destruct (finite_not_eq_infinity _ (Hl _ Imax)) as (H & _).
    rewrite H in Heq. discriminate.
  - apply sub_equal_finite; [apply Hl, Imax | apply Hl, Imin | exact Heq].
Qed.

End FloatProofs.

(** ** Chart geometry *)

Module ChartProofs.

Import Chart.

Local Open Scope float_scope.

Import ChartSpec.

(** *** Styling of reference curves *)

Example class_50th : curveClass_of (str "50th") = str "chart-percentile major".
Proof. reflexivity. Qed.

Example class_97th : curveClass_of (str "97th") = str "chart-percentile mid".
Proof. reflexivity. Qed.

Example class_10th : curveClass_of (str "10th") = str "chart-percentile".
Proof. reflexivity. Qed.

Lemma scene_curves_keys props :
  map element_key (scene_curves (scene_of props))
  = map curve_key (curvePaths props).
Proof.
  cbn [scene_of scene_curves]. rewrite map_map. reflexivity.
Qed.

(** C9.  The class of a drawn reference curve is a function of its
    percentile label alone: "50th" (the median) gets the major class,
    "3rd" and "97th" (the outer bounds) the mid class, every other label
    the plain class; two curves with the same label get the same class
    wherever they stand, in this chart or another. *)
Theorem curve_class_by_label :
  (forall props c,
      In c (scene_curves (scene_of props)) ->
      (element_key c = str "50th" ->
       curveClass c = str "chart-percentile major")
      /\ (element_key c = str "3rd" \/ element_key c = str "97th" ->
          curveClass c = str "chart-percentile mid")
      /\ (element_key c <> str "50th" -> element_key c <> str "3rd" ->
          element_key c <> str "97th" ->
          curveClass c = str "chart-percentile"))
  /\ (forall props1 props2 c1 c2,
         In c1 (scene_curves (scene_of props1)) ->
         In c2 (scene_curves (scene_of props2)) ->
         element_key c1 = element_key c2 -> curveClass c1 = curveClass c2).
Proof.
  assert (Hclass : forall props c,
             In c (scene_curves (scene_of props)) ->
             curveClass c = curveClass_of (element_key c)).
  { intros props c Hc. cbn [scene_of scene_curves] in Hc.
    apply in_map_iff in Hc. destruct Hc as (p & <- & _). reflexivity. }
  split.
  - intros props c Hc. rewrite (Hclass props c Hc). unfold curveClass_of.
    split; [| split].
    + intros ->. reflexivity.
    + intros [-> | ->]; reflexivity.
    + intros H50 H3 H97.
      destruct (jsstring_eqb (element_key c) (str "50th")) eqn:E50;
        [apply jsstring_eqb_eq in E50; contradiction |].
      destruct (jsstring_eqb (element_key c) (str "3rd")) eqn:E3;
        [apply jsstring_eqb_eq in E3; contradiction |].
      destruct (jsstring_eqb (element_key c) (str "97th")) eqn:E97;
        [apply jsstring_eqb_eq in E97; contradiction |].
      reflexivity.
  - intros props1 props2 c1 c2 H1 H2 Hk.
    rewrite (Hclass props1 c1 H1), (Hclass props2 c2 H2), Hk. reflexivity.
Qed.

Lemma curve_class_by_label_witness :
  exists c,
    In c (scene_curves (scene_of one_curve))
    /\ element_key c = str "50th"
    /\ curveClass c = str "chart-percentile major".
Proof.
  exists (curve_element
            {| curve_key := str "50th";
               d := path_of one_curve [ {| x := 12; y := 75 |} ] |}).
  assert (Hin : In (curve_element
                      {| curve_key := str "50th";
                         d := path_of one_curve [ {| x := 12; y := 75 |} ] |})
                   (scene_curves (scene_of one_curve)))
    by (left; reflexivity).
  split; [exact Hin |]. split; [reflexivity |].
  exact (proj1 (proj1 curve_class_by_label one_curve _ Hin) eq_refl).
Defined.

(** *** Renderable data *)

Example events_alone_render_nothing :
  MetricChart (with_events no_props [marker 30; marker 42]) = EmptyState None.
Proof. reflexivity. Qed.

Example events_widen_the_domain :
  (xMin (one_visit 36 100), xMax (one_visit 36 100)) = (36, 37)
  /\ (xMin (with_events (one_visit 36 100) [marker 30; marker 42]),
      xMax (with_events (one_visit 36 100) [marker 30; marker 42])) = (30, 42).
Proof. split; reflexivity. Qed.

Lemma finite_values_In v l :
  In (Some v) l -> Number_isFinite v = true -> In v (finite_values l).
Proof.
  intros Hin Hfin. unfold finite_values. apply in_flat_map.
  exists (Some v). split; [exact Hin |]. rewrite Hfin. left. reflexivity.
Qed.

(** C10.  Event markers never count as renderable data: with no finite
    visit point, no reference-curve point and no finite highlight point
    the chart is the empty-state placeholder, whatever events are
    supplied.  When the chart is drawn without an explicit range, the
    x-domain starts at the least of the collected x-values, and these
    include the x of every event. *)
Theorem events_are_not_renderable_data :
  (forall props,
      visit_points (values props) (xValues props) = [] ->
      reference_points (referenceCurves props) = [] ->
      hasHighlight (highlightPoint props) = false ->
      MetricChart props = EmptyState (className props))
  /\ (forall props scene,
         MetricChart props = Svg (className props) scene ->
         hasRenderableData props = true
         /\ (xRange props = None -> xMin props = Math_min (allX props))
         /\ (forall e, In e (event_list props) ->
                       Number_isFinite (event_x e) = true ->
                       In (event_x e) (allX props))).
Proof.
  split.
  - intros props Hp Hr Hh. unfold MetricChart, hasRenderableData.
    rewrite Hp, Hr, Hh. reflexivity.
  - intros props scene Hsvg. unfold MetricChart in Hsvg.
    destruct (hasRenderableData props); [| discriminate].
    split; [reflexivity |]. split.
    + intros Hx. unfold xMin. rewrite Hx. reflexivity.
    + intros e He Hfin. unfold allX. apply finite_values_In; [| exact Hfin].
      rewrite !in_app_iff. right. right. right.
      apply in_map_iff. exists e. split; [reflexivity | exact He].
Qed.

Lemma events_are_not_renderable_data_witness :
  visit_points (values (with_events no_props [marker 30; marker 42]))
               (xValues (with_events no_props [marker 30; marker 42])) = []
  /\ MetricChart (with_events no_props [marker 30; marker 42])
     = EmptyState None.
Proof.
  split; [reflexivity |].
  exact (proj1 events_are_not_renderable_data
           (with_events no_props [marker 30; marker 42])
           eq_refl eq_refl eq_refl).
Defined.

(** *** Degenerate domains *)

Lemma finite_values_all_finite l : FloatSpec.all_finite (finite_values l).
Proof.
  unfold FloatSpec.all_finite, finite_values. apply Forall_forall.
  intros v Hv. apply in_flat_map in Hv. destruct Hv as (o & _ & Hv).
  destruct o as [w |]; [| contradiction].
  unfold Number_isFinite in Hv.
  destruct (is_finite w) eqn:E; [| contradiction].
  destruct Hv as [<- | []]. exact E.
Qed.

Example single_visit_domains :
  let props := one_visit 36 100.5 in
  (xMin props, xMax props) = (36, 37)
  /\ (yMin props, yMax props) = (100.5 - 18 / 100, 100.5 + 18 / 100).
Proof. split; reflexivity. Qed.

(** The factor of the code is the Number 18 / 100, and a range of 1
    leaves it as it is. *)
Lemma pad_of_unit_range : 1 * pad_ratio = eighteen_percent.
Proof. vm_compute. reflexivity. Qed.

(** From 2^53 on, adding 1 to a Number may leave it as it is: a single
    visit at x = 2^53 keeps an x-domain of width zero. *)
Example widening_at_2_53 :
  let props := one_visit 9007199254740992 100.5 in
  (xMin props, xMax props) = (9007199254740992, 9007199254740992).
Proof. reflexivity. Qed.

(** C6.  When no explicit x-range is supplied and the least and the
    greatest of the collected x-values coincide, the x-domain runs from
    that value to that value plus 1.  When the least and the greatest
    y-value coincide, the range counts as 1 and the y-domain is padded by
    18% of that range, the Number 18 / 100, at each end. *)
Theorem degenerate_domains_are_widened props :
  (xRange props = None ->
   (Math_max (allX props) =? Math_min (allX props)) = true ->
   xMin props = Math_min (allX props)
   /\ xMax props = Math_min (allX props) + 1)
  /\ ((Math_max (allY props) =? Math_min (allY props)) = true ->
      y_range props = 1
      /\ pad props = 18 / 100
      /\ yMin props = Math_min (allY props) - 18 / 100
      /\ yMax props = Math_max (allY props) + 18 / 100).
Proof.
  split.
  - intros Hr Heq. unfold xMax, xMin. rewrite Hr, Heq. split; reflexivity.
  - intros Heq.
    pose proof (FloatProofs.min_max_coincide (allY props)
                  (finite_values_all_finite _) Heq) as Hzero.
    assert (Hrange : y_range props = 1)
      by (unfold y_range; rewrite Hzero; reflexivity).
    fold eighteen_percent. unfold yMin, yMax, pad.
    rewrite Hrange, pad_of_unit_range. repeat split; reflexivity.
Qed.

Lemma degenerate_domains_are_widened_witness :
  xRange (one_visit 36 100.5) = None
  /\ (Math_max (allX (one_visit 36 100.5))
      =? Math_min (allX (one_visit 36 100.5))) = true
  /\ xMax (one_visit 36 100.5) = 36 + 1
  /\ (Math_max (allY (one_visit 36 100.5))
      =? Math_min (allY (one_visit 36 100.5))) = true
  /\ pad (one_visit 36 100.5) = 18 / 100
  /\ yMin (one_visit 36 100.5) = 100.5 - 18 / 100
  /\ yMax (one_visit 36 100.5) = 100.5 + 18 / 100.
Proof.
  split; [reflexivity |]. split; [reflexivity |]. split.
  - exact (proj2 (proj1 (degenerate_domains_are_widened (one_visit 36 100.5))
                    eq_refl eq_refl)).
  - split; [reflexivity |].
    exact (proj2 (proj2 (degenerate_domains_are_widened (one_visit 36 100.5))
                    eq_refl)).
Defined.

End ChartProofs.

(** ** Reference-table parser *)

Module GrowthTableProofs.

Import GrowthTable.

Import GrowthTableSpec.

Example parse_sample :
  fst (IntegerCells.parseGrowthCsv IntegerCells.sample_table
         IntegerCells.initial_state)
  = Ok {| table_percentiles := [str "3rd"; str "50th"];
          bySex :=
            [ (str "1", {| ages := [0; 1]%float;
                           percentiles := [ (str "3rd", [46; 50]%float);
                                            (str "50th", [50; 54]%float) ] |});
              (str "2", {| ages := [0]%float;
                           percentiles := [ (str "3rd", [45]%float);
                                            (str "50th", [49]%float) ] |}) ] |}.
Proof. vm_compute. reflexivity. Qed.

Example parse_repeated_label :
  fst (IntegerCells.parseGrowthCsv IntegerCells.repeated_label_table
         IntegerCells.initial_state)
  = Ok {| table_percentiles := [str "3rd"; str "3rd"];
          bySex :=
            [ (str "1", {| ages := [0]%float;
                           percentiles := [ (str "3rd", [5; 6]%float) ] |}) ] |}.
Proof. vm_compute. reflexivity. Qed.

Example parse_headless :
  fst (IntegerCells.parseGrowthCsv IntegerCells.headless_table
         IntegerCells.initial_state)
  = Ok empty_table.
Proof. vm_compute. reflexivity. Qed.

Example split_on_both_line_ends :
  split_lines (str "a" ++ [13; 10]%N ++ str "b" ++ [10; 13]%N ++ str "c") []
  = [str "a"; str "b"; [13%N] ++ str "c"].
Proof. reflexivity. Qed.

Example blank_lines_are_dropped :
  content_lines (str "a" ++ [10; 32; 10; 10]%N ++ str "b" ++ [10]%N)
  = [str "a"; str "b"].
Proof. reflexivity. Qed.

Example percentile_headers :
  map percentilePattern_matches
      [str "3rd"; str "50TH"; str "1St"; str "97th"; str "3"; str "rd";
       str "3rdx"; str "x3rd"; str "3 rd"; str "12ab"]
  = [true; true; true; true; false; false; false; false; false; false].
Proof. reflexivity. Qed.

Example second_header_row_wins :
  columns_of [str "group"; str "top"; str ""] [str "sex"; str ""]
  = [str "sex"; str "top"; str ""].
Proof. reflexivity. Qed.

Example month_marker_inside :
  includes month_marker (month_marker ++ str ")") = true
  /\ includes month_marker (str "age") = false.
Proof. split; reflexivity. Qed.

(** A quoted field holding a comma and a doubled quote (code unit 34). *)
Example parseCsvLine_quotes :
  parseCsvLine (str "a, " ++ [34%N] ++ str "b," ++ [34; 34]%N ++ str "c"
                ++ [34%N] ++ str " ,d")
  = [str "a"; str "b," ++ [34%N] ++ str "c"; str "d"].
Proof. vm_compute. reflexivity. Qed.

(** *** Objects as association lists *)

Lemma get_set_same {A} k (v : A) o : get k (set k v o) = Some v.
Proof.
  induction o as [| [k' v'] o IH]; cbn.
  - replace (jsstring_eqb k k) with true
      by (symmetry; apply jsstring_eqb_eq; reflexivity).
    reflexivity.
  - destruct (jsstring_eqb k k') eqn:E; cbn; rewrite E; [reflexivity | exact IH].
Qed.

Lemma get_set_other {A} k k' (v : A) o :
  k <> k' -> get k (set k' v o) = get k o.
Proof.
  intros Hne. induction o as [| [k'' v''] o IH]; cbn.
  - destruct (jsstring_eqb k k') eqn:E; [| reflexivity].
    apply jsstring_eqb_eq in E. contradiction.
  - destruct (jsstring_eqb k' k'') eqn:E'; cbn.
    + apply jsstring_eqb_eq in E'. subst k''.
      destruct (jsstring_eqb k k') eqn:E; [| reflexivity].
      apply jsstring_eqb_eq in E. contradiction.
    + destruct (jsstring_eqb k k''); [reflexivity | exact IH].
Qed.

Lemma get_In {A} k (v : A) o : get k o = Some v -> In (k, v) o.
Proof.
  induction o as [| [k' v'] o IH]; cbn; [discriminate |].
  destruct (jsstring_eqb k k') eqn:E.
  - apply jsstring_eqb_eq in E. intros [= ->]. left. congruence.
  - intros H. right. exact (IH H).
Qed.

Lemma In_set {A} k (v : A) o p :
  In p (set k v o) -> p = (k, v) \/ In p o.
Proof.
  induction o as [| [k' v'] o IH]; cbn.
  - intros [<- | []]. left. reflexivity.
  - destruct (jsstring_eqb k k') eqn:E; cbn.
    + apply jsstring_eqb_eq in E. subst k'.
      intros [<- | H]; [left; reflexivity | right; right; exact H].
    + intros [<- | H]; [right; left; reflexivity |].
      destruct (IH H) as [-> | H']; [left; reflexivity | right; right; exact H'].
Qed.

Lemma fromEntries_get {A} (entries : list (jsstring * A)) o k v :
  get k (fold_left (fun o e => set (fst e) (snd e) o) entries o) = Some v ->
  In (k, v) entries \/ get k o = Some v.
Proof.
  revert o. induction entries as [| [k' v'] entries IH]; intros o; cbn.
  - intros H. right. exact H.
  - intros H. destruct (IH _ H) as [Hin | Hget]; [left; right; exact Hin |].
    destruct (list_eq_dec N.eq_dec k k') as [-> | Hne].
    + rewrite get_set_same in Hget. injection Hget as ->.
      left. left. reflexivity.
    + rewrite get_set_other in Hget by exact Hne. right. exact Hget.
Qed.

Lemma fromEntries_empty_arrays {A} (names : list jsstring)
    (o : list (jsstring * list A)) label :
  In label names \/ get label o = Some [] ->
  get label (fold_left (fun o e => set (fst e) (snd e) o)
               (map (fun n => (n, [])) names) o) = Some [].
Proof.
  revert o. induction names as [| n names IH]; intros o; cbn.
  - intros [[] | H]. exact H.
  - intros H. apply IH.
    destruct (list_eq_dec N.eq_dec label n) as [-> | Hne].
    + right. apply get_set_same.
    + destruct H as [[Heq | Hin] | Hget].
      * congruence.
      * left. exact Hin.
      * right. rewrite get_set_other by exact Hne. exact Hget.
Qed.

(** *** The pattern object keeps no state *)

Lemma percentilePattern_test_pure s st :
  percentilePattern_test s st = (percentilePattern_matches s, st).
Proof. reflexivity. Qed.

Lemma filter_percentile_pure cols st :
  filter_percentile cols st
  = (filter (fun c => percentilePattern_matches (name c)) cols, st).
Proof.
  induction cols as [| c cols IH]; [reflexivity |].
  cbn [filter_percentile filter].
  rewrite percentilePattern_test_pure, IH. reflexivity.
Qed.

Lemma findIndex_from_none {A} (p : A -> bool) l i :
  (forall a, In a l -> p a = false) -> findIndex_from i p l = None.
Proof.
  revert i. induction l as [| a l IH]; intros i H; [reflexivity |].
  cbn. rewrite (H a (or_introl eq_refl)). apply IH.
  intros b Hb. apply H. right. exact Hb.
Qed.

(** *** Lengths of the parallel arrays *)

Lemma occurrences_NoDup label names :
  NoDup names -> In label names -> occurrences label names = 1%nat.
Proof.
  unfold occurrences. intros Hnd. induction Hnd as [| n names Hn Hnd IH].
  - intros [].
  - intros Hin. cbn. destruct (jsstring_eqb label n) eqn:E.
    + apply jsstring_eqb_eq in E. subst n. cbn. f_equal.
      apply length_zero_iff_nil.
      destruct (filter (jsstring_eqb label) names) as [| b l] eqn:F;
        [reflexivity |].
      assert (Hb : In b (filter (jsstring_eqb label) names))
        by (rewrite F; left; reflexivity).
      apply filter_In in Hb. destruct Hb as [Hb Eb].
      apply jsstring_eqb_eq in Eb. subst b. contradiction.
    + destruct Hin as [-> | Hin]; [| exact (IH Hin)].
      assert (jsstring_eqb label label = true)
        by (apply jsstring_eqb_eq; reflexivity).
      congruence.
Qed.

Section Properties.

Variable Number_toString : float -> jsstring.
Variable Number_parseFloat : option jsstring -> float.

Lemma push_percentiles_lengths names cells cols pcts :
  incl (map name cols) names ->
  (forall label, In label names -> exists values, get label pcts = Some values) ->
  exists pcts',
    push_percentiles Number_parseFloat cells cols pcts = Ok pcts'
    /\ forall label, In label names ->
         exists values values',
           get label pcts = Some values /\ get label pcts' = Some values'
           /\ length values'
              = (length values + occurrences label (map name cols))%nat.
Proof.
  revert pcts. induction cols as [| column cols IH]; intros pcts Hincl Hall.
  - exists pcts. split; [reflexivity |]. intros label Hl.
    destruct (Hall label Hl) as [values Hv]. exists values, values.
    cbn. rewrite Nat.add_0_r. auto.
  - cbn [push_percentiles].
    assert (Hc : In (name column) names) by (apply Hincl; left; reflexivity).
    destruct (Hall _ Hc) as [values Hv]. rewrite Hv.
    set (v := if Number_isFinite
                   (Number_parseFloat (nth_error cells (index column)))
              then Number_parseFloat (nth_error cells (index column))
              else nan).
    set (pcts1 := set (name column) (values ++ [v]) pcts).
    assert (Hall1 : forall label, In label names ->
                      exists values, get label pcts1 = Some values).
    { intros label Hl. unfold pcts1.
      destruct (list_eq_dec N.eq_dec label (name column)) as [-> | Hne].
      - rewrite get_set_same. eauto.
      - rewrite get_set_other by exact Hne. apply Hall. exact Hl. }
    destruct (IH pcts1 (fun n Hn => Hincl n (or_intror Hn)) Hall1)
      as (pcts' & Hpush & Hlen).
    exists pcts'. split; [exact Hpush |]. intros label Hl.
    destruct (Hlen label Hl) as (values1 & values' & H1 & H' & Hn).
    destruct (Hall label Hl) as [values0 H0].
    exists values0, values'. split; [exact H0 |]. split; [exact H' |].
    rewrite Hn. unfold occurrences. cbn [map filter]. unfold pcts1 in H1.
    destruct (list_eq_dec N.eq_dec label (name column)) as [-> | Hne].
    + rewrite get_set_same in H1. injection H1 as <-.
      rewrite Hv in H0. injection H0 as <-.
      replace (jsstring_eqb (name column) (name column)) with true
        by (symmetry; apply jsstring_eqb_eq; reflexivity).
      rewrite length_app. cbn. lia.
    + rewrite get_set_other in H1 by exact Hne.
      rewrite H0 in H1. injection H1 as <-.
      destruct (jsstring_eqb label (name column)) eqn:E;
        [apply jsstring_eqb_eq in E; contradiction | reflexivity].
Qed.

Lemma new_entry_ok (cols : list Column) :
  arrays_ok (map name cols) 0
    (Object_fromEntries (map (fun column => (name column, [])) cols)).
Proof.
  intros label Hl. exists []. split; [| cbn; lia].
  unfold Object_fromEntries.
  rewrite <- (map_map name (fun n => (n, @nil float))).
  apply fromEntries_empty_arrays. left. exact Hl.
Qed.

Lemma parse_row_ok sexIndex monthIndex cols bySex line :
  map_ok (map name cols) bySex ->
  exists bySex',
    parse_row Number_toString Number_parseFloat sexIndex monthIndex cols
      bySex line = Ok bySex'
    /\ map_ok (map name cols) bySex'.
Proof.
  intros Hok. unfold parse_row.
  destruct (negb (Number_isFinite (Number_parseInt (nth_error (parseCsvLine line) sexIndex)))
            || negb (Number_isFinite (Number_parseInt (nth_error (parseCsvLine line) monthIndex)))).
  { exists bySex. split; [reflexivity | exact Hok]. }
  set (key := Number_toString _).
  set (entry := match get key bySex with Some entry => entry | None => _ end).
  assert (Hentry : curve_ok (map name cols) entry).
  { unfold entry. destruct (get key bySex) as [e |] eqn:G.
    - apply (Hok key). apply get_In. exact G.
    - apply new_entry_ok. }
  destruct (push_percentiles_lengths (map name cols) (parseCsvLine line) cols
              (percentiles entry) (incl_refl _))
    as (pcts' & Hpush & Hlen).
  { intros label Hl. destruct (Hentry label Hl) as (values & Hv & _). eauto. }
  rewrite Hpush. cbn [bind]. eexists. split; [reflexivity |].
  intros key' curve' Hin. apply In_set in Hin. destruct Hin as [E | Hin].
  - injection E as _ ->. intros label Hl. cbn [ages percentiles].
    destruct (Hlen label Hl) as (values & values' & Hv & Hv' & Hn).
    destruct (Hentry label Hl) as (values0 & Hv0 & Hn0).
    rewrite Hv0 in Hv. injection Hv as <-.
    exists values'. split; [exact Hv' |].
    rewrite Hn, Hn0, length_app. cbn. lia.
  - exact (Hok key' curve' Hin).
Qed.

Lemma parse_rows_ok sexIndex monthIndex cols bySex lines :
  map_ok (map name cols) bySex ->
  exists bySex',
    parse_rows Number_toString Number_parseFloat sexIndex monthIndex cols
      bySex lines = Ok bySex'
    /\ map_ok (map name cols) bySex'.
Proof.
  revert bySex. induction lines as [| line lines IH]; intros bySex Hok.
  - exists bySex. split; [reflexivity | exact Hok].
  - cbn [parse_rows].
    destruct (parse_row_ok sexIndex monthIndex cols bySex line Hok)
      as (bySex1 & H1 & Hok1).
    rewrite H1. cbn [bind]. exact (IH bySex1 Hok1).
Qed.

Lemma empty_table_ok : table_ok empty_table.
Proof. intros key curve H. discriminate. Qed.

(** The parser returns a table, leaves the module state as it was, and
    its result does not depend on that state. *)
Lemma parseGrowthCsv_total content st :
  exists table,
    parseGrowthCsv Number_toString Number_parseFloat content st = (Ok table, st)
    /\ table_ok table
    /\ forall st',
         parseGrowthCsv Number_toString Number_parseFloat content st'
         = (Ok table, st').
Proof.
  unfold parseGrowthCsv.
  destruct (content_lines content) as [| line0 [| line1 [| row rows]]];
    try (exists empty_table; split; [reflexivity |];
         split; [exact empty_table_ok | reflexivity]).
  cbn [length Nat.ltb Nat.leb].
  destruct (findIndex _ _) as [sexIndex |];
    [| exists empty_table; split; [reflexivity |];
       split; [exact empty_table_ok | reflexivity]].
  destruct (findIndex _ _) as [monthIndex |];
    [| exists empty_table; split; [reflexivity |];
       split; [exact empty_table_ok | reflexivity]].
  set (all_columns := mapi _ _).
  set (cols := filter (fun c => percentilePattern_matches (name c)) all_columns).
  destruct (parse_rows_ok sexIndex monthIndex cols [] (row :: rows))
    as (bySex' & Hrows & Hok).
  { intros key curve []. }
  exists {| table_percentiles := map name cols;
            bySex := Object_fromEntries bySex' |}.
  split; [| split].
  - rewrite filter_percentile_pure. fold cols. rewrite Hrows. reflexivity.
  - intros key curve Hget. cbn [GrowthTable.bySex table_percentiles] in *.
    apply fromEntries_get in Hget. destruct Hget as [Hin | Hnone];
      [exact (Hok key curve Hin) | discriminate].
  - intros st'. rewrite filter_percentile_pure. fold cols. rewrite Hrows.
    reflexivity.
Qed.

(** C4.  The parser never throws.  If no effective column header equals
    the sex marker, or none contains the age-in-months marker, it returns
    the table with no percentile label and no sex.  Parsing the same text
    again, in whatever state the first parse left the module, gives an
    equal result. *)
Theorem parseGrowthCsv_empty_without_columns content st :
  (exists table,
      fst (parseGrowthCsv Number_toString Number_parseFloat content st)
      = Ok table)
  /\ ((~ In sex_marker (effective_columns content)
       \/ (forall c, In c (effective_columns content) ->
                     includes month_marker c = false)) ->
      fst (parseGrowthCsv Number_toString Number_parseFloat content st)
      = Ok {| table_percentiles := []; bySex := [] |})
  /\ fst (parseGrowthCsv Number_toString Number_parseFloat content
            (snd (parseGrowthCsv Number_toString Number_parseFloat content st)))
     = fst (parseGrowthCsv Number_toString Number_parseFloat content st)
  /\ (forall st',
         fst (parseGrowthCsv Number_toString Number_parseFloat content st')
         = fst (parseGrowthCsv Number_toString Number_parseFloat content st)).
Proof.
  destruct (parseGrowthCsv_total content st) as (table & Hst & _ & Hany).
  split; [| split; [| split]].
  - exists table. rewrite Hst. reflexivity.
  - intros Hmissing. clear table Hst Hany.
    unfold parseGrowthCsv, effective_columns in *.
    destruct (content_lines content) as [| line0 [| line1 [| row rows]]];
      try reflexivity.
    cbn [length Nat.ltb Nat.leb].
    set (columns := columns_of (header_top line0) (parseCsvLine line1)) in *.
    destruct Hmissing as [Hsex | Hmonth].
    + unfold findIndex at 1.
      rewrite (findIndex_from_none (fun name => jsstring_eqb name sex_marker)
                 columns 0); [reflexivity |].
      intros a Ha. destruct (jsstring_eqb a sex_marker) eqn:E; [| reflexivity].
      apply jsstring_eqb_eq in E. subst a. contradiction.
    + unfold findIndex at 2.
      rewrite (findIndex_from_none (fun name => includes month_marker name)
                 columns 0) by exact Hmonth.
      destruct (findIndex _ columns); reflexivity.
  - rewrite (Hany (snd _)), Hst. reflexivity.
  - intros st'. rewrite (Hany st'), Hst. reflexivity.
Qed.

(** C5 (amended).  Under every sex of the output and for every label of
    the percentile list, the stored array has the length of that sex's
    age array times the number of percentile columns that carry the
    label; so the arrays are parallel to the ages whenever the labels of
    the table are pairwise distinct. *)
Theorem percentile_arrays_lengths content st table key curve label :
  fst (parseGrowthCsv Number_toString Number_parseFloat content st) = Ok table ->
  get key (bySex table) = Some curve ->
  In label (table_percentiles table) ->
  exists values,
    get label (percentiles curve) = Some values
    /\ length values
       = (occurrences label (table_percentiles table) * length (ages curve))%nat
    /\ (NoDup (table_percentiles table) ->
        length values = length (ages curve)).
Proof.
  intros Hparse Hkey Hlabel.
  destruct (parseGrowthCsv_total content st) as (table' & Hst & Hok & _).
  rewrite Hst in Hparse. cbn [fst] in Hparse. injection Hparse as ->.
  destruct (Hok key curve Hkey label Hlabel) as (values & Hv & Hn).
  exists values. split; [exact Hv |]. split; [exact Hn |].
  intros Hnd. rewrite Hn, (occurrences_NoDup _ _ Hnd Hlabel). lia.
Qed.

End Properties.

Lemma parseGrowthCsv_empty_without_columns_witness :
  ~ In sex_marker (effective_columns IntegerCells.headless_table)
  /\ fst (IntegerCells.parseGrowthCsv IntegerCells.headless_table
            IntegerCells.initial_state)
     = Ok {| table_percentiles := []; bySex := [] |}.
Proof.
  assert (H : ~ In sex_marker (effective_columns IntegerCells.headless_table)).
  { vm_compute. intros [H | [H | [H | []]]]; discriminate. }
  split; [exact H |].
  exact (proj1 (proj2 (parseGrowthCsv_empty_without_columns
                         IntegerCells.Number_toString
                         IntegerCells.Number_parseFloat
                         IntegerCells.headless_table
                         IntegerCells.initial_state))
               (or_introl H)).
Defined.

(** Two columns headed "3rd": one row gives one age and two values. *)
Lemma repeated_label_breaks_parallel_arrays : ~ arrays_always_parallel.
Proof.
  intros H.
  specialize (H IntegerCells.Number_toString IntegerCells.Number_parseFloat
                IntegerCells.repeated_label_table IntegerCells.initial_state
                _ (str "1") _ (str "3rd") [5; 6]%float parse_repeated_label
                eq_refl (or_introl eq_refl) eq_refl).
  discriminate H.
Qed.

Lemma percentile_arrays_lengths_witness :
  In (str "50th") [str "3rd"; str "50th"]
  /\ exists values,
       get (str "50th") (percentiles sample_curve_1) = Some values
       /\ length values = length (ages sample_curve_1).
Proof.
  assert (Hin : In (str "50th") [str "3rd"; str "50th"])
    by (right; left; reflexivity).
  split; [exact Hin |].
  destruct (percentile_arrays_lengths
              IntegerCells.Number_toString IntegerCells.Number_parseFloat
              IntegerCells.sample_table IntegerCells.initial_state
              _ (str "1") sample_curve_1 (str "50th")
              parse_sample eq_refl Hin)
    as (values & Hv & _ & Hnd).
  exists values. split; [exact Hv |]. apply Hnd.
  repeat constructor; cbn; intuition discriminate.
Defined.

End GrowthTableProofs.

(** ** Calendar order and the age in months *)

Module DateProofs.

Import ResidentIdSpec ResidentIdProofs DateSpec.

Lemma month_table :
  forallb (fun L => forallb (fun m => month_table_check L m) (range 0 12))
          (range 0 2) = true.
Proof. vm_compute. reflexivity. Qed.

Lemma month_start_next L m :
  0 <= L <= 1 -> 0 <= m <= 11 ->
  month_start L (m + 1) = month_start L m + month_length L (m + 1)
  /\ 1 <= month_length L (m + 1).
Proof.
  intros HL Hm.
  assert (BL : 0 <= L < 0 + Z.of_nat 2) by lia.
  assert (Bm : 0 <= m < 0 + Z.of_nat 12) by lia.
  pose proof (forallb_range _ _ _ m (forallb_range _ _ _ L month_table BL) Bm)
    as T.
  unfold month_table_check in T. apply andb_true_iff in T.
  rewrite Z.eqb_eq, Z.leb_le in T. exact T.
Qed.

Lemma month_start_mono L m1 m2 :
  0 <= L <= 1 -> 0 <= m1 -> m1 <= m2 -> m2 <= 12 ->
  month_start L m1 <= month_start L m2.
Proof.
  intros HL H1 H12 H2.
  replace m2 with (m1 + Z.of_nat (Z.to_nat (m2 - m1))) by lia.
  assert (Hk : m1 + Z.of_nat (Z.to_nat (m2 - m1)) <= 12) by lia.
  induction (Z.to_nat (m2 - m1)) as [| k IH].
  - rewrite Z.add_0_r. lia.
  - rewrite Nat2Z.inj_succ in *.
    replace (m1 + Z.succ (Z.of_nat k)) with (m1 + Z.of_nat k + 1) by lia.
    destruct (month_start_next L (m1 + Z.of_nat k) HL ltac:(lia)) as [E P].
    rewrite E. specialize (IH ltac:(lia)). lia.
Qed.

Lemma yearday_month_table :
  forallb (fun L => forallb (fun w => yearday_month_check L w) (range 0 366))
          (range 0 2) = true.
Proof. vm_compute. reflexivity. Qed.

Lemma month_of_yearday_spec L w :
  0 <= L <= 1 -> 0 <= w < 365 + L ->
  0 <= month_of_yearday L w <= 11
  /\ month_start L (month_of_yearday L w) <= w
     < month_start L (month_of_yearday L w + 1).
Proof.
  intros HL Hw.
  assert (BL : 0 <= L < 0 + Z.of_nat 2) by lia.
  assert (Bw : 0 <= w < 0 + Z.of_nat 366) by lia.
  pose proof (forallb_range _ _ _ w
                (forallb_range _ _ _ L yearday_month_table BL) Bw) as T.
  unfold yearday_month_check in T. apply orb_true_iff in T.
  destruct T as [T | T]; [apply Z.leb_le in T; lia |].
  rewrite !andb_true_iff, !Z.leb_le, Z.ltb_lt in T. lia.
Qed.

Lemma leap_flag_range y : 0 <= InLeapYear_of_year y <= 1.
Proof. rewrite leap_flag. destruct (is_leap y); lia. Qed.

(** Every day is day [d] of month [m] of year [y], for its own [y], [m]
    and [d]. *)
Lemma date_decompose t :
  let L := InLeapYear_of_year (getFullYear t) in
  0 <= getMonth t <= 11
  /\ 1 <= getDate t <= month_length L (getMonth t + 1)
  /\ t = DayFromYear (getFullYear t) + month_start L (getMonth t)
         + getDate t - 1.
Proof.
  cbv zeta. unfold getFullYear, getMonth, getDate, DateFromDay, MonthFromDay,
    InLeapYear, DayWithinYear.
  set (y := YearFromDay t). set (L := InLeapYear_of_year y).
  set (w := t - DayFromYear y).
  pose proof (YearFromDay_spec t) as Hy. fold y in Hy.
  rewrite DayFromYear_step, DaysInYear_leap in Hy. fold L in Hy.
  pose proof (leap_flag_range y) as HL. fold L in HL.
  destruct (month_of_yearday_spec L w HL ltac:(unfold w; lia)) as [Hm Hw].
  destruct (month_start_next L (month_of_yearday L w) HL Hm) as [E P].
  unfold w in *. lia.
Qed.

Lemma YearFromDay_mono t1 t2 : t1 <= t2 -> YearFromDay t1 <= YearFromDay t2.
Proof.
  intros H. pose proof (YearFromDay_spec t1) as H1.
  pose proof (YearFromDay_spec t2) as H2.
  destruct (Z_le_gt_dec (YearFromDay t1) (YearFromDay t2)) as [Hle | Hgt];
    [exact Hle | exfalso].
  assert (DayFromYear (YearFromDay t2 + 1) <= DayFromYear (YearFromDay t1)).
  { destruct (Z.eq_dec (YearFromDay t2 + 1) (YearFromDay t1)) as [-> | Hne];
      [lia |]. apply Z.lt_le_incl, DayFromYear_lt. lia. }
  lia.
Qed.

(** Later days have later (year, month, day), in that order. *)
Lemma date_order t1 t2 :
  t1 <= t2 ->
  12 * getFullYear t1 + getMonth t1 < 12 * getFullYear t2 + getMonth t2
  \/ (getFullYear t1 = getFullYear t2 /\ getMonth t1 = getMonth t2
      /\ getDate t1 <= getDate t2).
Proof.
  intros H.
  pose proof (date_decompose t1) as D1. pose proof (date_decompose t2) as D2.
  cbv zeta in D1, D2.
  pose proof (YearFromDay_mono t1 t2 H) as Hy. fold (getFullYear t1) in Hy.
  fold (getFullYear t2) in Hy.
  destruct (Z.eq_dec (getFullYear t1) (getFullYear t2)) as [Ey | Ny];
    [| left; lia].
  rewrite Ey in D1.
  set (L := InLeapYear_of_year (getFullYear t2)) in *.
  pose proof (leap_flag_range (getFullYear t2)) as HL. fold L in HL.
  destruct (Z_lt_le_dec (getMonth t2) (getMonth t1)) as [Hm | Hm].
  - exfalso.
    destruct (month_start_next L (getMonth t2) HL ltac:(lia)) as [E P].
    pose proof (month_start_mono L (getMonth t2 + 1) (getMonth t1) HL
                  ltac:(lia) ltac:(lia) ltac:(lia)).
    lia.
  - destruct (Z.eq_dec (getMonth t1) (getMonth t2)) as [Em | Nm]; [| left; lia].
    right. rewrite Em in D1. lia.
Qed.

Lemma getAgeMonths_same b : getAgeMonths b b = 0.
Proof. unfold getAgeMonths. rewrite Z.ltb_irrefl. lia. Qed.

Lemma getAgeMonths_mono b t1 t2 :
  t1 <= t2 -> getAgeMonths b t1 <= getAgeMonths b t2.
Proof.
  intros H. unfold getAgeMonths.
  destruct (date_order t1 t2 H) as [Hlt | (Ey & Em & Ed)].
  - destruct (getDate t1 <? getDate b), (getDate t2 <? getDate b); lia.
  - rewrite Ey, Em.
    destruct (Z.ltb_spec (getDate t1) (getDate b)),
             (Z.ltb_spec (getDate t2) (getDate b)); lia.
Qed.

Lemma getAgeMonths_negative b t : getAgeMonths b t < 0 <-> t < b.
Proof.
  split.
  - intros Hneg. destruct (Z_lt_le_dec t b) as [Hlt | Hle]; [exact Hlt |].
    pose proof (getAgeMonths_mono b b t Hle) as H.
    rewrite getAgeMonths_same in H. lia.
  - intros Hlt. unfold getAgeMonths.
    destruct (date_order t b ltac:(lia)) as [Hlex | (Ey & Em & Ed)].
    + destruct (getDate t <? getDate b); lia.
    + assert (getDate t <> getDate b).
      { intros Ed'. pose proof (date_decompose t) as D1.
        pose proof (date_decompose b) as D2. cbv zeta in D1, D2.
        rewrite Ey, Em, Ed' in D1. lia. }
      destruct (Z.ltb_spec (getDate t) (getDate b)); lia.
Qed.

(** X1.  The age in months never decreases as the reference day moves
    later; it is zero on the day of birth, and it is negative exactly
    when the reference day is before the day of birth. *)
Theorem getAgeMonths_grows_with_time b t1 t2 :
  (t1 <= t2 -> getAgeMonths b t1 <= getAgeMonths b t2)
  /\ getAgeMonths b b = 0
  /\ (getAgeMonths b t1 < 0 <-> t1 < b).
Proof.
  split; [apply getAgeMonths_mono |].
  split; [apply getAgeMonths_same | apply getAgeMonths_negative].
Qed.

Lemma getAgeMonths_grows_with_time_witness :
  newDate 2024 0 31 <= newDate 2024 1 29
  /\ getAgeMonths (newDate 2020 0 31) (newDate 2024 0 31)
     <= getAgeMonths (newDate 2020 0 31) (newDate 2024 1 29).
Proof.
  assert (H : newDate 2024 0 31 <= newDate 2024 1 29)
    by (vm_compute; discriminate).
  split; [exact H |].
  exact (proj1 (getAgeMonths_grows_with_time (newDate 2020 0 31)
                  (newDate 2024 0 31) (newDate 2024 1 29)) H).
Defined.

End DateProofs.

(** ** Accepted identifiers, the sex key and the mask *)

Module IdentifierProofs.

Import ResidentIdSpec ResidentIdProofs DateProofs Identifier.

Lemma digit_at_range digits i :
  Forall (fun c => isDigit c = true) digits -> 0 <= digit_at digits i <= 9.
Proof.
  intros Hall. unfold digit_at. apply digit_value_range.
  destruct (nth_in_or_default i digits 48%N) as [Hin | ->]; [| reflexivity].
  rewrite Forall_forall in Hall. exact (Hall _ Hin).
Qed.

Lemma two_digits_range digits i :
  Forall (fun c => isDigit c = true) digits -> 0 <= two_digits digits i <= 99.
Proof.
  intros Hall. unfold two_digits.
  pose proof (digit_at_range digits i Hall).
  pose proof (digit_at_range digits (S i) Hall). lia.
Qed.

Lemma age_in_months_getAgeMonths y m d ref :
  real_date y m d ->
  age_in_months y m d ref = getAgeMonths (newDate y (m - 1) d) ref
  /\ getFullYear (newDate y (m - 1) d) = y.
Proof.
  intros [Hm Hd]. pose proof (days_in_month_le_31 y m) as H31.
  pose proof (readback_real_date y m d Hm ltac:(lia)) as Hrb.
  replace (d <=? days_in_month y m) with true in Hrb
    by (symmetry; apply Z.leb_le; lia).
  rewrite !andb_true_iff, !Z.eqb_eq in Hrb. destruct Hrb as [[Hy Hmo] Hda].
  split; [| exact Hy].
  unfold age_in_months, getAgeMonths. rewrite Hy, Hmo, Hda.
  destruct (getDate ref <? d); lia.
Qed.

Lemma parseResidentId_length value ref info :
  parseResidentId value ref = Some info ->
  length (normalizeResidentId value) = 13%nat.
Proof.
  unfold parseResidentId.
  destruct (Nat.eqb (length (normalizeResidentId value)) 13) eqn:E.
  - intros _. apply Nat.eqb_eq. exact E.
  - discriminate.
Qed.

(** What an accepted identifier is. *)
Lemma parseResidentId_Some value ref info :
  parseResidentId value ref = Some info ->
  let digits := normalizeResidentId value in
  length digits = 13%nat
  /\ exists base,
       century_of (code digits) = Some base
       /\ real_date (base + YY digits) (MM digits) (DD digits)
       /\ birth info = newDate (base + YY digits) (MM digits - 1) (DD digits)
       /\ ageMonths info = getAgeMonths (birth info) ref
       /\ 0 <= ageMonths info.
Proof.
  intros H. cbv zeta. pose proof (parseResidentId_length _ _ _ H) as Hlen.
  split; [exact Hlen |].
  rewrite (parseResidentId_digits value ref _ eq_refl Hlen) in H.
  destruct (century_of (code (normalizeResidentId value))) as [base |];
    [| discriminate].
  cbv zeta in H. exists base. split; [reflexivity |].
  destruct (real_dateb _ _ _) eqn:Hreal; [| discriminate].
  apply real_dateb_spec in Hreal. split; [exact Hreal |].
  destruct (age_in_months_getAgeMonths _ _ _ ref Hreal) as [Hage _].
  destruct (Z.ltb_spec (age_in_months (base + YY (normalizeResidentId value))
                          (MM (normalizeResidentId value))
                          (DD (normalizeResidentId value)) ref) 0);
    [discriminate |].
  injection H as <-. cbn [birth ageMonths]. rewrite <- Hage. auto.
Qed.

(** X2.  What [parseResidentId] returns is consistent: the age is not
    negative, it is the age in months of the returned birth date at the
    reference date, the birth date is not after the reference date, and
    the birth year lies in 1900..2099. *)
Theorem parseResidentId_result_sound value ref info :
  parseResidentId value ref = Some info ->
  0 <= ageMonths info
  /\ ageMonths info = getAgeMonths (birth info) ref
  /\ birth info <= ref
  /\ 1900 <= getFullYear (birth info) <= 2099.
Proof.
  intros H. destruct (parseResidentId_Some _ _ _ H)
    as (Hlen & base & Hc & Hreal & Hb & Ha & H0).
  split; [exact H0 |]. split; [exact Ha |]. split.
  - destruct (Z_le_gt_dec (birth info) ref) as [Hle | Hgt]; [exact Hle |].
    assert (getAgeMonths (birth info) ref < 0)
      by (apply getAgeMonths_negative; lia). lia.
  - rewrite Hb. destruct (age_in_months_getAgeMonths _ _ _ ref Hreal) as [_ Hy].
    rewrite Hy. apply century_of_cases in Hc.
    pose proof (two_digits_range (normalizeResidentId value) 0
                  (normalize_all_digits value)) as Hyy.
    unfold YY. cbn [In] in Hc. lia.
Qed.

Lemma parseResidentId_result_sound_witness :
  parseResidentId (str "990101-1234567") (newDate 2024 5 15)
  = Some {| birth := newDate 1999 0 1; ageMonths := 305 |}
  /\ newDate 1999 0 1 <= newDate 2024 5 15.
Proof.
  split; [exact parse_990101 |].
  exact (proj1 (proj2 (proj2 (parseResidentId_result_sound
           (str "990101-1234567") (newDate 2024 5 15)
           {| birth := newDate 1999 0 1; ageMonths := 305 |} parse_990101)))).
Defined.

(** X3.  An identifier accepted at one reference date is accepted at
    every later one, with the same birth date and an age that is not
    smaller. *)
Theorem parseResidentId_monotone value ref1 ref2 info1 :
  parseResidentId value ref1 = Some info1 ->
  ref1 <= ref2 ->
  exists info2,
    parseResidentId value ref2 = Some info2
    /\ birth info2 = birth info1
    /\ ageMonths info1 <= ageMonths info2.
Proof.
  intros H Hle. destruct (parseResidentId_Some _ _ _ H)
    as (Hlen & base & Hc & Hreal & Hb & Ha & H0).
  rewrite (parseResidentId_digits value ref2 _ eq_refl Hlen), Hc. cbv zeta.
  apply real_dateb_spec in Hreal. rewrite Hreal.
  apply real_dateb_spec in Hreal.
  destruct (age_in_months_getAgeMonths _ _ _ ref2 Hreal) as [Hage _].
  rewrite Hage, <- Hb.
  pose proof (getAgeMonths_mono (birth info1) ref1 ref2 Hle) as Hm.
  destruct (Z.ltb_spec (getAgeMonths (birth info1) ref2) 0); [lia |].
  eexists. split; [reflexivity |]. cbn [birth ageMonths].
  split; [reflexivity | lia].
Qed.

Lemma parseResidentId_monotone_witness :
  newDate 2024 5 15 <= newDate 2025 0 1
  /\ exists info,
       parseResidentId (str "990101-1234567") (newDate 2025 0 1) = Some info
       /\ birth info = newDate 1999 0 1
       /\ 305 <= ageMonths info.
Proof.
  assert (H : newDate 2024 5 15 <= newDate 2025 0 1)
    by (vm_compute; discriminate).
  split; [exact H |].
  exact (parseResidentId_monotone (str "990101-1234567") (newDate 2024 5 15)
           (newDate 2025 0 1)
           {| birth := newDate 1999 0 1; ageMonths := 305 |} parse_990101 H).
Defined.

(** X4.  An identifier of thirteen digits with a known century code and a
    real birth date is rejected exactly at the reference dates before its
    birth date; at the birth date itself it is accepted, with age 0. *)
Theorem parseResidentId_born_by_reference value ref digits base :
  normalizeResidentId value = digits ->
  length digits = 13%nat ->
  century_of (code digits) = Some base ->
  real_date (base + YY digits) (MM digits) (DD digits) ->
  let birthday := newDate (base + YY digits) (MM digits - 1) (DD digits) in
  (parseResidentId value ref = None <-> ref < birthday)
  /\ parseResidentId value birthday
     = Some {| birth := birthday; ageMonths := 0 |}.
Proof.
  intros Hn Hlen Hc Hreal. cbv zeta.
  set (birthday := newDate (base + YY digits) (MM digits - 1) (DD digits)).
  assert (Hparse : forall r,
             parseResidentId value r =
             if getAgeMonths birthday r <? 0 then None
             else Some {| birth := birthday;
                          ageMonths := getAgeMonths birthday r |}).
  { intros r. rewrite (parseResidentId_digits value r digits Hn Hlen), Hc.
    cbv zeta. pose proof Hreal as Hb. apply real_dateb_spec in Hb. rewrite Hb.
    destruct (age_in_months_getAgeMonths _ _ _ r Hreal) as [-> _].
    reflexivity. }
  split.
  - rewrite Hparse. rewrite <- getAgeMonths_negative.
    destruct (Z.ltb_spec (getAgeMonths birthday ref) 0);
      split; intros; try reflexivity; try lia; discriminate.
  - rewrite Hparse, getAgeMonths_same. reflexivity.
Qed.

Lemma parseResidentId_born_by_reference_witness :
  real_date 2024 7 1
  /\ newDate 2024 5 15 < newDate 2024 6 1
  /\ parseResidentId (str "240701-3234567") (newDate 2024 5 15) = None
  /\ parseResidentId (str "240701-3234567") (newDate 2024 6 1)
     = Some {| birth := newDate 2024 6 1; ageMonths := 0 |}.
Proof.
  assert (Hreal : real_date 2024 7 1) by (vm_compute; intuition discriminate).
  assert (Hlt : newDate 2024 5 15 < newDate 2024 6 1) by reflexivity.
  split; [exact Hreal |]. split; [exact Hlt |]. split.
  - exact (proj2 (proj1 (parseResidentId_born_by_reference
             (str "240701-3234567") (newDate 2024 5 15) (str "2407013234567")
             2000 eq_refl eq_refl eq_refl Hreal)) Hlt).
  - exact (proj2 (parseResidentId_born_by_reference
             (str "240701-3234567") (newDate 2024 5 15) (str "2407013234567")
             2000 eq_refl eq_refl eq_refl Hreal)).
Defined.

(** *** The sex key *)

Lemma code_digit_cases c :
  isDigit c = true ->
  existsb (jsstring_eqb [c]) [str "1"; str "3"; str "5"; str "7"]
  = Z.odd (Z.of_N (digit_value c)) && negb (Z.of_N (digit_value c) =? 9)
  /\ existsb (jsstring_eqb [c]) [str "2"; str "4"; str "6"; str "8"]
     = Z.even (Z.of_N (digit_value c)) && negb (Z.of_N (digit_value c) =? 0).
Proof.
  intros Hc. apply isDigit_cases in Hc. cbn [In] in Hc.
  repeat (destruct Hc as [<- | Hc]; [split; reflexivity |]). contradiction.
Qed.

Lemma seven_digits (digits : jsstring) :
  (7 <= length digits)%nat ->
  exists c0 c1 c2 c3 c4 c5 c6 rest,
    digits = c0 :: c1 :: c2 :: c3 :: c4 :: c5 :: c6 :: rest.
Proof.
  intros H.
  do 7 (destruct digits as [| ? digits]; [cbn in H; lia |]).
  do 7 eexists. exists digits. reflexivity.
Qed.

Lemma getSexKey_digits value digits :
  normalizeResidentId value = digits ->
  (7 <= length digits)%nat ->
  getSexKey value =
    if Z.odd (code digits) && negb (code digits =? 9) then Some (str "1")
    else if Z.even (code digits) && negb (code digits =? 0) then Some (str "2")
    else None.
Proof.
  intros Hn Hlen. pose proof (normalize_all_digits value) as Hall.
  rewrite Hn in Hall. unfold getSexKey. rewrite Hn.
  replace (Nat.ltb (length digits) 7) with false
    by (symmetry; apply Nat.ltb_ge; exact Hlen).
  destruct (seven_digits digits Hlen)
    as (c0 & c1 & c2 & c3 & c4 & c5 & c6 & rest & ->).
  repeat match goal with
         | H : Forall _ (_ :: _) |- _ => inversion_clear H
         end.
  unfold code, digit_at. cbn [nth slice Nat.sub firstn skipn].
  destruct (code_digit_cases c6 ltac:(assumption)) as [-> ->]. reflexivity.
Qed.

(** X5.  Every identifier that [parseResidentId] accepts has a sex key:
    "1" when its century code is odd (1, 3, 5, 7) and "2" when it is even
    (2, 4, 6, 8). *)
Theorem getSexKey_of_accepted value ref info :
  parseResidentId value ref = Some info ->
  let c := code (normalizeResidentId value) in
  (In c [1; 3; 5; 7] /\ getSexKey value = Some (str "1"))
  \/ (In c [2; 4; 6; 8] /\ getSexKey value = Some (str "2")).
Proof.
  intros H. cbv zeta. destruct (parseResidentId_Some _ _ _ H)
    as (Hlen & base & Hc & _).
  rewrite (getSexKey_digits value _ eq_refl) by lia.
  apply century_of_cases in Hc. cbn [In] in Hc |- *.
  destruct Hc as [[_ Hc] | [_ Hc]];
    repeat (destruct Hc as [<- | Hc]; [cbn; intuition lia |]); contradiction.
Qed.

Lemma getSexKey_of_accepted_witness :
  parseResidentId (str "990101-1234567") (newDate 2024 5 15)
  = Some {| birth := newDate 1999 0 1; ageMonths := 305 |}
  /\ getSexKey (str "990101-1234567") = Some (str "1").
Proof.
  split; [exact parse_990101 |].
  destruct (getSexKey_of_accepted (str "990101-1234567") (newDate 2024 5 15)
              {| birth := newDate 1999 0 1; ageMonths := 305 |} parse_990101)
    as [[_ H] | [_ H]]; [exact H | discriminate H].
Defined.

(** *** The mask *)

Lemma mask_of_seven value c0 c1 c2 c3 c4 c5 c6 rest :
  normalizeResidentId value = c0 :: c1 :: c2 :: c3 :: c4 :: c5 :: c6 :: rest ->
  maskResidentId value
  = [c0; c1; c2; c3; c4; c5; 45; c6; 42; 42; 42; 42; 42; 42]%N
  /\ normalizeResidentId (maskResidentId value) = [c0; c1; c2; c3; c4; c5; c6].
Proof.
  intros Hn. pose proof (normalize_all_digits value) as Hall.
  rewrite Hn in Hall.
  assert (E : maskResidentId value
              = [c0; c1; c2; c3; c4; c5; 45; c6; 42; 42; 42; 42; 42; 42]%N).
  { unfold maskResidentId. rewrite Hn. reflexivity. }
  split; [exact E |]. rewrite E.
  repeat match goal with
         | H : Forall _ (_ :: _) |- _ => inversion H; clear H; subst
         end.
  unfold normalizeResidentId. cbn [filter].
  repeat match goal with
         | H : isDigit ?c = true |- _ => rewrite H; clear H
         end.
  reflexivity.
Qed.

Lemma mask_short value :
  (length (normalizeResidentId value) < 7)%nat -> maskResidentId value = value.
Proof.
  intros H. unfold maskResidentId.
  replace (Nat.ltb (length (normalizeResidentId value)) 7) with true
    by (symmetry; apply Nat.ltb_lt; exact H).
  reflexivity.
Qed.

(** X6.  The mask of an identifier with at least seven digits shows its
    first seven digits and nothing else of it: two identifiers with the
    same first seven digits have the same mask, which is fourteen
    characters long and whose digits are those seven. *)
Theorem maskResidentId_shows_seven_digits value1 value2 :
  (7 <= length (normalizeResidentId value1))%nat ->
  firstn 7 (normalizeResidentId value1)
  = firstn 7 (normalizeResidentId value2) ->
  maskResidentId value1 = maskResidentId value2
  /\ length (maskResidentId value1) = 14%nat
  /\ normalizeResidentId (maskResidentId value1)
     = firstn 7 (normalizeResidentId value1).
Proof.
  intros Hlen Hsame.
  destruct (seven_digits _ Hlen)
    as (c0 & c1 & c2 & c3 & c4 & c5 & c6 & rest & E1).
  assert (Hlen2 : (7 <= length (normalizeResidentId value2))%nat).
  { apply (f_equal (@length _)) in Hsame. rewrite !length_firstn in Hsame.
    lia. }
  destruct (seven_digits _ Hlen2)
    as (b0 & b1 & b2 & b3 & b4 & b5 & b6 & rest2 & E2).
  rewrite E1, E2 in Hsame. cbn [firstn] in Hsame.
  injection Hsame as <- <- <- <- <- <- <-.
  destruct (mask_of_seven value1 _ _ _ _ _ _ _ _ E1) as [M1 N1].
  destruct (mask_of_seven value2 _ _ _ _ _ _ _ _ E2) as [M2 _].
  rewrite N1, M1, M2, E1. repeat split; reflexivity.
Qed.

Lemma maskResidentId_shows_seven_digits_witness :
  (7 <= length (normalizeResidentId (str "990101-1234567")))%nat
  /\ maskResidentId (str "990101-1234567") = maskResidentId (str "9901011")
  /\ maskResidentId (str "990101-1234567") = str "990101-1******".
Proof.
  assert (H : (7 <= length (normalizeResidentId (str "990101-1234567")))%nat)
    by (vm_compute; lia).
  split; [exact H |]. split; [| reflexivity].
  exact (proj1 (maskResidentId_shows_seven_digits (str "990101-1234567")
                  (str "9901011") H eq_refl)).
Defined.

(** X7.  A masked identifier is never parsed as an identifier, at any
    reference date, and it keeps the sex key of the identifier it
    masks. *)
Theorem masked_identifier_is_not_parsed value ref :
  parseResidentId (maskResidentId value) ref = None
  /\ getSexKey (maskResidentId value) = getSexKey value.
Proof.
  destruct (Nat.lt_ge_cases (length (normalizeResidentId value)) 7)
    as [Hs | Hl].
  - rewrite (mask_short value Hs). split; [| reflexivity].
    unfold parseResidentId.
    replace (Nat.eqb (length (normalizeResidentId value)) 13) with false
      by (symmetry; apply Nat.eqb_neq; lia).
    reflexivity.
  - destruct (seven_digits _ Hl)
      as (c0 & c1 & c2 & c3 & c4 & c5 & c6 & rest & E).
    destruct (mask_of_seven value _ _ _ _ _ _ _ _ E) as [_ N]. split.
    + unfold parseResidentId. rewrite N. reflexivity.
    + rewrite (getSexKey_digits _ _ N) by (cbn; lia).
      rewrite (getSexKey_digits _ _ E) by (cbn; lia).
      reflexivity.
Qed.

End IdentifierProofs.

(** ** The date of a date input *)

Module DateInputProofs.

Import ResidentIdSpec ResidentIdProofs DateSpec DateProofs DateInput.

Example parseDateInput_plain :
  parseDateInput (str "2024-06-15") = Some (ValidDate (newDate 2024 5 15)).
Proof. reflexivity. Qed.

Example parseDateInput_feb30 :
  parseDateInput (str "2023-02-30") = Some (ValidDate (newDate 2023 2 2)).
Proof. reflexivity. Qed.

Example parseDateInput_short_year :
  parseDateInput (str "0024-06-15") = Some (ValidDate (newDate 1924 5 15)).
Proof. reflexivity. Qed.

Example parseDateInput_zero_month : parseDateInput (str "2024-00-15") = None.
Proof. reflexivity. Qed.

Example parseDateInput_two_parts : parseDateInput (str "2024-06") = None.
Proof. reflexivity. Qed.

Example parseDateInput_empty : parseDateInput [] = None.
Proof. reflexivity. Qed.

Example parseDateInput_far :
  parseDateInput (str "999999-1-1") = Some InvalidDate.
Proof. reflexivity. Qed.

Lemma digit_not_hyphen c : isDigit c = true -> (c =? 45)%N = false.
Proof. intros H. apply digit_not_space_or_sign in H. tauto. Qed.

Lemma parseInt_four a b c d :
  isDigit a = true -> isDigit b = true ->
  isDigit c = true -> isDigit d = true ->
  parseInt [a; b; c; d] = Some (1000 * dv a + 100 * dv b + 10 * dv c + dv d).
Proof.
  intros Ha Hb Hc Hd.
  destruct (digit_not_space_or_sign a Ha) as (Hs & Hsign & Hneg).
  unfold parseInt, parseInt_lit. cbn [trimStart]. rewrite Hs, Hsign, Hneg.
  cbn [digits_prefix]. rewrite Ha, Hb, Hc, Hd.
  cbn [option_map int_value fst snd]. unfold dv. f_equal. lia.
Qed.

Lemma date_text_fields y1 y2 y3 y4 m1 m2 d1 d2 :
  Forall (fun c => isDigit c = true) [y1; y2; y3; y4; m1; m2; d1; d2] ->
  let value := date_text y1 y2 y3 y4 m1 m2 d1 d2 in
  date_field value 0 = Some (1000 * dv y1 + 100 * dv y2 + 10 * dv y3 + dv y4)
  /\ date_field value 1 = Some (10 * dv m1 + dv m2)
  /\ date_field value 2 = Some (10 * dv d1 + dv d2).
Proof.
  intros Hall. cbv zeta.
  repeat match goal with
         | H : Forall _ (_ :: _) |- _ => inversion H; clear H; subst
         end.
  assert (Hsplit : split_on 45%N (date_text y1 y2 y3 y4 m1 m2 d1 d2) []
                   = [[y1; y2; y3; y4]; [m1; m2]; [d1; d2]]).
  { unfold date_text. cbn [split_on].
    repeat match goal with
           | H : isDigit ?c = true |- _ =>
               rewrite (digit_not_hyphen c H); clear H
           end.
    reflexivity. }
  unfold date_field. rewrite Hsplit. cbn [map nth_error].
  rewrite parseInt_four, !parseInt_pair by assumption.
  unfold dv. repeat split; reflexivity.
Qed.

Lemma MakeDay_small year month date :
  0 <= year <= 9999 -> 0 <= month <= 98 -> 1 <= date <= 99 ->
  Z.abs (MakeDay (MakeFullYear year) month date) <= 100000000.
Proof.
  intros Hy Hm Hd. unfold MakeDay.
  set (ym := MakeFullYear year + month / 12).
  assert (Hym : 0 <= ym <= 10008).
  { unfold ym, MakeFullYear.
    destruct (Z.leb_spec 0 year); destruct (Z.leb_spec year 99); cbn [andb];
      Z.div_mod_to_equations; lia. }
  pose proof (leap_flag_range ym) as HL.
  pose proof (Z.mod_pos_bound month 12 ltac:(lia)) as Hmn.
  pose proof (month_start_mono (InLeapYear_of_year ym) 0 (month mod 12) HL
                ltac:(lia) ltac:(lia) ltac:(lia)) as H0.
  pose proof (month_start_mono (InLeapYear_of_year ym) (month mod 12) 12 HL
                ltac:(lia) ltac:(lia) ltac:(lia)) as H12.
  change (month_start (InLeapYear_of_year ym) 0) with 0 in H0.
  change (month_start (InLeapYear_of_year ym) 12)
    with (365 + InLeapYear_of_year ym) in H12.
  assert (Hday : -800000 <= DayFromYear ym <= 3000000).
  { unfold DayFromYear. Z.div_mod_to_equations. lia. }
  lia.
Qed.

(** The day after the last of month [m] is day 1 of the next. *)
Lemma MakeDay_overflow y m d :
  1 <= m <= 11 ->
  MakeDay y (m - 1) d = MakeDay y m (d - days_in_month y m).
Proof.
  intros Hm. unfold MakeDay.
  rewrite (Z.div_small (m - 1) 12), (Z.mod_small (m - 1) 12) by lia.
  rewrite (Z.div_small m 12), (Z.mod_small m 12) by lia.
  rewrite Z.add_0_r.
  destruct (month_start_next (InLeapYear_of_year y) (m - 1)
              (leap_flag_range y) ltac:(lia)) as [E _].
  replace (m - 1 + 1) with m in E by lia. rewrite E.
  assert (Hdim : month_length (InLeapYear_of_year y) m = days_in_month y m).
  { unfold month_length, days_in_month. rewrite leap_flag.
    destruct (m =? 2); [destruct (is_leap y); reflexivity | reflexivity]. }
  rewrite Hdim. lia.
Qed.

Lemma getters_of_real_date y m d :
  real_date y m d ->
  getFullYear (newDate y (m - 1) d) = y
  /\ getMonth (newDate y (m - 1) d) = m - 1
  /\ getDate (newDate y (m - 1) d) = d.
Proof.
  intros [Hm Hd]. pose proof (days_in_month_le_31 y m) as H31.
  pose proof (readback_real_date y m d Hm ltac:(lia)) as Hrb.
  replace (d <=? days_in_month y m) with true in Hrb
    by (symmetry; apply Z.leb_le; lia).
  rewrite !andb_true_iff, !Z.eqb_eq in Hrb. tauto.
Qed.

Lemma days_in_month_ge_28 y m : 28 <= days_in_month y m.
Proof.
  unfold days_in_month.
  destruct (m =? 2); [destruct (is_leap y); lia |].
  destruct ((m =? 4) || (m =? 6) || (m =? 9) || (m =? 11)); lia.
Qed.

Lemma parseDateInput_fields value year month day :
  value <> [] ->
  date_field value 0 = Some year ->
  date_field value 1 = Some month ->
  date_field value 2 = Some day ->
  parseDateInput value =
    if (year =? 0) || (month =? 0) || (day =? 0) then None
    else Some (Date_of_fields year (month - 1) day).
Proof.
  intros Hne Fy Fm Fd. unfold parseDateInput. rewrite Fy, Fm, Fd.
  destruct value; [contradiction | reflexivity].
Qed.

(** What [new Date(year, month - 1, day)] is for a year of at most four
    digits and a month and a day of at most two. *)
Lemma Date_of_fields_small year month day :
  0 <= year <= 9999 -> 1 <= month <= 99 -> 1 <= day <= 99 ->
  let t := MakeDay (MakeFullYear year) (month - 1) day in
  Date_of_fields year (month - 1) day = ValidDate t
  /\ (100 <= year -> real_date year month day ->
      getFullYear t = year /\ getMonth t = month - 1 /\ getDate t = day)
  /\ (100 <= year -> 1 <= month <= 12 ->
      days_in_month year month < day <= 31 ->
      getFullYear t = year /\ getMonth t = month
      /\ getDate t = day - days_in_month year month)
  /\ (year <= 99 -> real_date (1900 + year) month day ->
      getFullYear t = 1900 + year).
Proof.
  intros Hy Hm Hd. cbv zeta. split; [| split; [| split]].
  - unfold Date_of_fields.
    pose proof (MakeDay_small year (month - 1) day Hy ltac:(lia) ltac:(lia))
      as Hs.
    apply Z.leb_le in Hs. rewrite Hs. reflexivity.
  - intros H100 Hreal.
    assert (E : MakeFullYear year = year).
    { unfold MakeFullYear. destruct (Z.leb_spec year 99); [lia |].
      rewrite andb_false_r. reflexivity. }
    rewrite E. exact (getters_of_real_date year month day Hreal).
  - intros H100 Hmo Hover.
    assert (E : MakeFullYear year = year).
    { unfold MakeFullYear. destruct (Z.leb_spec year 99); [lia |].
      rewrite andb_false_r. reflexivity. }
    rewrite E.
    assert (Hm11 : month <= 11).
    { destruct (Z.eq_dec month 12) as [E12 | ]; [| lia].
      rewrite E12 in Hover. unfold days_in_month in Hover. cbn in Hover. lia. }
    rewrite MakeDay_overflow by lia.
    pose proof (days_in_month_ge_28 year month) as H28.
    pose proof (days_in_month_ge_28 year (month + 1)) as H28'.
    assert (Hreal : real_date year (month + 1) (day - days_in_month year month))
      by (unfold real_date; lia).
    pose proof (getters_of_real_date _ _ _ Hreal) as G.
    replace (month + 1 - 1) with month in G by lia. exact G.
  - intros H99 Hreal.
    assert (E : MakeFullYear year = 1900 + year).
    { unfold MakeFullYear. destruct (Z.leb_spec 0 year); [| lia].
      destruct (Z.leb_spec year 99); [reflexivity | lia]. }
    rewrite E. exact (proj1 (getters_of_real_date _ _ _ Hreal)).
Qed.

(** X8.  On a text of the form YYYY-MM-DD: a year, month or day of zero
    gives null; otherwise a valid date is returned, and nothing checks
    the month or the day.  For a real date from the year 100 on, it is
    that date; a day past the end of its month, up to 31, rolls over into
    the month after it; and a year in 0..99 is read as 1900 + year. *)
Theorem parseDateInput_date_text y1 y2 y3 y4 m1 m2 d1 d2 :
  Forall (fun c => isDigit c = true) [y1; y2; y3; y4; m1; m2; d1; d2] ->
  let value := date_text y1 y2 y3 y4 m1 m2 d1 d2 in
  let year := 1000 * dv y1 + 100 * dv y2 + 10 * dv y3 + dv y4 in
  let month := 10 * dv m1 + dv m2 in
  let day := 10 * dv d1 + dv d2 in
  (year = 0 \/ month = 0 \/ day = 0 -> parseDateInput value = None)
  /\ (year <> 0 -> month <> 0 -> day <> 0 ->
      exists t,
        parseDateInput value = Some (ValidDate t)
        /\ (100 <= year -> real_date year month day ->
            getFullYear t = year /\ getMonth t = month - 1 /\ getDate t = day)
        /\ (100 <= year -> 1 <= month <= 12 ->
            days_in_month year month < day <= 31 ->
            getFullYear t = year /\ getMonth t = month
            /\ getDate t = day - days_in_month year month)
        /\ (year <= 99 -> real_date (1900 + year) month day ->
            getFullYear t = 1900 + year)).
Proof.
  intros Hall.
  destruct (date_text_fields y1 y2 y3 y4 m1 m2 d1 d2 Hall) as (Fy & Fm & Fd).
  assert (Hr : forall c, In c [y1; y2; y3; y4; m1; m2; d1; d2] ->
                         0 <= dv c <= 9).
  { intros c Hc. rewrite Forall_forall in Hall. apply digit_value_range.
    exact (Hall c Hc). }
  pose proof (Hr y1 ltac:(cbn; tauto)). pose proof (Hr y2 ltac:(cbn; tauto)).
  pose proof (Hr y3 ltac:(cbn; tauto)). pose proof (Hr y4 ltac:(cbn; tauto)).
  pose proof (Hr m1 ltac:(cbn; tauto)). pose proof (Hr m2 ltac:(cbn; tauto)).
  pose proof (Hr d1 ltac:(cbn; tauto)). pose proof (Hr d2 ltac:(cbn; tauto)).
  clear Hr Hall.
  pose proof (parseDateInput_fields (date_text y1 y2 y3 y4 m1 m2 d1 d2) _ _ _
                ltac:(unfold date_text; discriminate) Fy Fm Fd) as P.
  clear Fy Fm Fd.
  intros value year month day. fold value year month day in P.
  assert (Hy : 0 <= year <= 9999) by (unfold year; lia).
  assert (Hm : 0 <= month <= 99) by (unfold month; lia).
  assert (Hd : 0 <= day <= 99) by (unfold day; lia).
  clearbody value year month day.
  rewrite P. split.
  - intros Hz.
    destruct (Z.eqb_spec year 0); [reflexivity |].
    destruct (Z.eqb_spec month 0); [reflexivity |].
    destruct (Z.eqb_spec day 0); [reflexivity | lia].
  - intros Ny Nm Nd.
    destruct (Z.eqb_spec year 0); [contradiction |].
    destruct (Z.eqb_spec month 0); [contradiction |].
    destruct (Z.eqb_spec day 0); [contradiction |].
    cbn [orb].
    destruct (Date_of_fields_small year month day Hy ltac:(lia) ltac:(lia))
      as (E & G).
    rewrite E. eexists. split; [reflexivity | exact G].
Qed.

Lemma parseDateInput_date_text_witness :
  Forall (fun c => isDigit c = true) [50; 48; 50; 51; 48; 50; 51; 48]%N
  /\ exists t,
       parseDateInput (str "2023-02-30") = Some (ValidDate t)
       /\ getFullYear t = 2023 /\ getMonth t = 2 /\ getDate t = 2.
Proof.
  assert (H : Forall (fun c => isDigit c = true)
                [50; 48; 50; 51; 48; 50; 51; 48]%N)
    by (repeat constructor).
  split; [exact H |].
  destruct (proj2 (parseDateInput_date_text 50%N 48%N 50%N 51%N 48%N 50%N 51%N
                    48%N H))
    as (t & Ht & _ & Hroll & _);
    [discriminate | discriminate | discriminate |].
  exists t. split; [exact Ht |].
  apply Hroll; repeat split; vm_compute; congruence.
Defined.

End DateInputProofs.

(** ** Age labels *)

Module LabelsProofs.

Import Labels.

Example formatAge_23 : formatAge 23 = str "23" ++ months_suffix.
Proof. reflexivity. Qed.
Example formatAge_24 : formatAge 24 = str "2" ++ years_suffix.
Proof. reflexivity. Qed.
Example formatAge_305 :
  formatAge 305 = str "25" ++ years_suffix ++ str " 5" ++ months_suffix.
Proof. reflexivity. Qed.

Lemma str_inj s1 s2 : str s1 = str s2 -> s1 = s2.
Proof.
  unfold str. intros H.
  rewrite <- (string_of_list_ascii_of_string s1),
          <- (string_of_list_ascii_of_string s2).
  f_equal. revert H.
  generalize (list_ascii_of_string s1) (list_ascii_of_string s2).
  induction l as [| a l IH]; intros [| b l']; cbn; try discriminate;
    [reflexivity |].
  intros [= Hab Hl]. f_equal; [| exact (IH _ Hl)].
  rewrite <- (ascii_N_embedding a), <- (ascii_N_embedding b), Hab. reflexivity.
Qed.

Lemma String_of_integer_inj a b :
  String_of_integer a = String_of_integer b -> a = b.
Proof.
  unfold String_of_integer. intros H. apply str_inj in H.
  apply DecimalZ.to_int_inj.
  assert (Hn : forall z, Z.to_int z <> Decimal.Pos Decimal.Nil
                         /\ Z.to_int z <> Decimal.Neg Decimal.Nil).
  { intros [| p | p]; cbn; split; try discriminate;
      intros [= E]; exact (Unsigned.to_uint_nonnil p E). }
  pose proof (NilZero.isi (Z.to_int a) (proj1 (Hn a)) (proj2 (Hn a))) as Ia.
  pose proof (NilZero.isi (Z.to_int b) (proj1 (Hn b)) (proj2 (Hn b))) as Ib.
  rewrite H in Ia. congruence.
Qed.

Lemma string_of_uint_digits d :
  Forall (fun c => isDigit c = true) (str (NilEmpty.string_of_uint d)).
Proof.
  induction d; cbn; try constructor; try reflexivity; exact IHd.
Qed.

Lemma String_of_integer_digits n :
  0 <= n -> Forall (fun c => isDigit c = true) (String_of_integer n).
Proof.
  intros Hn. unfold String_of_integer.
  destruct n as [| p | p]; [repeat constructor | | lia].
  cbn [Z.to_int NilZero.string_of_int]. unfold NilZero.string_of_uint.
  destruct (Pos.to_uint p) eqn:E;
    try (rewrite <- E; apply string_of_uint_digits).
  repeat constructor.
Qed.

(** Two texts that start with digits and go on with a non-digit agree on
    the digits and on the rest. *)
Lemma digits_then_other l1 l2 r1 r2 :
  Forall (fun c => isDigit c = true) l1 ->
  Forall (fun c => isDigit c = true) l2 ->
  match r1 with c :: _ => isDigit c = false | [] => True end ->
  match r2 with c :: _ => isDigit c = false | [] => True end ->
  l1 ++ r1 = l2 ++ r2 -> l1 = l2 /\ r1 = r2.
Proof.
  intros H1. revert l2. induction H1 as [| a l1 Ha _ IH]; intros l2 H2 N1 N2 E.
  - destruct H2 as [| b l2 Hb _]; [split; [reflexivity | exact E] |].
    cbn in E. subst r1. cbn in N1. congruence.
  - destruct H2 as [| b l2 Hb H2].
    + cbn in E. subst r2. cbn in N2. congruence.
    + cbn in E. injection E as <- E.
      destruct (IH l2 H2 N1 N2 E) as [-> ->]. split; reflexivity.
Qed.

(** X9.  Two different ages, in whole months from 0 on, never get the
    same label. *)
Theorem formatAge_injective a b :
  0 <= a -> 0 <= b -> formatAge a = formatAge b -> a = b.
Proof.
  intros Ha Hb. unfold formatAge.
  assert (Hq : forall n, 24 <= n -> 0 <= n / 12)
    by (intros; Z.div_mod_to_equations; lia).
  assert (Hr : forall n, 0 <= n -> 0 <= Z.rem n 12)
    by (intros; apply Z.rem_nonneg; lia).
  assert (Hdm : forall n, 0 <= n -> n = 12 * (n / 12) + Z.rem n 12).
  { intros n Hn. rewrite Z.rem_mod_nonneg by lia. apply Z.div_mod. lia. }
  destruct (Z.ltb_spec a 24) as [La | La];
    destruct (Z.ltb_spec b 24) as [Lb | Lb].
  - intros E. apply digits_then_other in E;
      try (apply String_of_integer_digits; lia); try reflexivity.
    apply String_of_integer_inj. tauto.
  - destruct (Z.rem b 12 =? 0); intros E;
      apply digits_then_other in E;
      try (apply String_of_integer_digits; auto; lia); try reflexivity;
      destruct E as [_ E]; discriminate.
  - destruct (Z.rem a 12 =? 0); intros E;
      apply digits_then_other in E;
      try (apply String_of_integer_digits; auto; lia); try reflexivity;
      destruct E as [_ E]; discriminate.
  - destruct (Z.eqb_spec (Z.rem a 12) 0) as [Ra | Ra];
      destruct (Z.eqb_spec (Z.rem b 12) 0) as [Rb | Rb]; intros E;
      apply digits_then_other in E;
      try (apply String_of_integer_digits; auto; lia); try reflexivity;
      destruct E as [Ey E]; apply String_of_integer_inj in Ey;
      try discriminate.
    + rewrite (Hdm a Ha), (Hdm b Hb). lia.
    + injection E as E. apply digits_then_other in E;
        try (apply String_of_integer_digits; auto; lia); try reflexivity.
      destruct E as [Em _]. apply String_of_integer_inj in Em.
      rewrite (Hdm a Ha), (Hdm b Hb). lia.
Qed.

Lemma formatAge_injective_witness :
  0 <= 29
  /\ formatAge 29 = formatAge (24 + 5)
  /\ 29 = 24 + 5.
Proof.
  assert (H : 0 <= 29) by discriminate.
  split; [exact H |]. split; [reflexivity |].
  exact (formatAge_injective 29 (24 + 5) H H eq_refl).
Defined.

End LabelsProofs.

(** ** The visit state *)

Module VisitStateProofs.

Import Visits VisitsSpec VisitsProofs VisitState VisitStateSpec.

Section SortFacts.

Context {A : Type} (compareFn : A -> A -> Z) (key : A -> Z).

Lemma sort_insert_perm v l : Permutation (v :: l) (sort_insert compareFn v l).
Proof.
  induction l as [| w r IH]; cbn; [reflexivity |].
  destruct (compareFn v w <=? 0); [reflexivity |].
  rewrite perm_swap. constructor. exact IH.
Qed.

Lemma Array_sort_perm l : Permutation l (Array_sort compareFn l).
Proof.
  induction l as [| v l IH]; cbn; [constructor |].
  rewrite <- sort_insert_perm. constructor. exact IH.
Qed.

Lemma sort_insert_sorted v l :
  (forall w, In w l -> compareFn v w = key v - key w) ->
  StronglySorted (fun a b => key a <= key b) l ->
  StronglySorted (fun a b => key a <= key b) (sort_insert compareFn v l).
Proof.
  intros Hc Hs. induction Hs as [| w r Hs IH Hw]; cbn.
  - constructor; constructor.
  - rewrite (Hc w (or_introl eq_refl)).
    destruct (Z.leb_spec (key v - key w) 0) as [Hle | Hgt].
    + constructor; [constructor; assumption |].
      constructor; [lia |]. rewrite Forall_forall in *.
      intros x Hx. specialize (Hw x Hx). lia.
    + constructor; [apply IH; intros x Hx; apply Hc; right; exact Hx |].
      rewrite Forall_forall in *. intros x Hx.
      apply (Permutation_in _ (Permutation_sym (sort_insert_perm v r))) in Hx.
      destruct Hx as [<- | Hx]; [lia | exact (Hw x Hx)].
Qed.

Lemma Array_sort_sorted l :
  (forall a b, In a l -> In b l -> compareFn a b = key a - key b) ->
  StronglySorted (fun a b => key a <= key b) (Array_sort compareFn l).
Proof.
  induction l as [| v l IH]; intros Hc; cbn; [constructor |].
  apply sort_insert_sorted.
  - intros w Hw. apply Hc; [left; reflexivity | right].
    exact (Permutation_in _ (Permutation_sym (Array_sort_perm l)) Hw).
  - apply IH. intros a b Ha Hb. apply Hc; right; assumption.
Qed.

Lemma sorted_adjacent l1 a b l2 :
  StronglySorted (fun a b => key a <= key b) (l1 ++ a :: b :: l2) ->
  key a <= key b.
Proof.
  induction l1 as [| c l1 IH]; cbn; intros H; inversion H; subst.
  - match goal with H : Forall _ (b :: l2) |- _ => inversion H; assumption end.
  - apply IH. assumption.
Qed.

Lemma sorted_prefix_suffix l1 l2 x y :
  StronglySorted (fun a b => key a <= key b) (l1 ++ l2) ->
  In x l1 -> In y l2 -> key x <= key y.
Proof.
  induction l1 as [| c l1 IH]; cbn; intros H Hx Hy; [contradiction |].
  inversion H; subst. destruct Hx as [<- | Hx].
  - match goal with H : Forall _ (l1 ++ l2) |- _ =>
      rewrite Forall_forall in H; apply H end.
    apply in_or_app. right. exact Hy.
  - apply IH; assumption.
Qed.

End SortFacts.

Lemma nth_error_adjacent {A} (l : list A) i a b :
  nth_error l i = Some a -> nth_error l (S i) = Some b ->
  exists l1 l2, l = l1 ++ a :: b :: l2 /\ length l1 = i.
Proof.
  intros Ha Hb. destruct (nth_error_split l i Ha) as (l1 & l2 & -> & Hlen).
  exists l1. rewrite nth_error_app2 in Hb by lia.
  replace (S i - length l1)%nat with 1%nat in Hb by lia.
  destruct l2 as [| b' l2]; [discriminate |]. cbn in Hb. injection Hb as ->.
  exists l2. split; [reflexivity | exact Hlen].
Qed.

Lemma nth_error_last {A} (l : list A) a :
  nth_error l (length l - 1) = Some a -> exists l1, l = l1 ++ [a].
Proof.
  intros H. destruct (nth_error_split l _ H) as (l1 & l2 & E & Hlen).
  exists l1. rewrite E in Hlen |- *. rewrite length_app in Hlen. cbn in Hlen.
  destruct l2; [reflexivity | cbn in Hlen; lia].
Qed.

Lemma findIndex_from_found {A} (p : A -> bool) l i j :
  findIndex_from i p l = Some j ->
  exists a, nth_error l (j - i) = Some a /\ p a = true /\ (i <= j)%nat.
Proof.
  revert i. induction l as [| b l IH]; intros i; cbn; [discriminate |].
  destruct (p b) eqn:E.
  - intros [= <-]. exists b. rewrite Nat.sub_diag. auto.
  - intros H. destruct (IH _ H) as (a & Ha & Hp & Hle).
    exists a. replace (j - i)%nat with (S (j - S i)) by lia. cbn.
    split; [exact Ha |]. split; [exact Hp | lia].
Qed.

Section ViewFacts.

Variable getTime : jsstring -> option Z.

Lemma by_date_time l :
  valid_dates getTime l ->
  forall a b, In a l -> In b l ->
    by_date getTime a b = time_of getTime a - time_of getTime b.
Proof.
  intros Hv a b Ha Hb. unfold by_date, time_of.
  destruct (getTime (date a)) eqn:Ea; [| exfalso; exact (Hv a Ha Ea)].
  destruct (getTime (date b)) eqn:Eb; [| exfalso; exact (Hv b Hb Eb)].
  reflexivity.
Qed.

Lemma view_sorted mappedVisits focusId :
  valid_dates getTime mappedVisits ->
  Permutation mappedVisits
    (view_visits (setVisitStateFromRows getTime mappedVisits focusId))
  /\ StronglySorted (fun a b => time_of getTime a <= time_of getTime b)
       (view_visits (setVisitStateFromRows getTime mappedVisits focusId)).
Proof.
  intros Hv. unfold setVisitStateFromRows.
  destruct mappedVisits as [| v l] eqn:E; [split; constructor |].
  rewrite <- E in *. cbn [view_visits]. split.
  - apply Array_sort_perm.
  - apply Array_sort_sorted. apply by_date_time. exact Hv.
Qed.

(** X10.  The visits that are set are the mapped visits in the order of
    their dates, the earliest first: nothing is lost and nothing is
    added. *)
Theorem visits_sorted_by_date mappedVisits focusId :
  valid_dates getTime mappedVisits ->
  Permutation mappedVisits
    (view_visits (setVisitStateFromRows getTime mappedVisits focusId))
  /\ StronglySorted (fun a b => time_of getTime a <= time_of getTime b)
       (view_visits (setVisitStateFromRows getTime mappedVisits focusId)).
Proof. apply view_sorted. Qed.

Lemma view_index mappedVisits focusId :
  mappedVisits <> [] ->
  exists index cur,
    (index < length (Array_sort (by_date getTime) mappedVisits))%nat
    /\ view_visits (setVisitStateFromRows getTime mappedVisits focusId)
       = Array_sort (by_date getTime) mappedVisits
    /\ nth_error (Array_sort (by_date getTime) mappedVisits) index = Some cur
    /\ currentVisit (setVisitStateFromRows getTime mappedVisits focusId)
       = Some cur
    /\ previousVisit (setVisitStateFromRows getTime mappedVisits focusId)
       = (if Nat.ltb 0 index
          then nth_error (Array_sort (by_date getTime) mappedVisits) (index - 1)
          else None)
    /\ (forall f, focusId = Some f -> f <> [] ->
                  (exists v, In v mappedVisits /\ id v = f) -> id cur = f)
    /\ ((focusId = None \/ focusId = Some []
         \/ (forall f v, focusId = Some f -> In v mappedVisits -> id v <> f)) ->
        index = (length (Array_sort (by_date getTime) mappedVisits) - 1)%nat).
Proof.
  intros Hne. unfold setVisitStateFromRows.
  destruct mappedVisits as [| v0 l0] eqn:E; [contradiction |].
  rewrite <- E in *. clear E v0 l0.
  set (sorted := Array_sort (by_date getTime) mappedVisits).
  pose proof (Array_sort_perm (by_date getTime) mappedVisits) as Hperm.
  fold sorted in Hperm.
  assert (Hlen : (0 < length sorted)%nat).
  { rewrite <- (Permutation_length Hperm).
    destruct mappedVisits; [contradiction | cbn; lia]. }
  set (index := match focusId with
                | Some ((_ :: _) as f) =>
                    match findIndex (fun visit => jsstring_eqb (id visit) f)
                                    sorted with
                    | Some i => i
                    | None => (length sorted - 1)%nat
                    end
                | _ => (length sorted - 1)%nat
                end).
  assert (Hidx : (index < length sorted)%nat
                 /\ (forall f, focusId = Some f -> f <> [] ->
                       (exists v, In v mappedVisits /\ id v = f) ->
                       exists cur,
                         nth_error sorted index = Some cur /\ id cur = f)
                 /\ ((focusId = None \/ focusId = Some []
                      \/ (forall f v, focusId = Some f ->
                                      In v mappedVisits -> id v <> f)) ->
                     index = (length sorted - 1)%nat)).
  { unfold index. destruct focusId as [[| c f] |].
    - split; [lia |]. split; [intros f [= <-] Hf; contradiction | reflexivity].
    - destruct (findIndex _ sorted) as [i |] eqn:F.
      + unfold findIndex in F. apply findIndex_from_found in F.
        destruct F as (a & Ha & Hp & _). rewrite Nat.sub_0_r in Ha.
        apply jsstring_eqb_eq in Hp. split.
        * apply nth_error_Some. congruence.
        * split.
          -- intros f' [= <-] _ _. exists a. split; assumption.
          -- intros [H | [H | H]]; try discriminate. exfalso.
             apply (H (c :: f) a eq_refl); [| exact Hp].
             apply (Permutation_in _ (Permutation_sym Hperm)).
             exact (nth_error_In _ _ Ha).
      + split; [lia |]. split; [| reflexivity].
        intros f' [= <-] _ (v & Hv & Hid). exfalso.
        assert (Hn : forall a, In a sorted ->
                       jsstring_eqb (id a) (c :: f) = false).
        { clear -F. unfold findIndex in F. revert F. generalize 0%nat.
          induction sorted as [| b l IH]; intros n F a Ha; [contradiction |].
          cbn in F.
          destruct (jsstring_eqb (id b) (c :: f)) eqn:Eb; [discriminate |].
          destruct Ha as [<- | Ha]; [exact Eb | exact (IH _ F a Ha)]. }
        specialize (Hn v (Permutation_in _ Hperm Hv)).
        assert (jsstring_eqb (id v) (c :: f) = true)
          by (apply jsstring_eqb_eq; exact Hid).
        congruence.
    - split; [lia |]. split; [intros f [=] | reflexivity]. }
  destruct Hidx as (Hlt & Hfocus & Hlast).
  destruct (nth_error sorted index) as [cur |] eqn:Hcur;
    [| apply nth_error_None in Hcur; lia].
  exists index, cur. fold index. cbn [view_visits currentVisit previousVisit].
  repeat split; try assumption; try reflexivity.
  intros f Hf Hne' Hex. destruct (Hfocus f Hf Hne' Hex) as (cur' & Hc' & Hid).
  congruence.
Qed.

Lemma view_adjacent mappedVisits focusId :
  mappedVisits <> [] ->
  exists cur,
    currentVisit (setVisitStateFromRows getTime mappedVisits focusId) = Some cur
    /\ In cur mappedVisits
    /\ match
         previousVisit (setVisitStateFromRows getTime mappedVisits focusId)
       with
       | Some prev =>
           In prev mappedVisits
           /\ exists before after,
                view_visits (setVisitStateFromRows getTime mappedVisits focusId)
                = before ++ prev :: cur :: after
       | None =>
           exists after,
             view_visits (setVisitStateFromRows getTime mappedVisits focusId)
             = cur :: after
       end.
Proof.
  intros Hne.
  destruct (view_index mappedVisits focusId Hne)
    as (index & cur & Hlt & Hv & Hcur & Hc & Hp & _).
  pose proof (Array_sort_perm (by_date getTime) mappedVisits) as Hperm.
  exists cur. split; [exact Hc |]. split.
  { apply (Permutation_in _ (Permutation_sym Hperm)).
    exact (nth_error_In _ _ Hcur). }
  rewrite Hp, Hv. destruct index as [| i]; cbn [Nat.ltb Nat.leb].
  - destruct (Array_sort (by_date getTime) mappedVisits) as [| c l];
      [discriminate |].
    cbn in Hcur. injection Hcur as ->. exists l. reflexivity.
  - replace (S i - 1)%nat with i by lia.
    destruct (nth_error (Array_sort (by_date getTime) mappedVisits) i)
      as [prev |] eqn:Hprev; [| apply nth_error_None in Hprev; lia].
    split.
    + apply (Permutation_in _ (Permutation_sym Hperm)).
      exact (nth_error_In _ _ Hprev).
    + destruct (nth_error_adjacent _ _ _ _ Hprev Hcur) as (l1 & l2 & E & _).
      exists l1, l2. exact E.
Qed.

(** X11.  Whenever there is a visit, there is a current visit, it is one
    of the mapped visits, and the previous visit is the one just before
    it in the order of the dates; the first visit has no previous
    visit. *)
Theorem current_and_previous_are_adjacent mappedVisits focusId :
  mappedVisits <> [] ->
  exists cur,
    currentVisit (setVisitStateFromRows getTime mappedVisits focusId) = Some cur
    /\ In cur mappedVisits
    /\ match
         previousVisit (setVisitStateFromRows getTime mappedVisits focusId)
       with
       | Some prev =>
           In prev mappedVisits
           /\ exists before after,
                view_visits (setVisitStateFromRows getTime mappedVisits focusId)
                = before ++ prev :: cur :: after
       | None =>
           exists after,
             view_visits (setVisitStateFromRows getTime mappedVisits focusId)
             = cur :: after
       end.
Proof. apply view_adjacent. Qed.

(** X12.  When the focus is the identifier of one of the visits, the
    current visit is a visit with that identifier. *)
Theorem focus_selects_its_visit mappedVisits focusId visit :
  In visit mappedVisits ->
  id visit <> [] ->
  focusId = Some (id visit) ->
  exists cur,
    currentVisit (setVisitStateFromRows getTime mappedVisits focusId) = Some cur
    /\ id cur = id visit.
Proof.
  intros Hin Hid Hf.
  assert (Hne : mappedVisits <> [])
    by (intros E; rewrite E in Hin; contradiction).
  destruct (view_index mappedVisits focusId Hne)
    as (index & cur & _ & _ & _ & Hc & _ & Hfocus & _).
  exists cur. split; [exact Hc |].
  apply (Hfocus (id visit) Hf Hid). exists visit.
  split; [exact Hin | reflexivity].
Qed.

(** X13.  Without a focus, with an empty one, or with one that names no
    visit, the current visit is the last of the sorted visits, and no
    visit is later than it. *)
Theorem default_current_is_latest mappedVisits focusId :
  valid_dates getTime mappedVisits ->
  mappedVisits <> [] ->
  focusId = None \/ focusId = Some []
  \/ (forall f v, focusId = Some f -> In v mappedVisits -> id v <> f) ->
  exists cur before,
    currentVisit (setVisitStateFromRows getTime mappedVisits focusId) = Some cur
    /\ view_visits (setVisitStateFromRows getTime mappedVisits focusId)
       = before ++ [cur]
    /\ forall v, In v mappedVisits -> time_of getTime v <= time_of getTime cur.
Proof.
  intros Hvalid Hne Hfocus.
  destruct (view_index mappedVisits focusId Hne)
    as (index & cur & _ & Hv & Hcur & Hc & _ & _ & Hlast).
  rewrite (Hlast Hfocus) in Hcur.
  destruct (nth_error_last _ _ Hcur) as (before & E).
  exists cur, before. split; [exact Hc |]. rewrite Hv. split; [exact E |].
  intros v Hin.
  pose proof (Array_sort_perm (by_date getTime) mappedVisits) as Hperm.
  pose proof (Array_sort_sorted (by_date getTime) (time_of getTime) mappedVisits
                (by_date_time _ Hvalid)) as Hs.
  rewrite E in Hs, Hperm.
  apply (Permutation_in _ Hperm) in Hin. apply in_app_or in Hin.
  destruct Hin as [Hin | [<- | []]]; [| lia].
  apply (sorted_prefix_suffix (time_of getTime) before [cur] v cur Hs Hin).
  left. reflexivity.
Qed.

(** X14.  The days shown between the previous and the current visit:
    the previous visit is never later than the current one, and while
    they are at most 2^53 milliseconds apart the count is 1 under a day
    and a half (129,600,000 milliseconds) and from there on the number
    of days of 86,400,000 milliseconds rounded to the nearest integer,
    at least 2. *)
Theorem elapsed_days_of_view mappedVisits focusId prev cur :
  valid_dates getTime mappedVisits ->
  currentVisit (setVisitStateFromRows getTime mappedVisits focusId)
  = Some cur ->
  previousVisit (setVisitStateFromRows getTime mappedVisits focusId)
  = Some prev ->
  let elapsed := time_of getTime cur - time_of getTime prev in
  0 <= elapsed
  /\ (elapsed <= 2 ^ 53 ->
      exists days,
        diffDays (getTime (date prev)) (getTime (date cur)) = Some days
        /\ (elapsed < 129600000 -> days = 1)
        /\ (129600000 <= elapsed ->
            2 <= days /\ nearest_integer elapsed 86400000 days)).
Proof.
  intros Hvalid Hc Hp. cbv zeta.
  assert (Hne : mappedVisits <> []).
  { intros E. rewrite E in Hc. discriminate. }
  destruct (view_adjacent mappedVisits focusId Hne)
    as (cur' & Hc' & Hcin & Hadj).
  rewrite Hc in Hc'. injection Hc' as <-. rewrite Hp in Hadj.
  destruct Hadj as (Hpin & before & after & E).
  destruct (view_sorted mappedVisits focusId Hvalid) as [_ Hs].
  rewrite E in Hs. apply sorted_adjacent in Hs.
  split; [lia |]. intros Hb.
  assert (Tc : getTime (date cur) = Some (time_of getTime cur)).
  { unfold time_of. destruct (getTime (date cur)) eqn:G; [reflexivity |].
    exfalso. exact (Hvalid cur Hcin G). }
  assert (Tp : getTime (date prev) = Some (time_of getTime prev)).
  { unfold time_of. destruct (getTime (date prev)) eqn:G; [reflexivity |].
    exfalso. exact (Hvalid prev Hpin G). }
  rewrite Tc, Tp, diffDays_exact by lia.
  pose proof (round_half_up_nearest
                (time_of getTime cur - time_of getTime prev) 86400000
                eq_refl) as Hn.
  remember (round_half_up (time_of getTime cur - time_of getTime prev)
              86400000) as r eqn:Er.
  clear Er. unfold nearest_integer in *.
  eexists. split; [reflexivity |]. split; intros H.
  - assert (r <= 1) by lia. lia.
  - assert (2 <= r) by lia. rewrite Z.max_r by lia. split; [lia | exact Hn].
Qed.

Lemma StronglySorted_weaken {A} (R R' : A -> A -> Prop) l :
  (forall a b, R a b -> R' a b) -> StronglySorted R l -> StronglySorted R' l.
Proof.
  intros HR Hs. induction Hs as [| a l Hs IH Ha]; constructor; [exact IH |].
  rewrite Forall_forall in *. intros x Hx. apply HR, Ha, Hx.
Qed.

Lemma StronglySorted_app_l {A} (R : A -> A -> Prop) l1 l2 :
  StronglySorted R (l1 ++ l2) -> StronglySorted R l1.
Proof.
  induction l1 as [| a l1 IH]; cbn; intros H; [constructor |].
  inversion H; subst. constructor; [apply IH; assumption |].
  match goal with H : Forall _ (l1 ++ l2) |- _ =>
    apply Forall_app in H; tauto end.
Qed.

(** X15.  The history holds the five latest visits, or all of them when
    there are fewer, the latest first: no visit that is left out is later
    than a visit that is shown. *)
Theorem historyVisits_latest_five visits :
  valid_dates getTime visits ->
  let history := historyVisits getTime visits in
  length history = Nat.min 5 (length visits)
  /\ StronglySorted (fun a b => time_of getTime b <= time_of getTime a) history
  /\ exists older,
       Permutation visits (history ++ older)
       /\ forall x y, In x history -> In y older ->
                      time_of getTime y <= time_of getTime x.
Proof.
  intros Hvalid. cbv zeta. unfold historyVisits.
  set (sorted := Array_sort (by_date_descending getTime) visits).
  pose proof (Array_sort_perm (by_date_descending getTime) visits) as Hperm.
  fold sorted in Hperm.
  assert (Hs : StronglySorted
                 (fun a b => - time_of getTime a <= - time_of getTime b)
                 sorted).
  { apply Array_sort_sorted. intros a b Ha Hb. unfold by_date_descending.
    rewrite (by_date_time _ Hvalid b a Hb Ha). lia. }
  rewrite <- (firstn_skipn 5 sorted) in Hs, Hperm.
  split; [| split].
  - rewrite length_firstn, (Permutation_length Hperm), length_app,
      length_firstn, length_skipn. lia.
  - apply StronglySorted_app_l in Hs.
    revert Hs. apply StronglySorted_weaken. intros a b H. lia.
  - exists (skipn 5 sorted). split; [exact Hperm |].
    intros x y Hx Hy.
    pose proof (sorted_prefix_suffix (fun v => - time_of getTime v) _ _ x y
                  Hs Hx Hy) as H.
    cbv beta in H. lia.
Qed.

End ViewFacts.

Lemma sample_valid_dates :
  valid_dates sample_getTime [march_later; january; march].
Proof.
  intros v [<- | [<- | [<- | []]]]; discriminate.
Qed.

Example setVisitStateFromRows_sample :
  setVisitStateFromRows sample_getTime [march_later; january; march] None
  = {| view_visits := [january; march; march_later];
       currentVisit := Some march_later;
       previousVisit := Some march |}.
Proof. vm_compute. reflexivity. Qed.

Example setVisitStateFromRows_focus :
  setVisitStateFromRows sample_getTime [march_later; january; march]
    (Some (str "a"))
  = {| view_visits := [january; march; march_later];
       currentVisit := Some january;
       previousVisit := None |}.
Proof. vm_compute. reflexivity. Qed.

Lemma visits_sorted_by_date_witness :
  valid_dates sample_getTime [march_later; january; march]
  /\ StronglySorted
       (fun a b => time_of sample_getTime a <= time_of sample_getTime b)
       [january; march; march_later].
Proof.
  split; [exact sample_valid_dates |].
  exact (proj2 (visits_sorted_by_date sample_getTime
                  [march_later; january; march] None sample_valid_dates)).
Defined.

Lemma current_and_previous_are_adjacent_witness :
  [march_later; january; march] <> []
  /\ exists cur,
       currentVisit
         (setVisitStateFromRows sample_getTime [march_later; january; march]
            (Some (str "b"))) = Some cur
       /\ In cur [march_later; january; march].
Proof.
  assert (H : [march_later; january; march] <> []) by discriminate.
  split; [exact H |].
  destruct (current_and_previous_are_adjacent sample_getTime
              [march_later; january; march] (Some (str "b")) H)
    as (cur & Hc & Hin & _).
  exists cur. split; [exact Hc | exact Hin].
Defined.

Lemma focus_selects_its_visit_witness :
  In march [march_later; january; march]
  /\ id march <> []
  /\ exists cur,
       currentVisit
         (setVisitStateFromRows sample_getTime [march_later; january; march]
            (Some (str "b"))) = Some cur
       /\ id cur = str "b".
Proof.
  assert (Hin : In march [march_later; january; march])
    by (right; right; left; reflexivity).
  assert (Hid : id march <> []) by discriminate.
  split; [exact Hin |]. split; [exact Hid |].
  exact (focus_selects_its_visit sample_getTime [march_later; january; march]
           (Some (str "b")) march Hin Hid eq_refl).
Defined.

Lemma default_current_is_latest_witness :
  valid_dates sample_getTime [march_later; january; march]
  /\ exists cur before,
       currentVisit
         (setVisitStateFromRows sample_getTime [march_later; january; march]
            None) = Some cur
       /\ view_visits
            (setVisitStateFromRows sample_getTime
               [march_later; january; march] None) = before ++ [cur]
       /\ time_of sample_getTime march <= time_of sample_getTime cur.
Proof.
  split; [exact sample_valid_dates |].
  destruct (default_current_is_latest sample_getTime
              [march_later; january; march] None sample_valid_dates
              ltac:(discriminate) (or_introl eq_refl))
    as (cur & before & Hc & Hv & Hlast).
  exists cur, before. split; [exact Hc |]. split; [exact Hv |].
  apply Hlast. right. right. left. reflexivity.
Defined.

Lemma elapsed_days_of_view_witness :
  valid_dates sample_getTime [march_later; january; march]
  /\ time_of sample_getTime march - time_of sample_getTime january <= 2 ^ 53
  /\ 129600000 <= time_of sample_getTime march - time_of sample_getTime january
  /\ exists days,
       diffDays (sample_getTime (date january)) (sample_getTime (date march))
       = Some days
       /\ nearest_integer
            (time_of sample_getTime march - time_of sample_getTime january)
            86400000 days.
Proof.
  assert (Hb : time_of sample_getTime march - time_of sample_getTime january
               <= 2 ^ 53) by (vm_compute; discriminate).
  assert (Hfar : 129600000
                 <= time_of sample_getTime march
                    - time_of sample_getTime january)
    by (vm_compute; discriminate).
  split; [exact sample_valid_dates |]. split; [exact Hb |].
  split; [exact Hfar |].
  destruct (proj2 (elapsed_days_of_view sample_getTime
                     [march_later; january; march] (Some (str "b"))
                     january march sample_valid_dates eq_refl eq_refl) Hb)
    as (days & Hd & _ & Hround).
  exists days. split; [exact Hd | exact (proj2 (Hround Hfar))].
Defined.

Lemma historyVisits_latest_five_witness :
  valid_dates sample_getTime [march_later; january; march]
  /\ length (historyVisits sample_getTime [march_later; january; march])
     = Nat.min 5 3.
Proof.
  split; [exact sample_valid_dates |].
  exact (proj1 (historyVisits_latest_five sample_getTime
                  [march_later; january; march] sample_valid_dates)).
Defined.

End VisitStateProofs.

(** ** The lines and the numbers of a reference table *)

Module CsvProofs.

Import GrowthTable CsvSpec.

Lemma loop_plain field rest current values :
  plain field ->
  parseCsvLine_loop (field ++ rest) current false values
  = parseCsvLine_loop rest (current ++ field) false values.
Proof.
  revert current. induction field as [| c field IH]; intros current Hp.
  - rewrite app_nil_r. reflexivity.
  - destruct (Hp c (or_introl eq_refl)) as [Hq Hc].
    cbn [app parseCsvLine_loop].
    apply N.eqb_neq in Hq, Hc. rewrite Hq, Hc. cbn [andb].
    rewrite IH by (intros d Hd; apply Hp; right; exact Hd).
    rewrite <- app_assoc. reflexivity.
Qed.

Lemma loop_quoted_body field rest current values :
  (forall c rest', rest = c :: rest' -> c <> 34%N) ->
  parseCsvLine_loop (doubled field ++ 34%N :: rest) current true values
  = parseCsvLine_loop rest (current ++ field) false values.
Proof.
  intros Hrest. revert current.
  induction field as [| c field IH]; intros current.
  - rewrite app_nil_r.
    cbn [doubled flat_map app parseCsvLine_loop N.eqb Pos.eqb].
    destruct rest as [| next rest']; [reflexivity |].
    specialize (Hrest next rest' eq_refl). apply N.eqb_neq in Hrest.
    rewrite Hrest. reflexivity.
  - unfold doubled in *. cbn [flat_map]. destruct (c =? 34)%N eqn:E.
    + apply N.eqb_eq in E. subst c.
      cbn [app parseCsvLine_loop N.eqb Pos.eqb andb].
      rewrite IH, <- app_assoc. reflexivity.
    + cbn [app parseCsvLine_loop]. rewrite E.
      rewrite andb_false_r, IH, <- app_assoc. reflexivity.
Qed.

Lemma loop_cell field cell rest current values :
  writes field cell ->
  (forall c rest', rest = c :: rest' -> c <> 34%N) ->
  parseCsvLine_loop (cell ++ rest) current false values
  = parseCsvLine_loop rest (current ++ field) false values.
Proof.
  intros [-> | [Hp ->]] Hrest.
  - unfold quoted.
    change ((34%N :: doubled field ++ [34%N]) ++ rest)
      with (34%N :: ((doubled field ++ [34%N]) ++ rest)).
    rewrite <- app_assoc. change ([34%N] ++ rest) with (34%N :: rest).
    set (body := doubled field).
    assert (Hopen : parseCsvLine_loop (34%N :: body ++ 34%N :: rest) current
                      false values
                    = parseCsvLine_loop (body ++ 34%N :: rest) current true
                        values).
    { cbn [parseCsvLine_loop N.eqb Pos.eqb andb].
      destruct (body ++ 34%N :: rest); reflexivity. }
    rewrite Hopen. apply loop_quoted_body. exact Hrest.
  - apply loop_plain. exact Hp.
Qed.

Lemma loop_cells fields cells :
  Forall2 writes fields cells ->
  forall field cell values,
    writes field cell ->
    parseCsvLine_loop (join_commas (cell :: cells)) [] false values
    = values ++ map trim (field :: fields).
Proof.
  induction 1 as [| f c fields cells Hw Hrest IH]; intros field cell values Hc.
  - cbn [join_commas].
    pose proof (loop_cell field cell [] [] values Hc) as H.
    rewrite app_nil_r in H. rewrite H by (intros ? ? [=]). reflexivity.
  - change (join_commas (cell :: c :: cells))
      with (cell ++ 44%N :: join_commas (c :: cells)).
    rewrite (loop_cell field cell _ [] values Hc)
      by (intros ? ? [= <- _]; discriminate).
    cbn [app parseCsvLine_loop N.eqb Pos.eqb andb negb].
    rewrite (IH f c _ Hw). cbn [map]. rewrite <- app_assoc. reflexivity.
Qed.

(** X16.  The line parser undoes the usual writing of a CSV line: of cells
    joined by commas, each cell a plain field or a field between
    quotation marks with its own quotation marks doubled, it returns the
    fields, each one trimmed. *)
Theorem parseCsvLine_reads_written_fields field fields cell cells :
  writes field cell ->
  Forall2 writes fields cells ->
  parseCsvLine (join_commas (cell :: cells)) = map trim (field :: fields).
Proof.
  intros Hc Hcs. unfold parseCsvLine.
  rewrite (loop_cells fields cells Hcs field cell [] Hc). reflexivity.
Qed.

Lemma parseCsvLine_reads_written_fields_witness :
  parseCsvLine
    (join_commas [quoted (str "a, " ++ [34%N]); str " 12 "; str "x y"])
  = map trim [str "a, " ++ [34%N]; str " 12 "; str "x y"].
Proof.
  apply parseCsvLine_reads_written_fields.
  - left. reflexivity.
  - apply Forall2_cons; [| apply Forall2_cons; [| apply Forall2_nil]];
      right; (split; [| reflexivity]);
      intros c Hc; cbn in Hc;
      repeat (destruct Hc as [<- | Hc]; [split; discriminate |]);
      contradiction.
Defined.

End CsvProofs.

Module NumbersProofs.

Import GrowthTable GrowthTableSpec GrowthTableProofs NumbersSpec.

Lemma fromEntries_In {A} (entries : list (jsstring * A)) o p :
  In p (fold_left (fun o e => set (fst e) (snd e) o) entries o) ->
  In p entries \/ In p o.
Proof.
  revert o. induction entries as [| [k v] entries IH]; intros o; cbn.
  - intros H. right. exact H.
  - intros H. destruct (IH _ H) as [Hin | Hin]; [left; right; exact Hin |].
    apply In_set in Hin. destruct Hin as [-> | Hin];
      [left; left; reflexivity | right; exact Hin].
Qed.

Section Properties.

Variable Number_toString : float -> jsstring.
Variable Number_parseFloat : option jsstring -> float.

Lemma push_percentiles_numbers cells cols pcts pcts' :
  (forall label values,
      In (label, values) pcts -> Forall finite_or_NaN values) ->
  push_percentiles Number_parseFloat cells cols pcts = Ok pcts' ->
  forall label values, In (label, values) pcts' -> Forall finite_or_NaN values.
Proof.
  revert pcts. induction cols as [| column cols IH]; intros pcts Hall.
  - intros [= <-]. exact Hall.
  - cbn [push_percentiles].
    destruct (get (name column) pcts) as [old |] eqn:G; [| discriminate].
    apply IH. intros label values Hin. apply In_set in Hin.
    destruct Hin as [[= _ ->] | Hin]; [| exact (Hall _ _ Hin)].
    apply Forall_app. split; [exact (Hall _ _ (get_In _ _ _ G)) |].
    constructor; [| constructor]. unfold finite_or_NaN, Number_isFinite.
    destruct (is_finite (Number_parseFloat (nth_error cells (index column))))
      eqn:F; [left; exact F | right; reflexivity].
Qed.

Lemma parse_row_numbers sexIndex monthIndex cols bySex bySex' line :
  (forall key curve, In (key, curve) bySex ->
                     curve_numbers_ok Number_toString key curve) ->
  parse_row Number_toString Number_parseFloat sexIndex monthIndex cols
    bySex line = Ok bySex' ->
  forall key curve, In (key, curve) bySex' ->
                    curve_numbers_ok Number_toString key curve.
Proof.
  intros Hok. unfold parse_row, Number_isFinite.
  destruct (is_finite
              (Number_parseInt (nth_error (parseCsvLine line) sexIndex)))
    eqn:Fs; cbn [negb orb]; [| intros [= <-]; exact Hok].
  destruct (is_finite
              (Number_parseInt (nth_error (parseCsvLine line) monthIndex)))
    eqn:Fm; cbn [negb]; [| intros [= <-]; exact Hok].
  set (key0 := Number_toString _).
  set (entry := match get key0 bySex with Some entry => entry | None => _ end).
  assert (Hentry : Forall (fun age => is_finite age = true) (ages entry)
                   /\ forall label values,
                        In (label, values) (percentiles entry) ->
                        Forall finite_or_NaN values).
  { unfold entry. destruct (get key0 bySex) as [e |] eqn:G.
    - destruct (Hok _ _ (get_In _ _ _ G)) as (_ & _ & Ha & Hp).
      split; assumption.
    - cbn [ages percentiles]. split; [constructor |].
      intros label values Hin. unfold Object_fromEntries in Hin.
      apply fromEntries_In in Hin. destruct Hin as [Hin | []].
      apply in_map_iff in Hin. destruct Hin as (column & [= _ <-] & _).
      constructor. }
  destruct (push_percentiles Number_parseFloat (parseCsvLine line) cols
              (percentiles entry)) as [pcts |] eqn:Hpush; [| discriminate].
  cbn [bind]. intros [= <-] key curve Hin. apply In_set in Hin.
  destruct Hin as [[= -> ->] | Hin]; [| exact (Hok _ _ Hin)].
  split; [| split; [| split]]; cbn [ages percentiles].
  - eexists. split; [exact Fs | reflexivity].
  - intros E. apply app_eq_nil in E. destruct E as [_ E]. discriminate.
  - apply Forall_app. split; [exact (proj1 Hentry) |].
    constructor; [exact Fm | constructor].
  - exact (push_percentiles_numbers _ _ _ _ (proj2 Hentry) Hpush).
Qed.

Lemma parse_rows_numbers sexIndex monthIndex cols bySex bySex' lines :
  (forall key curve, In (key, curve) bySex ->
                     curve_numbers_ok Number_toString key curve) ->
  parse_rows Number_toString Number_parseFloat sexIndex monthIndex cols
    bySex lines = Ok bySex' ->
  forall key curve, In (key, curve) bySex' ->
                    curve_numbers_ok Number_toString key curve.
Proof.
  revert bySex. induction lines as [| line lines IH]; intros bySex Hok.
  - intros [= <-]. exact Hok.
  - cbn [parse_rows].
    destruct (parse_row Number_toString Number_parseFloat sexIndex monthIndex
                cols bySex line) as [bySex1 |] eqn:H1; [| discriminate].
    cbn [bind]. apply IH. exact (parse_row_numbers _ _ _ _ _ _ Hok H1).
Qed.

Lemma parsed_curve_numbers content st table key curve :
  fst (parseGrowthCsv Number_toString Number_parseFloat content st)
  = Ok table ->
  get key (bySex table) = Some curve ->
  curve_numbers_ok Number_toString key curve.
Proof.
  unfold parseGrowthCsv.
  destruct (content_lines content) as [| line0 [| line1 [| row rows]]];
    try (intros [= <-]; discriminate).
  cbn [length Nat.ltb Nat.leb].
  destruct (findIndex _ _) as [sexIndex |]; [| intros [= <-]; discriminate].
  destruct (findIndex _ _) as [monthIndex |]; [| intros [= <-]; discriminate].
  rewrite filter_percentile_pure. cbn [fst].
  set (cols := filter _ _).
  destruct (parse_rows Number_toString Number_parseFloat sexIndex monthIndex
              cols [] (row :: rows)) as [bySex' |] eqn:Hrows; [| discriminate].
  cbn [bind]. intros [= <-]. cbn [bySex]. intros Hget.
  unfold Object_fromEntries in Hget. apply fromEntries_get in Hget.
  destruct Hget as [Hin | Hnone]; [| discriminate].
  refine (parse_rows_numbers _ _ _ _ _ _ _ Hrows key curve Hin).
  intros ? ? [].
Qed.

(** X17.  Whatever the text of the table: every sex of the output has
    at least one age, its key is the print of a finite number, its ages
    are all finite, and each of its percentile values is finite or NaN,
    never an infinity. *)
Theorem parsed_numbers_are_finite content st table key curve :
  fst (parseGrowthCsv Number_toString Number_parseFloat content st)
  = Ok table ->
  get key (bySex table) = Some curve ->
  (exists sexValue, is_finite sexValue = true /\ key = Number_toString sexValue)
  /\ ages curve <> []
  /\ (forall age, In age (ages curve) -> is_finite age = true)
  /\ (forall label values value,
        get label (percentiles curve) = Some values ->
        In value values ->
        is_finite value = true \/ is_nan value = true).
Proof.
  intros Hparse Hget.
  destruct (parsed_curve_numbers _ _ _ _ _ Hparse Hget)
    as (Hkey & Hne & Hages & Hp).
  split; [exact Hkey |]. split; [exact Hne |]. split.
  - rewrite Forall_forall in Hages. exact Hages.
  - intros label values value Hv Hin'.
    pose proof (Hp _ _ (get_In _ _ _ Hv)) as Hf.
    rewrite Forall_forall in Hf. exact (Hf _ Hin').
Qed.

End Properties.

Lemma parsed_numbers_are_finite_witness :
  fst (IntegerCells.parseGrowthCsv IntegerCells.sample_table
         IntegerCells.initial_state)
  = Ok {| table_percentiles := [str "3rd"; str "50th"];
          bySex :=
            [ (str "1", sample_curve_1);
              (str "2", {| ages := [0]%float;
                           percentiles := [ (str "3rd", [45]%float);
                                            (str "50th", [49]%float) ] |}) ] |}
  /\ Forall (fun age => is_finite age = true) (ages sample_curve_1).
Proof.
  split; [exact parse_sample |]. apply Forall_forall.
  exact (proj1 (proj2 (proj2
    (parsed_numbers_are_finite IntegerCells.Number_toString
       IntegerCells.Number_parseFloat IntegerCells.sample_table
       IntegerCells.initial_state _ (str "1") sample_curve_1
       parse_sample eq_refl)))).
Defined.

End NumbersProofs.

(** ** The request handler and its cache *)

Module RouteProofs.

Import GrowthTable GrowthTableProofs Route RouteSpec.

Section Properties.

Variable Number_toString : float -> jsstring.
Variable Number_parseFloat : option jsstring -> float.

Lemma GET_resume_read metric content st :
  GET_resume Number_toString Number_parseFloat metric (Some content) st
  = (Fulfilled
       (ok (table_response Number_toString Number_parseFloat metric content)),
     {| pattern := pattern st;
        cache :=
          set metric
            (table_response Number_toString Number_parseFloat metric content)
            (cache st) |}).
Proof.
  unfold GET_resume, ok, table_response, table_of.
  destruct (parseGrowthCsv_total Number_toString Number_parseFloat content
              (pattern st)) as (table & Hst & _ & Hany).
  rewrite Hst, (Hany (pattern loaded)). reflexivity.
Qed.

Lemma latest_read_earlier metric events content :
  latest_read metric events (Some content)
  = match latest_read metric events None with
    | Some later => Some later
    | None => Some content
    end.
Proof.
  revert content. induction events as [| [m | m [c |]] events IH];
    intros content; cbn [latest_read]; try reflexivity; try apply IH.
  destruct (jsstring_eqb metric m); [| apply IH].
  rewrite !IH. destruct (latest_read metric events None); reflexivity.
Qed.

Lemma cache_after events st metric :
  get metric
      (cache (fold_left (step Number_toString Number_parseFloat) events st))
  = match latest_read metric events None with
    | Some content =>
        Some (table_response Number_toString Number_parseFloat metric content)
    | None => get metric (cache st)
    end.
Proof.
  revert st. induction events as [| [m | m [c |]] events IH]; intros st;
    cbn [fold_left step latest_read]; try reflexivity; try apply IH.
  rewrite GET_resume_read. cbn [snd]. rewrite IH. cbn [cache].
  destruct (jsstring_eqb metric m) eqn:E.
  - apply jsstring_eqb_eq in E. subst m.
    rewrite latest_read_earlier, get_set_same.
    destruct (latest_read metric events None); reflexivity.
  - rewrite get_set_other; [reflexivity |].
    intros ->. assert (jsstring_eqb m m = true)
      by (apply jsstring_eqb_eq; reflexivity).
    congruence.
Qed.

Lemma GET_start_valid metric st :
  valid_metric metric ->
  GET_start (Some metric) st
  = match get metric (cache st) with
    | Some cached => Responded (ok cached)
    | None =>
        Reading metric
          (str "korea-growth-table_" ++ metric ++ str ".csv")
    end.
Proof.
  intros [-> | ->]; unfold GET_start; cbn [jsstring_eqb];
    destruct (get _ (cache st)); reflexivity.
Qed.

(** X18.  Requests may overlap: each one runs up to its read of the file and
    ends when that read has settled.  Whatever has happened since the
    module was loaded, a request for a metric is answered at once, with
    status 200, by the table of the latest read of that metric's file
    that succeeded, whichever request started it; when no read of it has
    succeeded yet, the request reads the file.  The module is not written
    before the read settles. *)
Theorem GET_serves_the_latest_read events metric :
  valid_metric metric ->
  GET_start (Some metric) (run Number_toString Number_parseFloat events)
  = match latest_read metric events None with
    | Some content =>
        Responded
          (ok (table_response Number_toString Number_parseFloat metric
                 content))
    | None =>
        Reading metric (str "korea-growth-table_" ++ metric ++ str ".csv")
    end.
Proof.
  intros Hm. rewrite (GET_start_valid _ _ Hm). unfold run.
  rewrite cache_after.
  destruct (latest_read metric events None); reflexivity.
Qed.

(** X19.  A request whose metric is neither height nor weight, or is
    missing, is answered with status 400, in every state of the module,
    and a read that settles always ends its request: with the table of
    the text read, stored for the metric, or, when the read failed, with
    a rejection that leaves the module as it was. *)
Theorem GET_outcomes metric content st :
  (metric <> Some (str "height") -> metric <> Some (str "weight") ->
   GET_start metric st = Responded invalid_metric)
  /\ (forall m,
        let served :=
          table_response Number_toString Number_parseFloat m content in
        GET_resume Number_toString Number_parseFloat m (Some content) st
        = (Fulfilled (ok served),
           {| pattern := pattern st; cache := set m served (cache st) |})
        /\ get m
             (cache (snd (GET_resume Number_toString Number_parseFloat m
                            (Some content) st)))
           = Some served
        /\ GET_resume Number_toString Number_parseFloat m None st
           = (Rejected, st)).
Proof.
  split.
  - intros Hh Hw. destruct metric as [m |]; [| reflexivity].
    unfold GET_start.
    destruct (jsstring_eqb m (str "height")) eqn:Eh.
    { apply jsstring_eqb_eq in Eh. subst m. contradiction. }
    destruct (jsstring_eqb m (str "weight")) eqn:Ew.
    { apply jsstring_eqb_eq in Ew. subst m. contradiction. }
    reflexivity.
  - intros m. cbv zeta. split; [apply GET_resume_read |].
    split; [| reflexivity].
    rewrite GET_resume_read. cbn [snd cache]. apply get_set_same.
Qed.

End Properties.

Lemma GET_serves_the_latest_read_witness :
  GET_start (Some (str "height"))
    (run IntegerCells.Number_toString IntegerCells.Number_parseFloat
       [ Request (Some (str "height")); Request (Some (str "height"));
         ReadSettled (str "height") (Some IntegerCells.sample_table);
         ReadSettled (str "height") (Some IntegerCells.headless_table);
         ReadSettled (str "weight") (Some IntegerCells.sample_table) ])
  = Responded
      (ok (table_response IntegerCells.Number_toString
             IntegerCells.Number_parseFloat (str "height")
             IntegerCells.headless_table)).
Proof.
  exact (GET_serves_the_latest_read IntegerCells.Number_toString
           IntegerCells.Number_parseFloat
           [ Request (Some (str "height")); Request (Some (str "height"));
             ReadSettled (str "height") (Some IntegerCells.sample_table);
             ReadSettled (str "height") (Some IntegerCells.headless_table);
             ReadSettled (str "weight") (Some IntegerCells.sample_table) ]
           (str "height") (or_introl eq_refl)).
Defined.

Lemma GET_outcomes_witness :
  GET_start (Some (str "bmi")) loaded = Responded invalid_metric.
Proof.
  refine (proj1 (GET_outcomes IntegerCells.Number_toString
                   IntegerCells.Number_parseFloat (Some (str "bmi")) []
                   loaded) _ _); discriminate.
Defined.

End RouteProofs.

(** ** Reference curves *)

Module CurvesProofs.

Import GrowthTable GrowthTableProofs Curves CurvesSpec.

Lemma mapi_from_nth {A B} (f : A -> nat -> B) l i k :
  nth_error (mapi_from i f l) k
  = option_map (fun a => f a (i + k)%nat) (nth_error l k).
Proof.
  revert i k. induction l as [| a l IH]; intros i k.
  - destruct k; reflexivity.
  - destruct k as [| k]; cbn.
    + rewrite Nat.add_0_r. reflexivity.
    + rewrite IH. replace (S i + k)%nat with (i + S k)%nat by lia. reflexivity.
Qed.

Lemma curve_points_from (ages : list float) values i :
  flat_map
    (fun point : float * option float =>
       match snd point with
       | Some y =>
           if Number_isFinite y
           then [ {| Chart.x := fst point; Chart.y := y |} ] else []
       | None => []
       end)
    (mapi_from i (fun age index => (age, nth_error values index)) ages)
  = map point_of
      (filter (fun row => is_finite (snd row)) (combine ages (skipn i values))).
Proof.
  revert i. induction ages as [| age ages IH]; intros i; [reflexivity |].
  cbn [mapi_from flat_map snd fst].
  destruct (nth_error values i) as [y |] eqn:E.
  - destruct (nth_error_split _ _ E) as (l1 & l2 & -> & <-).
    rewrite IH.
    replace (skipn (length l1) (l1 ++ y :: l2)) with (y :: l2)
      by (rewrite skipn_app, skipn_all, Nat.sub_diag; reflexivity).
    replace (skipn (S (length l1)) (l1 ++ y :: l2)) with l2.
    2:{ rewrite skipn_app, skipn_all2 by lia.
        replace (S (length l1) - length l1)%nat with 1%nat by lia.
        reflexivity. }
    cbn [combine filter snd]. unfold Number_isFinite.
    destruct (is_finite y); reflexivity.
  - apply nth_error_None in E. rewrite IH.
    rewrite !skipn_all2 by lia.
    destruct ages; reflexivity.
Qed.

Lemma curve_points_rows table key :
  curve_points table key
  = map point_of (filter (fun row => is_finite (snd row)) (rows_of table key)).
Proof.
  unfold curve_points, rows_of, mapi.
  destruct (get key (percentiles table)) as [values |].
  - apply (curve_points_from (ages table) values 0).
  - generalize 0%nat. induction (ages table) as [| a l IH]; intros n;
      [reflexivity | cbn; apply IH].
Qed.

Example sample_rows_of_sex_2 :
  get (str "2")
      (Route.response_bySex
         (RouteSpec.table_response IntegerCells.Number_toString
            IntegerCells.Number_parseFloat (str "height")
            IntegerCells.sample_table))
  = Some {| ages := [0]%float;
            percentiles := [ (str "3rd", [45]%float);
                             (str "50th", [49]%float) ] |}.
Proof. vm_compute. reflexivity. Qed.

(** X20.  There is one reference curve for each percentile label of the
    table, in their order, and its points are the rows of the chosen sex,
    the age paired with the value of the label at the same index, whose
    value is finite, in the order of the table.  Without a table, without
    a sex, or for a sex that the table lacks, there is no curve. *)
Theorem referenceCurves_are_the_finite_rows growthTable sexKey :
  (forall table,
      sexKey <> [] ->
      get sexKey (Route.response_bySex growthTable) = Some table ->
      referenceCurves (Some growthTable) (Some sexKey)
      = map (fun key =>
               {| Chart.key := key;
                  Chart.points :=
                    map point_of
                      (filter (fun row => is_finite (snd row))
                              (rows_of table key)) |})
            (Route.response_percentiles growthTable))
  /\ (get sexKey (Route.response_bySex growthTable) = None ->
      referenceCurves (Some growthTable) (Some sexKey) = [])
  /\ referenceCurves (Some growthTable) (Some []) = []
  /\ referenceCurves (Some growthTable) None = []
  /\ referenceCurves None (Some sexKey) = [].
Proof.
  unfold referenceCurves. split; [| split; [| split; [| split]]];
    try reflexivity.
  - intros table Hne Hget. destruct sexKey as [| c sexKey]; [contradiction |].
    rewrite Hget. apply map_ext. intros key.
    rewrite curve_points_rows. reflexivity.
  - intros Hget. destruct sexKey; [reflexivity |]. rewrite Hget. reflexivity.
Qed.

Lemma referenceCurves_are_the_finite_rows_witness :
  str "2" <> []
  /\ heightCurves
       (Some (RouteSpec.table_response IntegerCells.Number_toString
                IntegerCells.Number_parseFloat (str "height")
                IntegerCells.sample_table))
       (Some (str "2"))
     = map (fun key =>
              {| Chart.key := key;
                 Chart.points :=
                   map point_of
                     (filter (fun row => is_finite (snd row))
                        (rows_of
                           {| ages := [0]%float;
                              percentiles := [ (str "3rd", [45]%float);
                                               (str "50th", [49]%float) ] |}
                           key)) |})
           (Route.response_percentiles
              (RouteSpec.table_response IntegerCells.Number_toString
                 IntegerCells.Number_parseFloat (str "height")
                 IntegerCells.sample_table)).
Proof.
  assert (H : str "2" <> []) by discriminate.
  split; [exact H |].
  exact (proj1 (referenceCurves_are_the_finite_rows _ (str "2")) _ H
           sample_rows_of_sex_2).
Defined.

Section Served.

Variable Number_toString : float -> jsstring.
Variable Number_parseFloat : option jsstring -> float.

(** X21.  From the text of a table to the chart: in the curves made of
    the table that the route serves for that text, with NaN where the
    response carries null, every point has a finite x and a finite y, and
    every curve is named by a percentile label of the table. *)
Theorem served_curves_have_finite_points metric content sexKey curve :
  In curve
     (referenceCurves
        (Some (RouteSpec.table_response Number_toString Number_parseFloat
                 metric content))
        sexKey) ->
  In (Chart.key curve)
     (table_percentiles
        (RouteSpec.table_of Number_toString Number_parseFloat content))
  /\ forall point, In point (Chart.points curve) ->
       is_finite (Chart.x point) = true /\ is_finite (Chart.y point) = true.
Proof.
  unfold referenceCurves, RouteSpec.table_response, RouteSpec.table_of.
  cbn [Route.response_bySex Route.response_percentiles].
  destruct sexKey as [[| c sexKey] |]; try contradiction.
  destruct (parseGrowthCsv_total Number_toString Number_parseFloat content
              (Route.pattern Route.loaded)) as (table & Hst & _ & _).
  assert (Hparse : fst (parseGrowthCsv Number_toString Number_parseFloat
                          content (Route.pattern Route.loaded)) = Ok table)
    by (rewrite Hst; reflexivity).
  rewrite Hparse.
  destruct (get (c :: sexKey) (bySex table)) as [rows |] eqn:G;
    [| contradiction].
  intros Hin. apply in_map_iff in Hin. destruct Hin as (key & <- & Hkey).
  split; [exact Hkey |]. cbn [Chart.points Chart.key].
  intros point Hp. rewrite curve_points_rows in Hp.
  apply in_map_iff in Hp. destruct Hp as ([age value] & <- & Hrow).
  apply filter_In in Hrow. destruct Hrow as [Hrow Hfin].
  cbn [point_of Chart.x Chart.y fst snd] in *. split; [| exact Hfin].
  destruct (NumbersProofs.parsed_curve_numbers Number_toString
              Number_parseFloat content _ table _ rows Hparse G)
    as (_ & _ & Hages & _).
  rewrite Forall_forall in Hages. apply Hages.
  unfold rows_of in Hrow.
  destruct (get key (percentiles rows)); [| contradiction].
  exact (in_combine_l _ _ _ _ Hrow).
Qed.

End Served.

Example heightCurves_sample :
  heightCurves
    (Some (RouteSpec.table_response IntegerCells.Number_toString
             IntegerCells.Number_parseFloat (str "height")
             IntegerCells.sample_table))
    (Some (str "2"))
  = [ {| Chart.key := str "3rd";
         Chart.points := [ {| Chart.x := 0; Chart.y := 45 |} ] |};
      {| Chart.key := str "50th";
         Chart.points := [ {| Chart.x := 0; Chart.y := 49 |} ] |} ].
Proof. vm_compute. reflexivity. Qed.

Lemma served_curves_have_finite_points_witness :
  forallb (fun point => is_finite (Chart.x point) && is_finite (Chart.y point))
    [ {| Chart.x := 0%float; Chart.y := 45%float |} ] = true
  /\ In (str "3rd")
        (table_percentiles
           (RouteSpec.table_of IntegerCells.Number_toString
              IntegerCells.Number_parseFloat IntegerCells.sample_table)).
Proof.
  split; [reflexivity |].
  refine (proj1 (served_curves_have_finite_points
                   IntegerCells.Number_toString IntegerCells.Number_parseFloat
                   (str "height") IntegerCells.sample_table (Some (str "2"))
                   {| Chart.key := str "3rd";
                      Chart.points := [ {| Chart.x := 0; Chart.y := 45 |} ] |}
                   _)).
  change (referenceCurves ?t ?k) with (heightCurves t k).
  rewrite heightCurves_sample. left. reflexivity.
Defined.

End CurvesProofs.

(** ** Paths, dots and the edges of the plot *)

Module PathProofs.

Import Chart ChartSpec PathSpec FloatSpec FloatProofs.

Local Open Scope float_scope.

Lemma mapi_from_succ {A B} (f : A -> nat -> B) (g : A -> B) l i :
  (forall a k, f a (S k) = g a) ->
  mapi_from (S i) f l = map g l.
Proof.
  intros Hf. revert i. induction l as [| a l IH]; intros i; [reflexivity |].
  cbn. rewrite Hf, IH. reflexivity.
Qed.

Lemma path_of_polyline props pts : path_of props pts = polyline props pts.
Proof.
  unfold path_of, mapi, polyline. destruct pts as [| first others];
    [reflexivity |].
  cbn [mapi_from Nat.eqb]. f_equal.
  apply mapi_from_succ. intros a k. reflexivity.
Qed.

Lemma curvePaths_In props path :
  In path (curvePaths props) <->
  exists curve,
    In curve (reference_curves props)
    /\ filter (in_window props) (points curve) <> []
    /\ path = {| curve_key := key curve;
                 d := path_of props
                        (filter (in_window props) (points curve)) |}.
Proof.
  unfold curvePaths. fold (reference_curves props). rewrite in_flat_map.
  split.
  - intros (curve & Hin & Hp). exists curve. split; [exact Hin |].
    change (fun point => (xMin props <=? x point) && (x point <=? xMax props)
                         && Number_isFinite (y point))
      with (in_window props) in Hp.
    destruct (filter (in_window props) (points curve)) as [| p l] eqn:F;
      [contradiction |].
    destruct Hp as [<- | []]. split; [discriminate | reflexivity].
  - intros (curve & Hin & Hne & ->). exists curve. split; [exact Hin |].
    change (fun point => (xMin props <=? x point) && (x point <=? xMax props)
                         && Number_isFinite (y point))
      with (in_window props).
    destruct (filter (in_window props) (points curve)) as [| p l] eqn:F;
      [contradiction |].
    left. reflexivity.
Qed.

(** X22.  A reference curve is drawn exactly when one of its points has
    its x inside the x-domain and a finite y; its path then moves to the
    first such point and draws a line to each of the others, in the order
    of the curve, and no path is empty. *)
Theorem curve_paths_are_polylines props :
  (forall path, In path (curvePaths props) ->
     exists curve first others,
       In curve (reference_curves props)
       /\ curve_key path = key curve
       /\ filter (in_window props) (points curve) = first :: others
       /\ d path = step_to M props first :: map (step_to L props) others)
  /\ (forall curve, In curve (reference_curves props) ->
        (exists point, In point (points curve) /\ in_window props point = true)
        <-> exists path,
              In path (curvePaths props)
              /\ curve_key path = key curve
              /\ d path
                 = polyline props (filter (in_window props) (points curve))).
Proof.
  split.
  - intros path Hin. apply curvePaths_In in Hin.
    destruct Hin as (curve & Hc & Hne & ->).
    destruct (filter (in_window props) (points curve))
      as [| first others] eqn:F; [contradiction |].
    exists curve, first, others. repeat split; try assumption.
    cbn [d]. rewrite path_of_polyline. reflexivity.
  - intros curve Hc. split.
    + intros (point & Hp & Hw).
      exists {| curve_key := key curve;
                d := path_of props (filter (in_window props) (points curve)) |}.
      split; [| split; [reflexivity | apply path_of_polyline]].
      apply curvePaths_In. exists curve. split; [exact Hc |].
      split; [| reflexivity].
      intros E.
      assert (Hin : In point (filter (in_window props) (points curve)))
        by (apply filter_In; split; assumption).
      rewrite E in Hin. contradiction.
    + intros (path & Hin & _ & Hd). apply curvePaths_In in Hin.
      destruct Hin as (curve' & _ & Hne & ->). cbn [d] in Hd.
      rewrite path_of_polyline in Hd.
      destruct (filter (in_window props) (points curve)) as [| p l] eqn:F.
      * destruct (filter (in_window props) (points curve')); [contradiction |].
        discriminate.
      * exists p. apply filter_In. rewrite F. left. reflexivity.
Qed.

Lemma visit_points_from values xValues i point :
  In point
    (flat_map
       (fun p : option float * float =>
          match fst p with
          | Some px =>
              if Number_isFinite px && Number_isFinite (snd p)
              then [ {| x := px; y := snd p |} ] else []
          | None => []
          end)
       (mapi_from i
          (fun value index =>
             (match xValues with
              | Some xs => nth_error xs index
              | None => Some (Number_of_Z (Z.of_nat index))
              end, value))
          values)) <->
  exists k,
    is_finite (x point) = true /\ is_finite (y point) = true
    /\ nth_error values k = Some (y point)
    /\ match xValues with
       | Some xs => nth_error xs (i + k) = Some (x point)
       | None => x point = Number_of_Z (Z.of_nat (i + k))
       end.
Proof.
  revert i. induction values as [| value values IH]; intros i.
  - cbn. split; [contradiction |]. intros (k & _ & _ & H & _).
    destruct k; discriminate.
  - cbn [mapi_from flat_map]. rewrite in_app_iff, IH. cbn [fst snd]. split.
    + intros [H | (k & Hx & Hy & Hv & Hxs)].
      * exists 0%nat. rewrite Nat.add_0_r. unfold Number_isFinite in H.
        destruct xValues as [xs |].
        -- destruct (nth_error xs i) as [px |] eqn:E; [| contradiction].
           destruct (is_finite px) eqn:Fx; [| contradiction].
           destruct (is_finite value) eqn:Fy; [| contradiction].
           destruct H as [<- | []]. cbn. auto.
        -- destruct (is_finite (Number_of_Z (Z.of_nat i))) eqn:Fx;
             [| contradiction].
           destruct (is_finite value) eqn:Fy; [| contradiction].
           destruct H as [<- | []]. cbn. auto.
      * exists (S k). replace (i + S k)%nat with (S i + k)%nat by lia. auto.
    + intros (k & Hx & Hy & Hv & Hxs). destruct k as [| k].
      * left. rewrite Nat.add_0_r in Hxs. cbn in Hv. injection Hv as ->.
        unfold Number_isFinite. destruct point as [px py]. cbn in *.
        destruct xValues as [xs |].
        -- rewrite Hxs, Hx, Hy. left. reflexivity.
        -- rewrite <- Hxs, Hx, Hy. left. rewrite Hxs. reflexivity.
      * right. exists k. replace (S i + k)%nat with (i + S k)%nat by lia. auto.
Qed.

(** X23.  The visit points are the visits both of whose coordinates are
    finite: the y is the value at some index and the x is the x-value at
    that index, or the index itself when no x-values are given; a value
    with no x-value is left out. *)
Theorem visit_points_are_the_finite_visits values xValues point :
  In point (visit_points values xValues) <->
  is_finite (x point) = true /\ is_finite (y point) = true
  /\ exists index, visit_at_index values xValues index point.
Proof.
  unfold visit_points, mapi, visit_at_index.
  rewrite (visit_points_from values xValues 0 point). cbn [Nat.add]. split.
  - intros (k & Hx & Hy & Hv & Hxs). repeat split; try assumption.
    exists k. split; assumption.
  - intros (Hx & Hy & k & Hv & Hxs). exists k. repeat split; assumption.
Qed.

(** X24.  Of a chart that is drawn: the visit line is there exactly when
    there is a visit point; it moves to the first visit point and draws a
    line to each of the others; and the dots are the vertices of that
    line, one dot of radius 4 for each visit point, in the same order. *)
Theorem dots_are_the_vertices_of_the_line props :
  let pts := visit_points (values props) (xValues props) in
  let scene := scene_of props in
  (pts = [] -> scene_line scene = None /\ scene_dots scene = [])
  /\ (pts <> [] ->
      exists class,
        scene_line scene = Some (polyline props pts, class)
        /\ map (fun step => (step_x step, step_y step)) (polyline props pts)
           = map (fun dot => (cx dot, cy dot)) (scene_dots scene))
  /\ length (scene_dots scene) = length pts
  /\ (forall dot, In dot (scene_dots scene) -> r dot = 4).
Proof.
  cbv zeta. cbn [scene_of scene_line scene_dots].
  set (pts := visit_points (values props) (xValues props)).
  split; [| split; [| split]].
  - intros ->. split; reflexivity.
  - intros Hne. destruct pts as [| first others] eqn:E; [contradiction |].
    rewrite path_of_polyline. eexists. split; [reflexivity |].
    cbn [polyline map step_x step_y step_to cx cy]. f_equal.
    rewrite !map_map. reflexivity.
  - apply length_map.
  - intros dot Hin. apply in_map_iff in Hin.
    destruct Hin as (point & <- & _). reflexivity.
Qed.

Example three_visits_window :
  (xMin three_visits, xMax three_visits) = (24, 48)
  /\ filter (in_window three_visits) median_points = median_points.
Proof. split; reflexivity. Qed.

Lemma curve_paths_are_polylines_witness :
  In {| key := str "50th"; points := median_points |}
     (reference_curves three_visits)
  /\ in_window three_visits {| x := 30; y := 13 |} = true
  /\ exists path,
       In path (curvePaths three_visits)
       /\ curve_key path = str "50th"
       /\ d path = polyline three_visits median_points.
Proof.
  assert (Hin : In {| key := str "50th"; points := median_points |}
                   (reference_curves three_visits)) by (left; reflexivity).
  split; [exact Hin |]. split; [reflexivity |].
  exact (proj1 (proj2 (curve_paths_are_polylines three_visits) _ Hin)
           (ex_intro _ {| x := 30; y := 13 |}
              (conj (or_intror (or_introl eq_refl)) eq_refl))).
Defined.

Lemma dots_are_the_vertices_of_the_line_witness :
  visit_points (values three_visits) (xValues three_visits)
  = [ {| x := 30; y := 12 |}; {| x := 36; y := 14 |} ]
  /\ exists class,
       scene_line (scene_of three_visits)
       = Some (polyline three_visits
                 (visit_points (values three_visits) (xValues three_visits)),
               class).
Proof.
  split; [reflexivity |].
  destruct (proj1 (proj2 (dots_are_the_vertices_of_the_line three_visits)))
    as (class & Hline & _); [discriminate |].
  exists class. exact Hline.
Defined.

Lemma sub_self_finite v : is_finite v = true -> v - v = 0.
Proof.
  intros H. apply is_finite_SF in H.
  rewrite <- (SF2Prim_Prim2SF (v - v)), sub_spec.
  inversion H as [s E | s m e E].
  - destruct s; reflexivity.
  - unfold SF64sub, SFsub. rewrite Z.min_id, Z.sub_diag. reflexivity.
Qed.

Lemma zero_div w :
  is_nan w = false -> (w =? 0) = false -> 0 / w = 0 \/ 0 / w = (-0).
Proof.
  unfold is_nan. rewrite !eqb_spec. intros Hnan Hzero.
  rewrite <- (SF2Prim_Prim2SF (0 / w)), div_spec.
  change (Prim2SF 0) with (S754_zero false) in *.
  destruct (Prim2SF w) as [s | s | | s m e].
  - destruct s; discriminate.
  - destruct s; [right | left]; reflexivity.
  - discriminate.
  - destruct s; [right | left]; reflexivity.
Qed.

(** X25.  The least value of each domain is drawn on the edge of the
    plot: when the x-domain starts at a finite number and its width is a
    number other than zero, that number is drawn at the left padding;
    when the padded y-domain starts at a finite number and its height is
    a number other than zero, that number is drawn on the axis line. *)
Theorem domain_minimum_on_the_edge props :
  (is_finite (xMin props) = true ->
   is_nan (xMax props - xMin props) = false ->
   (xMax props - xMin props =? 0) = false ->
   xFor props (xMin props) = padding_left)
  /\ (is_finite (yMin props) = true ->
      is_nan (yMax props - yMin props) = false ->
      (yMax props - yMin props =? 0) = false ->
      yFor props (yMin props) = axisY).
Proof.
  split; intros Hfin Hnan Hzero.
  - unfold xFor. rewrite (sub_self_finite _ Hfin).
    destruct (zero_div _ Hnan Hzero) as [-> | ->]; reflexivity.
  - unfold yFor. rewrite (sub_self_finite _ Hfin).
    destruct (zero_div _ Hnan Hzero) as [-> | ->]; reflexivity.
Qed.

Lemma domain_minimum_on_the_edge_witness :
  xFor (one_visit 36 100.5) 36 = 52
  /\ yFor (one_visit 36 100.5) (100.5 - pad_ratio) = 204.
Proof.
  split.
  - exact (proj1 (domain_minimum_on_the_edge (one_visit 36 100.5))
             eq_refl eq_refl eq_refl).
  - exact (proj2 (domain_minimum_on_the_edge (one_visit 36 100.5))
             eq_refl eq_refl eq_refl).
Defined.

End PathProofs.
